(** * ScriptoAI legacy code analyzer: job store, routes and analysis pipeline

    A shallow embedding of the server side of the repository:
    - [shared/schema.ts]: the job record and its enumerations;
    - [server/storage.ts]: [MemStorage], the in-memory job store;
    - [server/routes.ts]: the handlers of [/api/analyze], [/api/callback]
      and [/api/status], and of the JSON and archive downloads;
    - [server/analyzer.ts] in its two versions: the per-file analysis, the
      retry helper, the refactorer, [analyzeCode] and [generateJSON].

    The JavaScript runtime and the outside world (clock, random identifiers,
    file system, AI provider, linters) enter as explicit inputs. *)

From Stdlib Require Import ZArith Lia Bool Ascii String List.
From Stdlib Require Import Decimal DecimalPos DecimalFacts Sorted.
From stdpp Require Import base option list strings gmap.

Local Open Scope Z_scope.
Local Open Scope string_scope.

(** ** JavaScript values of JSON shape

    The type of the values the code types as [any]: what [JSON.parse] and the
    body parser deliver, and what [JSON.stringify] writes.  [undefined] is not
    a value of this type: a place that can hold it is an [option].  Numbers
    are the integers, which the runtime holds exactly as long as they are
    safe integers (2^53 - 1 at most in absolute value); fractions,
    exponents, infinities and the rounding of larger integers are outside
    the model.  An object is its list of own properties in insertion
    order. *)
Module Js.

#[warnings="-register-all"]
Inductive value : Type :=
| Null : value
| Bool (b : bool) : value
| Num (n : Z) : value
| Str (s : string) : value
| Arr (elems : list value) : value
| Obj (props : list (string * value)) : value.

(** [o[k]] for an object given by its property list: the first binding. *)
Fixpoint lookup (k : string) (props : list (string * value)) : option value :=
  match props with
  | [] => None
  | (k', v) :: rest => if String.eqb k k' then Some v else lookup k rest
  end.

(** [v.k]: a property read that yields [undefined] ([None]) on anything that
    is not an object holding [k].  (On [null] the read throws; callers that
    can meet [null] test for it first.) *)
Definition get (k : string) (v : value) : option value :=
  match v with
  | Obj props => lookup k props
  | _ => None
  end.

(** Truthiness of a value that may be [undefined]. *)
Definition truthy (o : option value) : bool :=
  match o with
  | None => false
  | Some Null => false
  | Some (Bool b) => b
  | Some (Num n) => negb (Z.eqb n 0)
  | Some (Str s) => negb (String.eqb s "")
  | Some (Arr _) => true
  | Some (Obj _) => true
  end.

(** [x === "s"] for a string literal [s]. *)
Definition is_str (s : string) (o : option value) : bool :=
  match o with
  | Some (Str s') => String.eqb s' s
  | _ => false
  end.

Local Open Scope list_scope.

(** *** Characters

    A string is its sequence of code units, here those below 256; the
    functions on text work on the list of code units. *)

Definition code (c : ascii) : N := N_of_ascii c.

Definition ch_quote : ascii := "034"%char.
Definition ch_backslash : ascii := "092"%char.
Definition ch_newline : ascii := "010"%char.
Definition ch_space : ascii := " "%char.

Definition chars (s : string) : list ascii := list_ascii_of_string s.
Definition text (l : list ascii) : string := string_of_list_ascii l.

Definition is_digit (c : ascii) : bool :=
  (48 <=? code c)%N && (code c <=? 57)%N.

(** *** JSON.stringify(value, null, 2) *)

Definition hex_digit (n : N) : ascii :=
  if (n <? 10)%N then ascii_of_N (48 + n) else ascii_of_N (87 + n).

(** QuoteJSONString, one code unit: the two-character escapes of the
    standard's table, [\u00xx] for the other control characters, and the
    code unit itself otherwise. *)
Definition escape_char (c : ascii) : list ascii :=
  let n := code c in
  if (n =? 34)%N then [ch_backslash; ch_quote]
  else if (n =? 92)%N then [ch_backslash; ch_backslash]
  else if (n =? 8)%N then [ch_backslash; "b"%char]
  else if (n =? 9)%N then [ch_backslash; "t"%char]
  else if (n =? 10)%N then [ch_backslash; "n"%char]
  else if (n =? 12)%N then [ch_backslash; "f"%char]
  else if (n =? 13)%N then [ch_backslash; "r"%char]
  else if (n <? 32)%N then
    [ch_backslash; "u"%char; "0"%char; "0"%char;
     hex_digit (n / 16); hex_digit (n mod 16)]
  else [c].

Fixpoint quote_body (s : string) : list ascii :=
  match s with
  | EmptyString => []
  | String c s' => escape_char c ++ quote_body s'
  end.

Definition quote (s : string) : list ascii :=
  ch_quote :: quote_body s ++ [ch_quote].

Fixpoint digits (d : uint) : list ascii :=
  match d with
  | Nil => []
  | D0 d => "0"%char :: digits d
  | D1 d => "1"%char :: digits d
  | D2 d => "2"%char :: digits d
  | D3 d => "3"%char :: digits d
  | D4 d => "4"%char :: digits d
  | D5 d => "5"%char :: digits d
  | D6 d => "6"%char :: digits d
  | D7 d => "7"%char :: digits d
  | D8 d => "8"%char :: digits d
  | D9 d => "9"%char :: digits d
  end.

(** Number::toString of an integer: its decimal digits, [-] first when it is
    negative.  (From 10^21 on the runtime writes an exponent; safe integers
    are far below.) *)
Definition write_number (n : Z) : list ascii :=
  match n with
  | Z0 => ["0"%char]
  | Zpos p => digits (Pos.to_uint p)
  | Zneg p => "-"%char :: digits (Pos.to_uint p)
  end.

Definition spaces (n : nat) : list ascii := repeat ch_space n.

Fixpoint join (sep : list ascii) (parts : list (list ascii)) : list ascii :=
  match parts with
  | [] => []
  | [p] => p
  | p :: rest => p ++ sep ++ join sep rest
  end.

(** SerializeJSONProperty with a gap of two spaces; [indent] is the number of
    spaces of the current indentation. *)
Fixpoint write (indent : nat) (v : value) : list ascii :=
  match v with
  | Null => chars "null"
  | Bool true => chars "true"
  | Bool false => chars "false"
  | Num n => write_number n
  | Str s => quote s
  | Arr [] => chars "[]"
  | Arr elems =>
      let inner := (indent + 2)%nat in
      "["%char :: ch_newline :: spaces inner ++
      join (","%char :: ch_newline :: spaces inner) (map (write inner) elems) ++
      ch_newline :: spaces indent ++ ["]"%char]
  | Obj [] => chars "{}"
  | Obj props =>
      let inner := (indent + 2)%nat in
      "{"%char :: ch_newline :: spaces inner ++
      join (","%char :: ch_newline :: spaces inner)
        (map (fun kv => quote kv.1 ++ ":"%char :: ch_space :: write inner kv.2)
           props) ++
      ch_newline :: spaces indent ++ ["}"%char]
  end.

Definition stringify (v : value) : string := text (write 0 v).

(** *** JSON.parse *)

Definition is_ws (c : ascii) : bool :=
  let n := code c in
  (n =? 32)%N || (n =? 9)%N || (n =? 10)%N || (n =? 13)%N.

Fixpoint skip_ws (l : list ascii) : list ascii :=
  match l with
  | c :: r => if is_ws c then skip_ws r else l
  | [] => []
  end.

(** [l] without the prefix [p], if it starts with it. *)
Fixpoint strip_prefix (p l : list ascii) : option (list ascii) :=
  match p, l with
  | [], _ => Some l
  | a :: p', b :: l' => if Ascii.eqb a b then strip_prefix p' l' else None
  | _ :: _, [] => None
  end.

Definition hex_value (c : ascii) : option N :=
  let n := code c in
  if (48 <=? n)%N && (n <=? 57)%N then Some (n - 48)%N
  else if (97 <=? n)%N && (n <=? 102)%N then Some (n - 87)%N
  else if (65 <=? n)%N && (n <=? 70)%N then Some (n - 55)%N
  else None.

(** The character a two-character escape stands for. *)
Definition simple_escape (e : ascii) : option ascii :=
  let n := code e in
  if (n =? 34)%N then Some ch_quote
  else if (n =? 92)%N then Some ch_backslash
  else if (n =? 47)%N then Some "/"%char
  else if (n =? 98)%N then Some "008"%char
  else if (n =? 102)%N then Some "012"%char
  else if (n =? 110)%N then Some "010"%char
  else if (n =? 114)%N then Some "013"%char
  else if (n =? 116)%N then Some "009"%char
  else None.

(** The rest of a string literal after its opening quote.  A [\u] escape of a
    code unit from 256 on has no counterpart in the model's strings. *)
Fixpoint parse_string_body (l : list ascii) : option (string * list ascii) :=
  match l with
  | [] => None
  | c :: r =>
      if (code c =? 34)%N then Some (EmptyString, r)
      else if (code c =? 92)%N then
        match r with
        | [] => None
        | e :: r1 =>
            match simple_escape e with
            | Some d =>
                match parse_string_body r1 with
                | Some (s, r') => Some (String d s, r')
                | None => None
                end
            | None =>
                if (code e =? 117)%N then
                  match r1 with
                  | h3 :: h2 :: h1 :: h0 :: r2 =>
                      match hex_value h3, hex_value h2, hex_value h1, hex_value h0 with
                      | Some a3, Some a2, Some a1, Some a0 =>
                          let n := (((a3 * 16 + a2) * 16 + a1) * 16 + a0)%N in
                          if (n <? 256)%N then
                            match parse_string_body r2 with
                            | Some (s, r') => Some (String (ascii_of_N n) s, r')
                            | None => None
                            end
                          else None
                      | _, _, _, _ => None
                      end
                  | _ => None
                  end
                else None
            end
        end
      else if (code c <? 32)%N then None
      else
        match parse_string_body r with
        | Some (s, r') => Some (String c s, r')
        | None => None
        end
  end.

Definition digit_of (c : ascii) (d : uint) : uint :=
  let n := code c in
  if (n =? 48)%N then D0 d else if (n =? 49)%N then D1 d
  else if (n =? 50)%N then D2 d else if (n =? 51)%N then D3 d
  else if (n =? 52)%N then D4 d else if (n =? 53)%N then D5 d
  else if (n =? 54)%N then D6 d else if (n =? 55)%N then D7 d
  else if (n =? 56)%N then D8 d else D9 d.

(** The longest run of digits at the head of [l], and what follows it. *)
Fixpoint take_digits (l : list ascii) : uint * list ascii :=
  match l with
  | c :: r =>
      if is_digit c then
        let '(d, r') := take_digits r in (digit_of c d, r')
      else (Nil, l)
  | [] => (Nil, [])
  end.

(** An integer literal: digits without a superfluous leading zero.  A
    fraction or an exponent after them is outside the model's numbers. *)
Definition parse_unsigned (l : list ascii) : option (Z * list ascii) :=
  let '(d, r) := take_digits l in
  let continues :=
    match r with
    | c :: _ => (code c =? 46)%N || (code c =? 101)%N || (code c =? 69)%N
    | [] => false
    end in
  if continues then None
  else
    match d with
    | Nil => None
    | D0 Nil => Some (0, r)
    | D0 _ => None
    | _ => Some (Z.of_uint d, r)
    end.

Definition parse_number (l : list ascii) : option (Z * list ascii) :=
  match l with
  | c :: r =>
      if (code c =? 45)%N then
        match parse_unsigned r with
        | Some (n, r') => Some (- n, r')
        | None => None
        end
      else parse_unsigned l
  | [] => None
  end.

(** An array index as a property key: the canonical decimal of an integer
    below 2^32 - 1. *)
Definition array_index (k : string) : option N :=
  match take_digits (chars k) with
  | (d, []) =>
      match d with
      | Nil => None
      | D0 Nil => Some 0%N
      | D0 _ => None
      | _ => let n := N.of_uint d in
             if (n <? 4294967295)%N then Some n else None
      end
  | _ => None
  end.

Fixpoint replace_prop (k : string) (v : value) (props : list (string * value))
    : option (list (string * value)) :=
  match props with
  | [] => None
  | (k', v') :: rest =>
      if String.eqb k k' then Some ((k', v) :: rest)
      else match replace_prop k v rest with
           | Some rest' => Some ((k', v') :: rest')
           | None => None
           end
  end.

(** Where a new index key goes: before the first key that is not an index or
    is a larger one. *)
Fixpoint insert_index (n : N) (k : string) (v : value)
    (props : list (string * value)) : list (string * value) :=
  match props with
  | [] => [(k, v)]
  | (k', v') :: rest =>
      match array_index k' with
      | Some n' => if (n' <=? n)%N then (k', v') :: insert_index n k v rest
                   else (k, v) :: props
      | None => (k, v) :: props
      end
  end.

(** CreateDataProperty on an ordinary object: a key already there keeps its
    place and takes the new value; a new key is enumerated after the
    others, array indices first and in ascending order. *)
Definition set_prop (k : string) (v : value) (props : list (string * value))
    : list (string * value) :=
  match replace_prop k v props with
  | Some props' => props'
  | None =>
      match array_index k with
      | Some n => insert_index n k v props
      | None => props ++ [(k, v)]
      end
  end.

Definition keyword (w : string) (v : value) (l : list ascii)
    : option (value * list ascii) :=
  match strip_prefix (chars w) l with
  | Some r => Some (v, r)
  | None => None
  end.

(** The JSON grammar by recursive descent.  [fuel] bounds the nesting of
    calls; [parse] gives enough of it for the whole text. *)
Fixpoint parse_value (fuel : nat) (l : list ascii) {struct fuel}
    : option (value * list ascii) :=
  match fuel with
  | O => None
  | S f =>
      match skip_ws l with
      | [] => None
      | c :: r =>
          let n := code c in
          if (n =? 110)%N then keyword "null" Null (c :: r)
          else if (n =? 116)%N then keyword "true" (Bool true) (c :: r)
          else if (n =? 102)%N then keyword "false" (Bool false) (c :: r)
          else if (n =? 34)%N then
            match parse_string_body r with
            | Some (s, r') => Some (Str s, r')
            | None => None
            end
          else if (n =? 91)%N then
            match skip_ws r with
            | c' :: r' =>
                if (code c' =? 93)%N then Some (Arr [], r')
                else match parse_elems f r with
                     | Some (vs, r'') => Some (Arr vs, r'')
                     | None => None
                     end
            | [] => None
            end
          else if (n =? 123)%N then
            match skip_ws r with
            | c' :: r' =>
                if (code c' =? 125)%N then Some (Obj [], r')
                else match parse_members f r [] with
                     | Some (ps, r'') => Some (Obj ps, r'')
                     | None => None
                     end
            | [] => None
            end
          else
            match parse_number (c :: r) with
            | Some (z, r') => Some (Num z, r')
            | None => None
            end
      end
  end
with parse_elems (fuel : nat) (l : list ascii) {struct fuel}
    : option (list value * list ascii) :=
  match fuel with
  | O => None
  | S f =>
      match parse_value f l with
      | None => None
      | Some (v, r) =>
          match skip_ws r with
          | c :: r' =>
              if (code c =? 44)%N then
                match parse_elems f r' with
                | Some (vs, r'') => Some (v :: vs, r'')
                | None => None
                end
              else if (code c =? 93)%N then Some ([v], r')
              else None
          | [] => None
          end
      end
  end
with parse_members (fuel : nat) (l : list ascii)
    (acc : list (string * value)) {struct fuel}
    : option (list (string * value) * list ascii) :=
  match fuel with
  | O => None
  | S f =>
      match skip_ws l with
      | c :: r =>
          if (code c =? 34)%N then
            match parse_string_body r with
            | None => None
            | Some (k, r1) =>
                match skip_ws r1 with
                | c1 :: r2 =>
                    if (code c1 =? 58)%N then
                      match parse_value f r2 with
                      | None => None
                      | Some (v, r3) =>
                          let acc' := set_prop k v acc in
                          match skip_ws r3 with
                          | c3 :: r4 =>
                              if (code c3 =? 44)%N then parse_members f r4 acc'
                              else if (code c3 =? 125)%N then Some (acc', r4)
                              else None
                          | [] => None
                          end
                      end
                    else None
                | [] => None
                end
            end
          else None
      | [] => None
      end
  end.

(** [JSON.parse(s)]: [None] when it throws, and also on a text that holds
    a number with a fraction or an exponent, which the model does not
    read. *)
Definition parse (s : string) : option value :=
  let l := chars s in
  match parse_value (S (List.length l)) l with
  | Some (v, r) =>
      match skip_ws r with
      | [] => Some v
      | _ :: _ => None
      end
  | None => None
  end.

(** A value as the runtime holds it: every object lists its properties in
    the order CreateDataProperty leaves them in, each key once. *)
Fixpoint norm (v : value) : value :=
  match v with
  | Arr elems => Arr (map norm elems)
  | Obj props =>
      Obj (fold_left (fun acc kv => set_prop kv.1 (norm kv.2) acc) props [])
  | _ => v
  end.

Definition wf (v : value) : Prop := norm v = v.

(** *** Notions for the proofs about [parse] and [write] *)

(** The order of enumeration of two keys: among array indices the smaller
    first, an array index before any other key. *)
Definition precedes (k1 k2 : string) : Prop :=
  match array_index k1, array_index k2 with
  | Some a, Some b => (a <= b)%N
  | Some _, None => True
  | None, Some _ => False
  | None, None => True
  end.

(** A property list in the order of enumeration, each key once. *)
Definition canonical (props : list (string * value)) : Prop :=
  NoDup (map fst props) /\ StronglySorted precedes (map fst props).

(** What may follow a number in a text: nothing, or a character that
    neither continues its digits nor opens a fraction or an exponent. *)
Definition ends_number (rest : list ascii) : Prop :=
  match rest with
  | [] => True
  | c :: _ => is_digit c = false /\ code c <> 46%N /\ code c <> 101%N /\ code c <> 69%N
  end.

(** Whitespace only. *)
Definition all_ws (l : list ascii) : Prop := Forall (fun c => is_ws c = true) l.

(** The first character of a written value: one that opens a value. *)
Definition opens_value (c : ascii) : Prop :=
  is_ws c = false /\ code c <> 93%N /\ code c <> 125%N.

(** The fuel [parse_value] needs for the text of a value. *)
Fixpoint need (v : value) : nat :=
  match v with
  | Arr elems => S (fold_right (fun e acc => S (need e + acc)) O elems)
  | Obj props => S (fold_right (fun kv acc => S (need kv.2 + acc)) O props)
  | _ => 1
  end.

(** What [write] puts between two elements or members, and a member. *)
Definition separator (inner : nat) : list ascii :=
  ","%char :: ch_newline :: spaces inner.

Definition member (inner : nat) (kv : string * value) : list ascii :=
  quote kv.1 ++ ":"%char :: ch_space :: write inner kv.2.

(** The property of a value proved by induction: preceded by whitespace and
    followed by anything that ends a number, its text parses to the value as
    the runtime holds it, and what follows is left. *)
Definition reads_back (v : value) : Prop :=
  forall indent fuel pre rest,
    all_ws pre -> ends_number rest -> (need v <= fuel)%nat ->
    parse_value fuel (pre ++ write indent v ++ rest) = Some (norm v, rest).

End Js.

(** ** shared/schema.ts *)

(** [z.enum(["pending", "processing", "completed", "failed"])] *)
Inductive Status : Type := pending | processing | completed | failed.

(** [z.enum(["quick", "standard", "deep"])] *)
Inductive AnalysisMode : Type := quick | standard | deep.

#[global] Instance Status_eq_dec : EqDecision Status.
Proof. solve_decision. Defined.
#[global] Instance AnalysisMode_eq_dec : EqDecision AnalysisMode.
Proof. solve_decision. Defined.

Definition Status_to_string (s : Status) : string :=
  match s with
  | pending => "pending"
  | processing => "processing"
  | completed => "completed"
  | failed => "failed"
  end.

Definition AnalysisMode_to_string (m : AnalysisMode) : string :=
  match m with
  | quick => "quick"
  | standard => "standard"
  | deep => "deep"
  end.

(** A timestamp.  The code stores [new Date().toISOString()], the fixed-width
    UTC rendering of the clock's reading in milliseconds, whose order as a
    string is the order of the readings; the model keeps the reading. *)
Definition Timestamp : Type := Z.

(** [analysisJobSchema].  [results] is [z.any().optional()]: [None] is
    [undefined], [Some Js.Null] is [null]. *)
Record AnalysisJob : Type := mkJob {
  id : string;
  status : Status;
  createdAt : Timestamp;
  updatedAt : Timestamp;
  repoUrl : option string;
  analysisMode : AnalysisMode;
  results : option Js.value;
}.

(** [insertAnalysisJobSchema] *)
Record InsertAnalysisJob : Type := mkInsertJob {
  ins_repoUrl : option string;
  ins_analysisMode : AnalysisMode;
}.

(** [callbackPayloadSchema]: four keys, [status] any string, [results]
    [z.any()], which also admits a body without the key. *)
Record CallbackPayload : Type := mkCallback {
  callback_secret : string;
  request_id : string;
  cb_status : string;
  cb_results : option Js.value;
}.

(** ** server/storage.ts *)
Module MemStorage.

(** [private jobs: Map<string, AnalysisJob>] *)
Abbreviation t := (gmap string AnalysisJob).

(** [constructor() { this.jobs = new Map(); }] *)
Definition empty : t := ∅.

(** [createJob].  [uuid] is the value of [randomUUID()], [now] the clock's
    reading at [new Date()].  [Map.set] replaces an entry under the same key. *)
Definition createJob (uuid : string) (now : Timestamp)
    (data : InsertAnalysisJob) (jobs : t) : AnalysisJob * t :=
  let job_id := "req-" ++ substring 0 8 uuid in
  let job := {| id := job_id;
                status := pending;
                createdAt := now;
                updatedAt := now;
                repoUrl := ins_repoUrl data;
                analysisMode := ins_analysisMode data;
                results := None |} in
  (job, <[job_id := job]> jobs).

(** [getJob] *)
Definition getJob (job_id : string) (jobs : t) : option AnalysisJob :=
  jobs !! job_id.

(** [updateJobStatus].  The third argument is the optional [results]
    parameter: [None] when the caller passes nothing or [undefined]. *)
Definition updateJobStatus (job_id : string) (st : Status)
    (res : option Js.value) (now : Timestamp) (jobs : t)
    : option AnalysisJob * t :=
  match jobs !! job_id with
  | None => (None, jobs)
  | Some job =>
      let updatedJob :=
        {| id := job.(id);
           status := st;
           createdAt := job.(createdAt);
           updatedAt := now;
           repoUrl := job.(repoUrl);
           analysisMode := job.(analysisMode);
           results := match res with
                      | Some r => Some r
                      | None => job.(results)
                      end |} in
      (Some updatedJob, <[job_id := updatedJob]> jobs)
  end.

End MemStorage.

(** ** Outcomes of code that can throw

    [Exn] is a thrown value as the code reads it: an error object with the
    HTTP status the provider's client attaches to it, if any, and its
    message; or [undefined]. *)
Inductive Exn : Type :=
| ErrorObj (status : option Z) (message : string)
| Undefined.

Definition err_status (e : Exn) : option Z :=
  match e with
  | ErrorObj st _ => st
  | Undefined => None
  end.

Inductive Result (A : Type) : Type :=
| Ok (a : A)
| Throw (e : Exn).
Arguments Ok {A} a.
Arguments Throw {A} e.

(** ** Text helpers of the runtime *)
Module Text.
Local Open Scope list_scope.

(** WhiteSpace and LineTerminator code units: what [trim] removes and [\s]
    matches. *)
Definition is_space (c : ascii) : bool :=
  let n := Js.code c in
  ((9 <=? n)%N && (n <=? 13)%N) || (n =? 32)%N || (n =? 160)%N.

(** [\w] *)
Definition is_word (c : ascii) : bool :=
  let n := Js.code c in
  ((48 <=? n)%N && (n <=? 57)%N) || ((65 <=? n)%N && (n <=? 90)%N)
  || ((97 <=? n)%N && (n <=? 122)%N) || (n =? 95)%N.

(** What [.] does not match. *)
Definition is_line_terminator (c : ascii) : bool :=
  (Js.code c =? 10)%N || (Js.code c =? 13)%N.

Fixpoint drop_while (p : ascii -> bool) (l : list ascii) : list ascii :=
  match l with
  | c :: r => if p c then drop_while p r else l
  | [] => []
  end.

Fixpoint take_while (p : ascii -> bool) (l : list ascii) : list ascii :=
  match l with
  | c :: r => if p c then c :: take_while p r else []
  | [] => []
  end.

Definition trim_chars (l : list ascii) : list ascii :=
  rev (drop_while is_space (rev (drop_while is_space l))).

(** [s.trim()] *)
Definition trim (s : string) : string := Js.text (trim_chars (Js.chars s)).

Definition starts_with_chars (p l : list ascii) : bool :=
  match Js.strip_prefix p l with Some _ => true | None => false end.

(** [s.startsWith(p)] *)
Definition startsWith (p s : string) : bool :=
  starts_with_chars (Js.chars p) (Js.chars s).

Fixpoint includes_chars (needle hay : list ascii) : bool :=
  starts_with_chars needle hay ||
  match hay with
  | _ :: r => includes_chars needle r
  | [] => false
  end.

(** [s.includes(needle)] *)
Definition includes (needle s : string) : bool :=
  includes_chars (Js.chars needle) (Js.chars s).

(** [s.split('\n')] *)
Fixpoint split_lines_chars (l : list ascii) : list (list ascii) :=
  match l with
  | [] => [[]]
  | c :: r =>
      if (Js.code c =? 10)%N then [] :: split_lines_chars r
      else match split_lines_chars r with
           | cur :: rest => (c :: cur) :: rest
           | [] => [[c]]
           end
  end.

Definition lower_char (c : ascii) : ascii :=
  let n := Js.code c in
  if ((65 <=? n)%N && (n <=? 90)%N)
     || ((192 <=? n)%N && (n <=? 222)%N && negb (n =? 215)%N)
  then ascii_of_N (n + 32) else c.

(** [s.toLowerCase()] *)
Definition toLowerCase (s : string) : string :=
  Js.text (map lower_char (Js.chars s)).

(** [s.replace(/TAG\n?/g, '')] for a literal [TAG] that is not empty: every
    occurrence of it, scanning from the left, goes with the newline after
    it.  [fuel] bounds the scan. *)
Fixpoint remove_all (tag : list ascii) (fuel : nat) (l : list ascii)
    : list ascii :=
  match fuel with
  | O => l
  | S f =>
      match Js.strip_prefix tag l with
      | Some r =>
          match r with
          | c :: r' => if (Js.code c =? 10)%N then remove_all tag f r'
                       else remove_all tag f r
          | [] => []
          end
      | None =>
          match l with
          | c :: r => c :: remove_all tag f r
          | [] => []
          end
      end
  end.

Definition fence : list ascii := ["`"%char; "`"%char; "`"%char].

(** [responseText.replace(/```json\n?/g, '').replace(/```\n?/g, '').trim()] *)
Definition clean_json_response (responseText : string) : string :=
  let l := Js.chars responseText in
  let l1 := remove_all (fence ++ Js.chars "json") (S (List.length l)) l in
  let l2 := remove_all fence (S (List.length l1)) l1 in
  Js.text (trim_chars l2).

(** [s.replace(/^```[\w]*\n?/g, '')]: anchored at the start. *)
Definition strip_opening_fence (l : list ascii) : list ascii :=
  match Js.strip_prefix fence l with
  | Some r =>
      match drop_while is_word r with
      | c :: r' => if (Js.code c =? 10)%N then r' else c :: r'
      | [] => []
      end
  | None => l
  end.

(** [s.replace(/\n?```$/g, '')]: anchored at the end. *)
Definition strip_closing_fence (l : list ascii) : list ascii :=
  match Js.strip_prefix fence (rev l) with
  | Some r =>
      match r with
      | c :: r' => if (Js.code c =? 10)%N then rev r' else rev r
      | [] => []
      end
  | None => l
  end.

(** [refactoredCode.replace(/^```[\w]*\n?/g, '').replace(/\n?```$/g, '').trim()] *)
Definition clean_code_response (refactoredCode : string) : string :=
  Js.text (trim_chars (strip_closing_fence (strip_opening_fence (Js.chars refactoredCode)))).

(** [path.extname(name)] for an entry name, which holds no separator: from
    its last dot on, unless that dot opens the name. *)
Fixpoint ext_from (l : list ascii) : option (list ascii) :=
  match l with
  | [] => None
  | c :: r =>
      match ext_from r with
      | Some e => Some e
      | None => if (Js.code c =? 46)%N then Some l else None
      end
  end.

Definition extname (name : string) : string :=
  match Js.chars name with
  | [] => EmptyString
  | c :: r =>
      match ext_from r with
      | Some e => Js.text e
      | None => EmptyString
      end
  end.

(** [path.join(dir, name)] for a directory path and an entry name. *)
Definition join_path (dir name : string) : string :=
  (dir ++ "/" ++ name)%string.

(** [path.relative(baseDir, file)] for a file found below [baseDir]. *)
Definition relative (baseDir file : string) : string :=
  match Js.strip_prefix (Js.chars (baseDir ++ "/")%string) (Js.chars file) with
  | Some r => Js.text r
  | None => file
  end.

(** ToString of a value in a template literal.  An array is the join of its
    elements with commas, [null] giving the empty string; an object is
    ["[object Object]"], and a TypeError ([None]) when an own [toString]
    property hides the inherited method. *)
Fixpoint to_string (v : Js.value) : option string :=
  match v with
  | Js.Null => Some "null"%string
  | Js.Bool true => Some "true"%string
  | Js.Bool false => Some "false"%string
  | Js.Num n => Some (Js.text (Js.write_number n))
  | Js.Str s => Some s
  | Js.Arr elems =>
      (fix go (l : list Js.value) : option string :=
         match l with
         | [] => Some EmptyString
         | e :: rest =>
             let here := match e with
                         | Js.Null => Some EmptyString
                         | _ => to_string e
                         end in
             match here with
             | None => None
             | Some a =>
                 match rest with
                 | [] => Some a
                 | _ :: _ =>
                     match go rest with
                     | Some b => Some (a ++ "," ++ b)%string
                     | None => None
                     end
                 end
             end
         end) elems
  | Js.Obj props =>
      match Js.lookup "toString" props with
      | Some _ => None
      | None => Some "[object Object]"%string
      end
  end.

(** ToString of a value that may be [undefined]. *)
Definition to_string_opt (o : option Js.value) : option string :=
  match o with
  | None => Some "undefined"%string
  | Some v => to_string v
  end.

End Text.

(** ** server/analyzer.ts: what its two versions share *)
Module Analyzer.

(** [severity: "critical" | "major" | "minor"] *)
Inductive Severity : Type := critical | major | minor.

#[global] Instance Severity_eq_dec : EqDecision Severity.
Proof. solve_decision. Defined.

Definition Severity_to_string (s : Severity) : string :=
  match s with
  | critical => "critical"
  | major => "major"
  | minor => "minor"
  end.

(** [interface Issue].  [line], [message], [rule] and [suggestion] hold what
    the code puts there, which it takes from untyped replies. *)
Module Issue.
Record t : Type := mk {
  severity : Severity;
  file : string;
  line : Js.value;
  message : Js.value;
  rule : Js.value;
  suggestion : option Js.value;
}.

(** The object as the store and [JSON.stringify] see it. *)
Definition to_js (i : t) : Js.value :=
  Js.Obj
    ([("severity", Js.Str (Severity_to_string i.(severity)));
      ("file", Js.Str i.(file));
      ("line", i.(line));
      ("message", i.(message));
      ("rule", i.(rule))]
     ++ match i.(suggestion) with
        | Some sg => [("suggestion", sg)]
        | None => []
        end)%list.

(** The untyped fields hold values as the runtime holds them. *)
Definition wf (i : t) : Prop :=
  Js.wf i.(line) /\ Js.wf i.(message) /\ Js.wf i.(rule)
  /\ match i.(suggestion) with
     | Some sg => Js.wf sg
     | None => True
     end.
End Issue.

(** [interface RefactoredFile] *)
Module RefactoredFile.
Record t : Type := mk {
  file : string;
  original : string;
  refactored : string;
}.

Definition to_js (f : t) : Js.value :=
  Js.Obj [("file", Js.Str f.(file));
          ("original", Js.Str f.(original));
          ("refactored", Js.Str f.(refactored))].
End RefactoredFile.

(** An element of [patches]. *)
Module Patch.
Record t : Type := mk {
  file : string;
  original : string;
  corrected : string;
}.

Definition to_js (p : t) : Js.value :=
  Js.Obj [("file", Js.Str p.(file));
          ("original", Js.Str p.(original));
          ("corrected", Js.Str p.(corrected))].
End Patch.

(** [summary.issues_count] *)
Module IssuesCount.
Record t : Type := mk {
  critical : nat;
  major : nat;
  minor : nat;
}.

Definition to_js (c : t) : Js.value :=
  Js.Obj [("critical", Js.Num (Z.of_nat c.(critical)));
          ("major", Js.Num (Z.of_nat c.(major)));
          ("minor", Js.Num (Z.of_nat c.(minor)))].
End IssuesCount.

(** [summary] *)
Module Summary.
Record t : Type := mk {
  languages : list string;
  total_files_analyzed : nat;
  issues_count : IssuesCount.t;
}.

Definition to_js (sm : t) : Js.value :=
  Js.Obj [("languages", Js.Arr (map Js.Str sm.(languages)));
          ("total_files_analyzed", Js.Num (Z.of_nat sm.(total_files_analyzed)));
          ("issues_count", IssuesCount.to_js sm.(issues_count))].
End Summary.

(** [interface AnalysisResult] *)
Module AnalysisResult.
Record t : Type := mk {
  request_id : string;
  status : string;
  summary : Summary.t;
  issues : list Issue.t;
  patches : list Patch.t;
  refactoredFiles : list RefactoredFile.t;
}.

Definition to_js (r : t) : Js.value :=
  Js.Obj [("request_id", Js.Str r.(request_id));
          ("status", Js.Str r.(status));
          ("summary", Summary.to_js r.(summary));
          ("issues", Js.Arr (map Issue.to_js r.(issues)));
          ("patches", Js.Arr (map Patch.to_js r.(patches)));
          ("refactoredFiles",
           Js.Arr (map RefactoredFile.to_js r.(refactoredFiles)))].
End AnalysisResult.

(** *** The outside world *)

(** What the code reads of a [generateContent] response: the [text]
    accessor and [candidates[0]?.content?.parts?.[0]?.text]. *)
Record GenerateContentResponse : Type := mkGenResponse {
  text : option string;
  part_text : option string;
}.

(** A directory entry of the workspace.  The entries of a directory are
    [None] when [readdir] on it throws; [Other] is an entry that is
    neither a directory nor a file. *)
#[warnings="-register-all"]
Inductive Dirent : Type :=
| File (name : string)
| Directory (name : string) (entries : option (list Dirent))
| Other (name : string).

Definition entry_name (e : Dirent) : string :=
  match e with
  | File n => n
  | Directory n _ => n
  | Other n => n
  end.

(** How a call of the provider ends: with a response, or with an error
    object that carries an HTTP status or none. *)
Inductive ProviderOutcome : Type :=
| Responds (response : GenerateContentResponse)
| Fails (status : option Z) (message : string).

Definition provider_result (o : ProviderOutcome)
    : Result GenerateContentResponse :=
  match o with
  | Responds response => Ok response
  | Fails st msg => Throw (ErrorObj st msg)
  end.

(** What the analysis asks of its environment.  [generateContent n] is the
    outcome of the provider call made after [n] earlier ones; the other
    fields give the outcome of the named operation on its argument.
    [git_clone], [exec_pylint] and [exec_pyflakes] stand for command lines
    run through a shell with the URL or the file name put between double
    quotes: they are taken to run the program they name on that argument,
    so a URL or a file name that the shell expands into something else is
    outside the model. *)
Record Env : Type := mkEnv {
  GEMINI_API_KEY : option string;
  generateContent : nat -> ProviderOutcome;
  mkdtemp : Result string;
  extractAllTo : string -> Result (list Dirent);
  git_clone : string -> Result (list Dirent);
  readFile : string -> Result string;
  exec_pylint : string -> Result (string * string);
  exec_pyflakes : string -> Result (string * string);
  rm_ok : string -> bool;
}.

(** What the analysis changes: the number of provider calls made, the
    delays waited in order, and the directories it has materialised. *)
Record World : Type := mkWorld {
  calls : nat;
  sleeps : list Z;
  fs : gmap string (list Dirent);
}.

Definition World0 : World := {| calls := 0; sleeps := []; fs := ∅ |}.

(** *** Computations that change the world and may throw *)

Definition M (A : Type) : Type := World -> Result A * World.

Definition ret {A} (a : A) : M A := fun w => (Ok a, w).

Definition bind {A B} (c : M A) (k : A -> M B) : M B :=
  fun w => match c w with
           | (Ok a, w') => k a w'
           | (Throw e, w') => (Throw e, w')
           end.

Definition throw {A} (e : Exn) : M A := fun w => (Throw e, w).

(** [try { c } catch (e) { h e }] *)
Definition try_catch {A} (c : M A) (h : Exn -> M A) : M A :=
  fun w => match c w with
           | (Ok a, w') => (Ok a, w')
           | (Throw e, w') => h e w'
           end.

(** [try { c } finally { f }] for an [f] that does not throw. *)
Definition finally {A} (c : M A) (f : World -> World) : M A :=
  fun w => let '(r, w') := c w in (r, f w').

Definition lift {A} (r : Result A) : M A := fun w => (r, w).

Notation "'let*' x := c 'in' k" := (bind c (fun x => k))
  (at level 10, x name, c at level 100, k at level 200, only parsing).


(** [await new Promise(resolve => setTimeout(resolve, delay))] *)
Definition sleep (delay : Z) : M unit :=
  fun w => (Ok tt, {| calls := w.(calls);
                      sleeps := w.(sleeps) ++ [delay];
                      fs := w.(fs) |}).

Section env.
Variable env : Env.

(** [await ai.models.generateContent({...})] *)
Definition call_generateContent : M GenerateContentResponse :=
  fun w => (provider_result (env.(generateContent) w.(calls)),
            {| calls := S w.(calls); sleeps := w.(sleeps); fs := w.(fs) |}).

Definition write_dir (dir : string) (entries : list Dirent) : M unit :=
  fun w => (Ok tt, {| calls := w.(calls);
                      sleeps := w.(sleeps);
                      fs := <[dir := entries]> w.(fs) |}).

(** [fs.mkdtemp(path.join(os.tmpdir(), "code-analysis-"))]: a new empty
    directory. *)
Definition make_temp_dir : M string :=
  match env.(mkdtemp) with
  | Ok tempDir => let* made := write_dir tempDir [] in ret tempDir
  | Throw e => throw e
  end.

(** [extractZip]: any failure becomes the one error. *)
Definition extractZip (zipBuffer destDir : string) : M unit :=
  match env.(extractAllTo) zipBuffer with
  | Ok entries => write_dir destDir entries
  | Throw _ => throw (ErrorObj None "Failed to extract ZIP file")
  end.

(** [cloneRepo] *)
Definition cloneRepo (repoUrl destDir : string) : M unit :=
  match env.(git_clone) repoUrl with
  | Ok entries => write_dir destDir entries
  | Throw _ => throw (ErrorObj None "Failed to clone repository")
  end.

(** The test that makes [walk] pass over an entry. *)
Definition skipped (name : string) : bool :=
  Text.startsWith "." name || String.eqb name "node_modules"
  || String.eqb name "__pycache__" || String.eqb name "venv"
  || String.eqb name ".git".

Definition has_extension (extensions : list string) (name : string) : bool :=
  existsb (String.eqb (Text.toLowerCase (Text.extname name))) extensions.

(** One turn of the loop of [walk] on [entry] of [currentDir]. *)
Fixpoint walk_entry (extensions : list string) (currentDir : string)
    (entry : Dirent) {struct entry} : list string :=
  let fullPath := Text.join_path currentDir (entry_name entry) in
  if skipped (entry_name entry) then []
  else
    match entry with
    | Directory _ (Some entries) =>
        flat_map (walk_entry extensions fullPath) entries
    | Directory _ None => []
    | File name => if has_extension extensions name then [fullPath] else []
    | Other _ => []
    end.

(** The files [walk(dir)] pushes: none when [readdir(dir)] throws. *)
Definition walk (extensions : list string) (dir : string)
    (disk : gmap string (list Dirent)) : list string :=
  match disk !! dir with
  | Some entries => flat_map (walk_entry extensions dir) entries
  | None => []
  end.

(** [findFiles] *)
Definition findFiles (dir : string) (extensions : list string)
    : M (list string) :=
  fun w => (Ok (walk extensions dir w.(fs)), w).

(** [fs.rm(tempDir, { recursive: true, force: true })] inside its own
    [try]: the directory goes unless the removal fails. *)
Definition cleanup (tempDir : string) (w : World) : World :=
  if env.(rm_ok) tempDir then
    {| calls := w.(calls); sleeps := w.(sleeps); fs := delete tempDir w.(fs) |}
  else w.

(** The text of a response: [response.text] if it is not empty, else the
    text of the first part of the first candidate if it is not empty. *)
Definition response_text (response : GenerateContentResponse)
    : option string :=
  match response.(text) with
  | Some t => if String.eqb t "" then
                match response.(part_text) with
                | Some t' => if String.eqb t' "" then None else Some t'
                | None => None
                end
              else Some t
  | None =>
      match response.(part_text) with
      | Some t' => if String.eqb t' "" then None else Some t'
      | None => None
      end
  end.

Definition or_else (o : option Js.value) (d : Js.value) : Js.value :=
  if Js.truthy o then default d o else d.

(** The callback of [parsedIssues.map(...)] in [analyzeFileWithGemini]. *)
Definition gemini_issue (relativePath language : string) (issue : Js.value)
    : Issue.t :=
  let sev := Js.get "severity" issue in
  {| Issue.severity :=
       if Js.is_str "critical" sev then critical
       else if Js.is_str "major" sev then major
       else minor;
     Issue.file := relativePath;
     Issue.line := match Js.get "line" issue with
                   | Some (Js.Num n) => Js.Num n
                   | _ => Js.Num 1
                   end;
     Issue.message := or_else (Js.get "message" issue) (Js.Str "Unknown issue");
     Issue.rule := or_else (Js.get "rule" issue)
                     (Js.Str (language ++ "/gemini-detected"));
     Issue.suggestion := Some (or_else (Js.get "suggestion" issue) (Js.Str "")) |}.

Definition is_null (v : Js.value) : bool :=
  match v with Js.Null => true | _ => false end.

(** The inner [try] of [analyzeFileWithGemini]: the issues of a cleaned
    reply, none when it does not parse, is not an array, or holds a [null]
    (on which the property read throws). *)
Definition parse_issues (cleanedResponse relativePath language : string)
    : list Issue.t :=
  match Js.parse cleanedResponse with
  | Some (Js.Arr parsedIssues) =>
      if existsb is_null parsedIssues then []
      else map (gemini_issue relativePath language) parsedIssues
  | _ => []
  end.

(** What [analyzeFileWithGemini] does with the response it got. *)
Definition issues_of_response (response : GenerateContentResponse)
    (relativePath language : string) : list Issue.t :=
  match response_text response with
  | None => []
  | Some responseText =>
      parse_issues (Text.clean_json_response responseText)
        relativePath language
  end.

(** What [refactorFileWithGemini] does with the response it got. *)
Definition code_of_response (response : GenerateContentResponse)
    (fileContent : string) : string :=
  match response_text response with
  | None => fileContent
  | Some refactoredCode => Text.clean_code_response refactoredCode
  end.

(** A line of the summary [refactorFileWithGemini] writes of a file's
    issues, [`- Line ${i.line}: ${i.message} (${i.severity})`]: [None] when
    the template literal throws. *)
Definition summary_line (i : Issue.t) : option string :=
  match Text.to_string i.(Issue.line), Text.to_string i.(Issue.message) with
  | Some l, Some m =>
      Some ("- Line " ++ l ++ ": " ++ m ++ " ("
            ++ Severity_to_string i.(Issue.severity) ++ ")")
  | _, _ => None
  end.

(** [fileIssues.map(...)]: the lines in order, [None] when one throws. *)
Fixpoint summary_lines (fileIssues : list Issue.t) : option (list string) :=
  match fileIssues with
  | [] => Some []
  | i :: rest =>
      match summary_line i with
      | None => None
      | Some line =>
          match summary_lines rest with
          | Some lines => Some (line :: lines)
          | None => None
          end
      end
  end.

(** [issuesSummary] of [refactorFileWithGemini], which both versions build
    before their [try]: the lines of the issues of the file joined by line
    breaks, [None] when a line throws. *)
Definition issuesSummary (issues : list Issue.t) (relativePath : string)
    : option string :=
  let fileIssues :=
    List.filter (fun i => String.eqb i.(Issue.file) relativePath) issues in
  match fileIssues with
  | [] => Some "No specific issues detected"
  | _ :: _ =>
      match summary_lines fileIssues with
      | Some lines =>
          Some (Js.text (Js.join [Js.ch_newline] (map Js.chars lines)))
      | None => None
      end
  end.

(** What a template literal throws on a value it cannot convert. *)
Definition conversion_error : Exn :=
  ErrorObj None "TypeError: cannot convert object to primitive value".

Section per_file.
(** The two functions the versions define differently. *)
Variable analyzeFileWithGemini : string -> string -> string -> M (list Issue.t).
Variable refactorFileWithGemini :
  string -> string -> list Issue.t -> string -> M string.

(** [analyzeFilesWithGemini] *)
Fixpoint analyzeFilesWithGemini (files : list string)
    (baseDir language : string) : M (list Issue.t) :=
  match files with
  | [] => ret []
  | file :: rest =>
      let relativePath := Text.relative baseDir file in
      let* issues := try_catch
                  (let* content := lift (env.(readFile) file) in
                   analyzeFileWithGemini content relativePath language)
                  (fun _ => ret []) in
      let* more := analyzeFilesWithGemini rest baseDir language in
      ret (issues ++ more)%list
  end.

(** [refactorFiles] *)
Fixpoint refactorFiles (files : list string) (baseDir : string)
    (issues : list Issue.t) : M (list RefactoredFile.t) :=
  match files with
  | [] => ret []
  | file :: rest =>
      let relativePath := Text.relative baseDir file in
      let* here := try_catch
                (let* content := lift (env.(readFile) file) in
                 let* refactoredContent :=
                   refactorFileWithGemini file content issues relativePath in
                 ret [{| RefactoredFile.file := relativePath;
                         RefactoredFile.original := content;
                         RefactoredFile.refactored := refactoredContent |}])
                (fun _ => ret []) in
      let* more := refactorFiles rest baseDir issues in
      ret (here ++ more)%list
  end.
End per_file.

Definition has_severity (s : Severity) (i : Issue.t) : bool :=
  bool_decide (i.(Issue.severity) = s).

(** The test of the filter of quick mode:
    [i.severity === "critical" || i.severity === "major"]. *)
Definition critical_or_major (i : Issue.t) : bool :=
  has_severity critical i || has_severity major i.

Section analyzeCode.
(** The functions [analyzeCode] calls, which the versions define
    differently. *)
Variable analyzePythonFiles : list string -> string -> M (list Issue.t).
Variable analyzeJavaScriptFiles : list string -> string -> M (list Issue.t).
Variable analyzeTypeScriptFiles : list string -> string -> M (list Issue.t).
Variable refactorFiles' :
  list string -> string -> list Issue.t -> M (list RefactoredFile.t).

Definition when_nonempty (files : list string)
    (analyze : list string -> string -> M (list Issue.t))
    (tempDir : string) : M (list Issue.t) :=
  match files with
  | [] => ret []
  | _ :: _ => analyze files tempDir
  end.

(** The head of the [try] block of [analyzeCode]: the archive if there is
    one, else the repository if its URL is not empty, else an error. *)
Definition prepare (zipBuffer repoUrl : option string) (tempDir : string)
    : M unit :=
  match zipBuffer, repoUrl with
  | Some zip, _ => extractZip zip tempDir
  | None, Some url =>
      if String.eqb url "" then
        throw (ErrorObj None "No code provided for analysis")
      else cloneRepo url tempDir
  | None, None => throw (ErrorObj None "No code provided for analysis")
  end.

(** The rest of the [try] block of [analyzeCode]. *)
Definition analyzeCode_body (requestId : string)
    (zipBuffer repoUrl : option string) (analysisMode tempDir : string)
    : M AnalysisResult.t :=
  let* prepared := prepare zipBuffer repoUrl tempDir in
  let* pythonFiles := findFiles tempDir [".py"] in
  let* jsFiles := findFiles tempDir [".js"; ".jsx"; ".mjs"] in
  let* tsFiles := findFiles tempDir [".ts"; ".tsx"] in
  let languages :=
    ((if bool_decide (pythonFiles = []) then [] else ["python"])
     ++ (if bool_decide (jsFiles = []) then [] else ["javascript"])
     ++ (if bool_decide (tsFiles = []) then [] else ["typescript"]))%list in
  let* pythonIssues := when_nonempty pythonFiles analyzePythonFiles tempDir in
  let* jsIssues := when_nonempty jsFiles analyzeJavaScriptFiles tempDir in
  let* tsIssues := when_nonempty tsFiles analyzeTypeScriptFiles tempDir in
  let collected := (pythonIssues ++ jsIssues ++ tsIssues)%list in
  let allIssues :=
    if String.eqb analysisMode "quick" then
      List.filter critical_or_major collected
    else collected in
  let issuesCount :=
    {| IssuesCount.critical := length (List.filter (has_severity critical) allIssues);
       IssuesCount.major := length (List.filter (has_severity major) allIssues);
       IssuesCount.minor := length (List.filter (has_severity minor) allIssues) |} in
  let allFiles := (pythonFiles ++ jsFiles ++ tsFiles)%list in
  let* refactoredFiles := refactorFiles' allFiles tempDir allIssues in
  ret {| AnalysisResult.request_id := requestId;
         AnalysisResult.status := "completed";
         AnalysisResult.summary :=
           {| Summary.languages := languages;
              Summary.total_files_analyzed :=
                (length pythonFiles + length jsFiles + length tsFiles)%nat;
              Summary.issues_count := issuesCount |};
         AnalysisResult.issues := allIssues;
         AnalysisResult.patches := [];
         AnalysisResult.refactoredFiles := refactoredFiles |}.

(** [analyzeCode] *)
Definition analyzeCode (requestId : string)
    (zipBuffer repoUrl : option string) (analysisMode : string)
    : M AnalysisResult.t :=
  let* tempDir := make_temp_dir in
  finally (analyzeCode_body requestId zipBuffer repoUrl analysisMode tempDir)
    (cleanup tempDir).
End analyzeCode.
End env.

(** [generateJSON]: [JSON.stringify(result, null, 2)], on the result as the
    runtime passes it. *)
Definition generateJSON (result : Js.value) : string := Js.stringify result.

End Analyzer.

(** ** src/server/analyzer.ts: one provider call per file *)
Module ServerAnalyzer.
Import Analyzer.

Section env.
Variable env : Env.

(** [analyzeFileWithGemini]: the provider is called once; whatever it
    throws ends in the outer [catch] and the file has no issues. *)
Definition analyzeFileWithGemini (fileContent relativePath language : string)
    : M (list Issue.t) :=
  try_catch
    (let* response := call_generateContent env in
     ret (issues_of_response response relativePath language))
    (fun _ => ret []).

Definition analyzePythonFiles (files : list string) (baseDir : string)
    : M (list Issue.t) :=
  analyzeFilesWithGemini env analyzeFileWithGemini files baseDir "python".

Definition analyzeJavaScriptFiles (files : list string) (baseDir : string)
    : M (list Issue.t) :=
  analyzeFilesWithGemini env analyzeFileWithGemini files baseDir "javascript".

Definition analyzeTypeScriptFiles (files : list string) (baseDir : string)
    : M (list Issue.t) :=
  analyzeFilesWithGemini env analyzeFileWithGemini files baseDir "typescript".

(** [refactorFileWithGemini]: the summary of the file's issues is written
    first, outside the [try], so what it throws leaves the function; then
    the provider is called once, and whatever that throws ends in the
    [catch] and the file's content is returned.  The prompt goes to the
    provider, whose outcome the environment gives. *)
Definition refactorFileWithGemini (filePath fileContent : string)
    (issues : list Issue.t) (relativePath : string) : M string :=
  match issuesSummary issues relativePath with
  | None => throw conversion_error
  | Some summary =>
      try_catch
        (let* response := call_generateContent env in
         ret (code_of_response response fileContent))
        (fun _ => ret fileContent)
  end.

Definition refactorFiles :=
  Analyzer.refactorFiles env refactorFileWithGemini.

Definition analyzeCode :=
  Analyzer.analyzeCode env analyzePythonFiles analyzeJavaScriptFiles
    analyzeTypeScriptFiles refactorFiles.
End env.

End ServerAnalyzer.

(** ** The analyzer with the retry helper and the local Python linters *)
Module FallbackAnalyzer.
Import Analyzer.

(** [retryWithBackoff]: the loop from turn [i], with [n] turns left.  On a
    caught error with status 429 before the last turn it waits
    [baseDelay * 2^i] and goes on; any other caught error is thrown again. *)
Fixpoint retry_loop {A} (fn : M A) (maxRetries baseDelay : Z)
    (n : nat) (i : Z) (lastError : Exn) : M A :=
  match n with
  | O => throw lastError
  | S n' =>
      try_catch fn
        (fun error =>
           match error with
           | Undefined =>
               throw (ErrorObj None "TypeError: cannot read properties of undefined")
           | ErrorObj st _ =>
               if bool_decide (st = Some 429%Z) && (i <? maxRetries - 1)%Z then
                 let* woken := sleep (baseDelay * 2 ^ i)%Z in
                 retry_loop fn maxRetries baseDelay n' (i + 1)%Z error
               else throw error
           end)
  end.

Definition retryWithBackoff {A} (fn : M A) (maxRetries baseDelay : Z) : M A :=
  retry_loop fn maxRetries baseDelay (Z.to_nat maxRetries) 0 Undefined.

(** The defaults of [retryWithBackoff]'s parameters. *)
Definition default_maxRetries : Z := 3.
Definition default_baseDelay : Z := 1000.

(** [/:(\d+):?\s*(.+)/] from a position on: [\s*] takes what whitespace it
    can and gives back until [.+] has a character to match. *)
Fixpoint ws_then_any (l : list ascii) : option (list ascii) :=
  match l with
  | [] => None
  | c :: r =>
      let from_here :=
        if Text.is_line_terminator c then None
        else Some (Text.take_while (fun x => negb (Text.is_line_terminator x)) l) in
      if Text.is_space c then
        match ws_then_any r with
        | Some m => Some m
        | None => from_here
        end
      else from_here
  end.

Definition colon_then (l : list ascii) : option (list ascii) :=
  match l with
  | c :: r =>
      if (Js.code c =? 58)%N then
        match ws_then_any r with
        | Some m => Some m
        | None => ws_then_any l
        end
      else ws_then_any l
  | [] => None
  end.

(** With one digit taken: more digits first, then the rest of the pattern. *)
Fixpoint after_digit (l : list ascii) : option (list ascii * list ascii) :=
  match l with
  | c :: r =>
      if Js.is_digit c then
        match after_digit r with
        | Some (ds, m) => Some (c :: ds, m)
        | None => option_map (pair []) (colon_then l)
        end
      else option_map (pair []) (colon_then l)
  | [] => None
  end.

(** [line.match(/:(\d+):?\s*(.+)/)]: the two groups of the leftmost match. *)
Fixpoint match_line (l : list ascii) : option (list ascii * list ascii) :=
  match l with
  | [] => None
  | c :: r =>
      let here :=
        if (Js.code c =? 58)%N then
          match r with
          | d :: r' =>
              if Js.is_digit d then
                match after_digit r' with
                | Some (ds, m) => Some (d :: ds, m)
                | None => None
                end
              else None
          | [] => None
          end
        else None in
      match here with
      | Some x => Some x
      | None => match_line r
      end
  end.

(** A failure of the provider with status 429. *)
Definition is_rate_limit (o : ProviderOutcome) : bool :=
  match o with
  | Fails (Some 429%Z) _ => true
  | _ => false
  end.

(** How many of the provider's outcomes from call [c] on are rate-limit
    failures in a row, counting [budget] of them at most. *)
Fixpoint rate_limited_run (outcome : nat -> ProviderOutcome) (c budget : nat)
    : nat :=
  match budget with
  | O => O
  | S b => if is_rate_limit (outcome c)
           then S (rate_limited_run outcome (S c) b) else O
  end.

(** The delays [baseDelay * 2^i] for [i] from [from] on, [j] of them. *)
Definition backoff (baseDelay : Z) (from j : nat) : list Z :=
  map (fun i => (baseDelay * 2 ^ Z.of_nat i)%Z) (seq from j).

Section env.
Variable env : Env.

(** [const ai = apiKey ? new GoogleGenAI({ apiKey }) : null] *)
Definition has_ai : bool :=
  match env.(GEMINI_API_KEY) with
  | Some k => negb (String.eqb k "")
  | None => false
  end.

(** The body of the loop over [pylintIssues]: [None] when a property read
    or a template literal throws. *)
Definition pylint_issue (relativePath : string) (issue : Js.value)
    : option Issue.t :=
  match issue with
  | Js.Null => None
  | _ =>
      let type := Js.get "type" issue in
      let severity :=
        if Js.is_str "error" type || Js.is_str "fatal" type then critical
        else if Js.is_str "warning" type then major
        else minor in
      let symbol :=
        if Js.truthy (Js.get "symbol" issue) then Js.get "symbol" issue
        else if Js.truthy (Js.get "message-id" issue)
             then Js.get "message-id" issue
             else Some (Js.Str "unknown") in
      match Text.to_string_opt symbol, Text.to_string_opt type with
      | Some sym, Some ty =>
          Some {| Issue.severity := severity;
                  Issue.file := relativePath;
                  Issue.line := or_else (Js.get "line" issue) (Js.Num 1);
                  Issue.message :=
                    or_else (Js.get "message" issue) (Js.Str "Unknown issue");
                  Issue.rule := Js.Str ("python/pylint-" ++ sym);
                  Issue.suggestion :=
                    Some (Js.Str ("Fix the " ++ ty ++ " issue")) |}
      | _, _ => None
      end
  end.

(** The loop over [pylintIssues] until it ends or throws; what it
    pushed stays. *)
Fixpoint pylint_loop (relativePath : string) (l : list Js.value)
    : list Issue.t :=
  match l with
  | [] => []
  | issue :: rest =>
      match pylint_issue relativePath issue with
      | Some i => i :: pylint_loop relativePath rest
      | None => []
      end
  end.

(** What [for (const issue of pylintIssues)] iterates over: the elements
    of an array, the characters of a string; anything else throws. *)
Definition iterate (v : Js.value) : list Js.value :=
  match v with
  | Js.Arr elems => elems
  | Js.Str s => map (fun c => Js.Str (String c EmptyString)) (Js.chars s)
  | _ => []
  end.

(** [analyzePythonWithPylint] *)
Fixpoint analyzePythonWithPylint (files : list string) (baseDir : string)
    : list Issue.t :=
  match files with
  | [] => []
  | file :: rest =>
      let relativePath := Text.relative baseDir file in
      let here :=
        match env.(exec_pylint) file with
        | Ok (stdout, _) =>
            if String.eqb (Text.trim stdout) "" then []
            else match Js.parse stdout with
                 | Some pylintIssues =>
                     pylint_loop relativePath (iterate pylintIssues)
                 | None => []
                 end
        | Throw _ => []
        end in
      (here ++ analyzePythonWithPylint rest baseDir)%list
  end.

(** The body of the loop over the lines of the pyflakes output.  The line
    number is the integer the digits spell, which is what [parseInt] gives
    for a safe integer; above that [parseInt] rounds. *)
Definition pyflakes_issue (relativePath : string) (line : list ascii)
    : list Issue.t :=
  match match_line line with
  | None => []
  | Some (ds, m) =>
      let n := Z.of_N (N.of_uint (Js.take_digits ds).1) in
      let lineNum := if (n =? 0)%Z then 1 else n in
      let message := Text.trim (Js.text m) in
      let severity :=
        if Text.includes "undefined" message || Text.includes "syntax" message
        then critical
        else if Text.includes "imported but unused" message
                || Text.includes "redefinition" message
             then major
             else minor in
      [{| Issue.severity := severity;
          Issue.file := relativePath;
          Issue.line := Js.Num lineNum;
          Issue.message := Js.Str message;
          Issue.rule := Js.Str "python/pyflakes";
          Issue.suggestion := Some (Js.Str "Review and fix the issue") |}]
  end.

(** [analyzePythonWithPyflakes] *)
Fixpoint analyzePythonWithPyflakes (files : list string) (baseDir : string)
    : list Issue.t :=
  match files with
  | [] => []
  | file :: rest =>
      let relativePath := Text.relative baseDir file in
      let here :=
        match env.(exec_pyflakes) file with
        | Ok (stdout, stderr) =>
            let output := (stdout ++ stderr)%string in
            let lines :=
              List.filter (fun l => negb (bool_decide (Text.trim_chars l = [])))
                (Text.split_lines_chars (Js.chars output)) in
            flat_map (pyflakes_issue relativePath) lines
        | Throw _ => []
        end in
      (here ++ analyzePythonWithPyflakes rest baseDir)%list
  end.

(** [analyzeFileWithGemini]: nothing without a client; else the provider
    is called through [retryWithBackoff(..., 3, 2000)]. *)
Definition analyzeFileWithGemini (fileContent relativePath language : string)
    : M (list Issue.t) :=
  if negb has_ai then ret []
  else
    try_catch
      (let* response := retryWithBackoff (call_generateContent env) 3 2000 in
       ret (issues_of_response response relativePath language))
      (fun _ => ret []).

(** The key under which [analyzePythonFiles] remembers an issue:
    [`${issue.file}:${issue.line}:${issue.message}`]. *)
Definition issue_key (i : Issue.t) : option string :=
  match Text.to_string i.(Issue.line), Text.to_string i.(Issue.message) with
  | Some l, Some m => Some (i.(Issue.file) ++ ":" ++ l ++ ":" ++ m)
  | _, _ => None
  end.

(** The loop that merges the linters' issues, each key once. *)
Fixpoint dedup (seenKeys : gset string) (candidates : list Issue.t)
    : M (list Issue.t) :=
  match candidates with
  | [] => ret []
  | issue :: rest =>
      match issue_key issue with
      | None => throw (ErrorObj None "TypeError: cannot convert object to primitive value")
      | Some key =>
          if bool_decide (key ∈ seenKeys) then dedup seenKeys rest
          else
            let* more := dedup ({[key]} ∪ seenKeys) rest in
            ret (issue :: more)
      end
  end.

(** [analyzePythonFiles]: the provider first, the linters when there is
    no client or it found nothing. *)
Definition analyzePythonFiles (files : list string) (baseDir : string)
    : M (list Issue.t) :=
  let* issues :=
    if has_ai then
      try_catch
        (analyzeFilesWithGemini env analyzeFileWithGemini files baseDir "python")
        (fun _ => ret [])
    else ret [] in
  match issues with
  | _ :: _ => ret issues
  | [] =>
      let pylintIssues := analyzePythonWithPylint files baseDir in
      let pyflakesIssues := analyzePythonWithPyflakes files baseDir in
      dedup ∅ (pylintIssues ++ pyflakesIssues)%list
  end.

Definition analyzeJavaScriptFiles (files : list string) (baseDir : string)
    : M (list Issue.t) :=
  analyzeFilesWithGemini env analyzeFileWithGemini files baseDir "javascript".

Definition analyzeTypeScriptFiles (files : list string) (baseDir : string)
    : M (list Issue.t) :=
  analyzeFilesWithGemini env analyzeFileWithGemini files baseDir "typescript".

(** [refactorFileWithGemini]: without a client the content is returned at
    once.  With one, the summary of the file's issues is written first,
    outside the [try], so what it throws leaves the function; then the
    provider is called through [retryWithBackoff(..., 3, 2000)]. *)
Definition refactorFileWithGemini (filePath fileContent : string)
    (issues : list Issue.t) (relativePath : string) : M string :=
  if negb has_ai then ret fileContent
  else
    match issuesSummary issues relativePath with
    | None => throw conversion_error
    | Some summary =>
        try_catch
          (let* response := retryWithBackoff (call_generateContent env) 3 2000 in
           ret (code_of_response response fileContent))
          (fun _ => ret fileContent)
    end.

Definition refactorFiles :=
  Analyzer.refactorFiles env refactorFileWithGemini.

Definition analyzeCode :=
  Analyzer.analyzeCode env analyzePythonFiles analyzeJavaScriptFiles
    analyzeTypeScriptFiles refactorFiles.
End env.

End FallbackAnalyzer.

(** ** The two versions side by side *)
Inductive Version : Type := server_version | fallback_version.

Definition analyzeCode_of (v : Version) :=
  match v with
  | server_version => ServerAnalyzer.analyzeCode
  | fallback_version => FallbackAnalyzer.analyzeCode
  end.

Definition refactorFiles_of (v : Version) :=
  match v with
  | server_version => ServerAnalyzer.refactorFiles
  | fallback_version => FallbackAnalyzer.refactorFiles
  end.

(** Whether [refactorFileWithGemini] has a client to call: the version of
    src/server always builds one. *)
Definition has_client (v : Version) (env : Analyzer.Env) : bool :=
  match v with
  | server_version => true
  | fallback_version => FallbackAnalyzer.has_ai env
  end.

(** The provider call of [refactorFileWithGemini] as each version makes it. *)
Definition refactor_call (v : Version) (env : Analyzer.Env)
    : Analyzer.M Analyzer.GenerateContentResponse :=
  match v with
  | server_version => Analyzer.call_generateContent env
  | fallback_version =>
      FallbackAnalyzer.retryWithBackoff (Analyzer.call_generateContent env) 3 2000
  end.

(** ** server/routes.ts *)
Module Routes.

(** The three constants read from [process.env], each [process.env.X || d]:
    an unset or empty variable gives the default. *)
Record Config : Type := mkConfig {
  N8N_WEBHOOK : string;
  CALLBACK_SECRET : string;
  EXTERNAL_BASE : string;
}.

Definition env_or (v : option string) (d : string) : string :=
  match v with
  | Some s => if String.eqb s "" then d else s
  | None => d
  end.

Definition config_of_env (n8n secret base : option string) : Config :=
  {| N8N_WEBHOOK := env_or n8n "";
     CALLBACK_SECRET := env_or secret "demo-secret";
     EXTERNAL_BASE := env_or base "" |}.

(** [req.file] as multer's memory storage leaves it. *)
Record UploadedFile : Type := mkFile {
  buffer : string;
  originalname : string;
  mimetype : string;
}.

(** The result of a zod [safeParse]. *)
Inductive SafeParse (A : Type) : Type :=
| ParseFailure
| ParseSuccess (data : A).
Arguments ParseFailure {A}.
Arguments ParseSuccess {A} data.

(** [parsed.data] of [analyzeRequestSchema]. *)
Record AnalyzeData : Type := mkAnalyzeData {
  analysis_mode : AnalysisMode;
  repo_url : option string;
}.

Section analyzeRequestSchema.
(** [z.string().url()]: zod's URL test, left to the library. *)
Variable is_url : string -> bool.

(** [analyzeRequestSchema.safeParse(req.body)] on the two text fields of the
    multipart body, each absent or a string. *)
Definition analyzeRequestSchema_safeParse
    (raw_mode raw_url : option string) : SafeParse AnalyzeData :=
  let mode :=
    match raw_mode with
    | None => Some standard
    | Some m =>
        if String.eqb m "quick" then Some quick
        else if String.eqb m "standard" then Some standard
        else if String.eqb m "deep" then Some deep
        else None
    end in
  let url :=
    match raw_url with
    | None => Some None
    | Some u => if is_url u || String.eqb u "" then Some (Some u) else None
    end in
  match mode, url with
  | Some m, Some u => ParseSuccess {| analysis_mode := m; repo_url := u |}
  | _, _ => ParseFailure
  end.
End analyzeRequestSchema.

(** [callbackPayloadSchema.safeParse(req.body)]: three string keys and
    [results], which [z.any()] lets be anything, a missing key included. *)
Definition callbackPayloadSchema_safeParse (body : option Js.value)
    : SafeParse CallbackPayload :=
  match body with
  | Some (Js.Obj props) =>
      match Js.lookup "callback_secret" props,
            Js.lookup "request_id" props,
            Js.lookup "status" props with
      | Some (Js.Str secret), Some (Js.Str rid), Some (Js.Str st) =>
          ParseSuccess {| callback_secret := secret;
                          request_id := rid;
                          cb_status := st;
                          cb_results := Js.lookup "results" props |}
      | _, _, _ => ParseFailure
      end
  | _ => ParseFailure
  end.

(** What a handler sends. *)
Inductive Body : Type :=
| BMessage (message : string)
| BInvalid (message : string)
| BRequestId (request_id : string)
| BSuccess
| BJob (job : AnalysisJob).

Record Response : Type := mkResponse {
  code : Z;
  body : Body;
}.

(** The [FormData] object of the [form-data] package that [/api/analyze]
    fills for the webhook: the fields appended to it.  The handler passes
    the object to the global [fetch] as the body of a POST; what [fetch]
    transmits for an object of this package is the runtime's doing and is
    not modelled, so a form recorded here says what the handler handed
    over, not what the webhook received. *)
Record WebhookForm : Type := mkForm {
  form_request_id : string;
  form_analysis_mode : AnalysisMode;
  form_repo_url : string;
  form_callback_url : string;
  form_callback_secret : string;
  form_code_zip : option UploadedFile;
}.

(** An in-process analysis launched by [/api/analyze] and not yet settled:
    the arguments of its [analyzeCode] call. *)
Record Task : Type := mkTask {
  task_id : string;
  task_zip : option string;
  task_repoUrl : option string;
  task_mode : AnalysisMode;
}.

(** The server: the job store, the analyses in flight, and the POSTs made
    to the webhook so far, each given by the form object passed as its
    body. *)
Record Server : Type := mkServer {
  jobs : gmap string AnalysisJob;
  running : list Task;
  webhook_posts : list WebhookForm;
}.

Definition init : Server :=
  {| jobs := MemStorage.empty; running := []; webhook_posts := [] |}.

Definition with_jobs (s : Server) (j : gmap string AnalysisJob) : Server :=
  {| jobs := j; running := s.(running); webhook_posts := s.(webhook_posts) |}.

(** The result stored for a failed analysis (routes.ts, the [catch] of the
    in-process analysis). *)
Definition failed_results (job_id : string) : Js.value :=
  Js.Obj
    [("request_id", Js.Str job_id);
     ("status", Js.Str "failed");
     ("summary",
      Js.Obj [("languages", Js.Arr []);
              ("total_files_analyzed", Js.Num 0);
              ("issues_count",
               Js.Obj [("critical", Js.Num 0);
                       ("major", Js.Num 0);
                       ("minor", Js.Num 0)])]);
     ("issues", Js.Arr []);
     ("patches", Js.Arr []);
     ("refactoredFiles", Js.Arr [])].

Section handlers.
Variable cfg : Config.

(** [app.post("/api/analyze", ...)].  [uuid] is what [randomUUID()] returns
    in [createJob]; [t_create] and [t_update] are the clock's readings in
    [createJob] and in the [updateJobStatus] that follows it. *)
Definition post_api_analyze (parsed : SafeParse AnalyzeData)
    (file : option UploadedFile) (uuid : string)
    (t_create t_update : Timestamp) (s : Server) : Response * Server :=
  match parsed with
  | ParseFailure =>
      ({| code := 400; body := BInvalid "Invalid request" |}, s)
  | ParseSuccess data =>
      let analysisMode := data.(analysis_mode) in
      let repoUrl :=
        match data.(repo_url) with
        | Some u => if (0 <? String.length u)%nat then Some u else None
        | None => None
        end in
      match file, repoUrl with
      | None, None =>
          ({| code := 400;
              body := BMessage "Either code_zip file or repo_url is required" |},
           s)
      | _, _ =>
          let '(job, jobs1) :=
            MemStorage.createJob uuid t_create
              {| ins_repoUrl := repoUrl; ins_analysisMode := analysisMode |}
              s.(jobs) in
          let '(_, jobs2) :=
            MemStorage.updateJobStatus job.(id) processing None t_update jobs1 in
          let s' :=
            if negb (String.eqb cfg.(N8N_WEBHOOK) "") then
              {| jobs := jobs2;
                 running := s.(running);
                 webhook_posts :=
                   s.(webhook_posts) ++
                   [{| form_request_id := job.(id);
                       form_analysis_mode := analysisMode;
                       form_repo_url := default "" repoUrl;
                       form_callback_url := cfg.(EXTERNAL_BASE) ++ "/api/callback";
                       form_callback_secret := cfg.(CALLBACK_SECRET);
                       form_code_zip := file |}] |}
            else
              {| jobs := jobs2;
                 running :=
                   s.(running) ++
                   [{| task_id := job.(id);
                       task_zip := buffer <$> file;
                       task_repoUrl := repoUrl;
                       task_mode := analysisMode |}];
                 webhook_posts := s.(webhook_posts) |} in
          ({| code := 200; body := BRequestId job.(id) |}, s')
      end
  end.

(** The asynchronous block of [/api/analyze] once its [analyzeCode] call has
    settled with [outcome]: the job becomes [completed] with the result, or
    [failed] with the empty result. *)
Definition settle (job_id : string) (outcome : Result Js.value)
    (now : Timestamp) (store : gmap string AnalysisJob)
    : gmap string AnalysisJob :=
  match outcome with
  | Ok analysisResult =>
      (MemStorage.updateJobStatus job_id completed (Some analysisResult)
         now store).2
  | Throw _ =>
      (MemStorage.updateJobStatus job_id failed
         (Some (failed_results job_id)) now store).2
  end.

(** [app.post("/api/callback", ...)] *)
Definition post_api_callback (parsed : SafeParse CallbackPayload)
    (now : Timestamp) (s : Server) : Response * Server :=
  match parsed with
  | ParseFailure =>
      ({| code := 400; body := BInvalid "Invalid callback payload" |}, s)
  | ParseSuccess p =>
      if negb (String.eqb p.(callback_secret) cfg.(CALLBACK_SECRET)) then
        ({| code := 401; body := BMessage "Invalid callback secret" |}, s)
      else
        match MemStorage.getJob p.(request_id) s.(jobs) with
        | None => ({| code := 404; body := BMessage "Job not found" |}, s)
        | Some job =>
            let newStatus :=
              if String.eqb p.(cb_status) "completed" then completed
              else if String.eqb p.(cb_status) "failed" then failed
              else job.(status) in
            let '(_, jobs') :=
              MemStorage.updateJobStatus p.(request_id) newStatus
                p.(cb_results) now s.(jobs) in
            ({| code := 200; body := BSuccess |}, with_jobs s jobs')
        end
  end.

(** [app.get("/api/status/:requestId", ...)] *)
Definition get_api_status (requestId : string) (s : Server) : Response :=
  match MemStorage.getJob requestId s.(jobs) with
  | None => {| code := 404; body := BMessage "Job not found" |}
  | Some job => {| code := 200; body := BJob job |}
  end.

(** The [analyzeCode] call of the asynchronous block, in the environment
    [env] the analysis meets: its result as the store will hold it, or
    what it throws. *)
Definition run_analysis (env : Analyzer.Env) (task : Task) : Result Js.value :=
  match (ServerAnalyzer.analyzeCode env task.(task_id) task.(task_zip)
           task.(task_repoUrl) (AnalysisMode_to_string task.(task_mode))
           Analyzer.World0).1 with
  | Ok analysisResult => Ok (Analyzer.AnalysisResult.to_js analysisResult)
  | Throw e => Throw e
  end.

(** What happens to the server: a request to one of the two POST
    endpoints, or the settling of the [i]-th analysis in flight. *)
Inductive Event : Type :=
| Analyze (parsed : SafeParse AnalyzeData) (file : option UploadedFile)
    (uuid : string) (t_create t_update : Timestamp)
| Callback (parsed : SafeParse CallbackPayload) (now : Timestamp)
| Settled (i : nat) (env : Analyzer.Env) (now : Timestamp).

Definition step (s : Server) (ev : Event) : Server :=
  match ev with
  | Analyze parsed file uuid t_create t_update =>
      (post_api_analyze parsed file uuid t_create t_update s).2
  | Callback parsed now => (post_api_callback parsed now s).2
  | Settled i env now =>
      match s.(running) !! i with
      | None => s
      | Some task =>
          {| jobs := settle task.(task_id) (run_analysis env task) now s.(jobs);
             running := take i s.(running) ++ drop (S i) s.(running);
             webhook_posts := s.(webhook_posts) |}
      end
  end.

Definition run (s : Server) (evs : list Event) : Server :=
  fold_left step evs s.

(** The identifier [createJob] gives a job is not in use. *)
Definition fresh (s : Server) (ev : Event) : Prop :=
  match ev with
  | Analyze _ _ uuid _ _ => s.(jobs) !! ("req-" ++ substring 0 8 uuid) = None
  | _ => True
  end.

End handlers.

(** The stage of a status in the order pending, processing, then completed
    or failed. *)
Definition stage (st : Status) : nat :=
  match st with
  | pending => 0
  | processing => 1
  | completed => 2
  | failed => 2
  end.

(** The non-empty [repo_url] of a parsed request, as the handler of
    [/api/analyze] computes it. *)
Definition supplied_url (data : AnalyzeData) : option string :=
  match data.(repo_url) with
  | Some u => if (0 <? String.length u)%nat then Some u else None
  | None => None
  end.

(** [results.summary.issues_count.critical + ... major + ... minor], when
    the three fields are there and are numbers. *)
Definition issues_count_sum (res : Js.value) : option Z :=
  match Js.get "summary" res with
  | Some sm =>
      match Js.get "issues_count" sm with
      | Some ic =>
          match Js.get "critical" ic, Js.get "major" ic, Js.get "minor" ic with
          | Some (Js.Num c), Some (Js.Num m), Some (Js.Num n) => Some (c + m + n)
          | _, _, _ => None
          end
      | None => None
      end
  | None => None
  end.

(** A stored result that is well formed and empty: [issues] and
    [refactoredFiles] are empty arrays and the three counts sum to zero. *)
Definition empty_results (res : option Js.value) : Prop :=
  exists v, res = Some v
            /\ Js.get "issues" v = Some (Js.Arr [])
            /\ Js.get "refactoredFiles" v = Some (Js.Arr [])
            /\ issues_count_sum v = Some 0.

(** Every event of [evs], met in turn from [s], gives its new job an
    identifier not in use. *)
Fixpoint all_fresh (cfg : Config) (s : Server) (evs : list Event) : Prop :=
  match evs with
  | [] => True
  | ev :: rest => fresh s ev /\ all_fresh cfg (step cfg s ev) rest
  end.

End Routes.

(** ** Concrete inputs *)
Module Example.
Import Analyzer.

Definition cfg : Routes.Config := Routes.config_of_env None None None.

Definition upload : Routes.UploadedFile :=
  {| Routes.buffer := "PK"; Routes.originalname := "code.zip";
     Routes.mimetype := "application/zip" |}.

Definition uuid : string := "123e4567-e89b-12d3-a456-426614174000".
Definition job_id : string := "req-123e4567".

(** A reply of the provider to an analysis request: three issues, the last
    with a severity outside the three. *)
Definition reply_issues : string :=
  Js.stringify
    (Js.Arr
       [Js.Obj [("severity", Js.Str "critical"); ("line", Js.Num 3);
                ("message", Js.Str "eval of user input");
                ("rule", Js.Str "python/eval")];
        Js.Obj [("severity", Js.Str "minor"); ("line", Js.Num 7);
                ("message", Js.Str "line too long")];
        Js.Obj [("severity", Js.Str "info"); ("message", Js.Str "odd")]]).

(** A workspace with a Python and a TypeScript file, and a provider that is
    rate limited once, answers, fails, then answers with code. *)
Definition env : Env :=
  {| GEMINI_API_KEY := Some "key";
     generateContent := fun n =>
       match n with
       | O => Fails (Some 429) "Too Many Requests"
       | 1%nat => Responds {| text := Some reply_issues; part_text := None |}
       | 2%nat => Fails (Some 503) "Service Unavailable"
       | _ => Responds {| text := Some "print(1)"; part_text := None |}
       end;
     mkdtemp := Ok "/tmp/code-analysis-a1b2c3";
     extractAllTo := fun _ =>
       Ok [File "app.py"; File "README.md";
           Directory "src" (Some [File "index.ts"]);
           Directory "node_modules" (Some [File "x.js"])];
     git_clone := fun _ => Throw (ErrorObj None "clone failed");
     readFile := fun path => Ok ("content of " ++ path);
     exec_pylint := fun _ => Throw (ErrorObj None "pylint: not found");
     exec_pyflakes := fun _ => Ok ("app.py:3:1 undefined name", "");
     rm_ok := fun _ => true |}.

(** The same with an archive that does not extract. *)
Definition env_bad_zip : Env :=
  {| GEMINI_API_KEY := env.(GEMINI_API_KEY);
     generateContent := env.(generateContent);
     mkdtemp := env.(mkdtemp);
     extractAllTo := fun _ => Throw (ErrorObj None "Invalid or unsupported zip format");
     git_clone := env.(git_clone);
     readFile := env.(readFile);
     exec_pylint := env.(exec_pylint);
     exec_pyflakes := env.(exec_pyflakes);
     rm_ok := env.(rm_ok) |}.

(** The same without an API key. *)
Definition env_no_key : Env :=
  {| GEMINI_API_KEY := None;
     generateContent := env.(generateContent);
     mkdtemp := env.(mkdtemp);
     extractAllTo := env.(extractAllTo);
     git_clone := env.(git_clone);
     readFile := env.(readFile);
     exec_pylint := env.(exec_pylint);
     exec_pyflakes := env.(exec_pyflakes);
     rm_ok := env.(rm_ok) |}.

(** A result with two issues and a refactored file. *)
Definition result : AnalysisResult.t :=
  {| AnalysisResult.request_id := job_id;
     AnalysisResult.status := "completed";
     AnalysisResult.summary :=
       {| Summary.languages := ["python"];
          Summary.total_files_analyzed := 1;
          Summary.issues_count :=
            {| IssuesCount.critical := 1; IssuesCount.major := 0;
               IssuesCount.minor := 1 |} |};
     AnalysisResult.issues :=
       [{| Issue.severity := critical; Issue.file := "src\app.py";
           Issue.line := Js.Num 3;
           Issue.message := Js.Str "eval of user input
(see line 3)";
           Issue.rule := Js.Str "python/eval";
           Issue.suggestion := Some (Js.Str "") |};
        {| Issue.severity := minor; Issue.file := "src\app.py";
           Issue.line := Js.Num (-1);
           Issue.message := Js.Obj [("0", Js.Null); ("text", Js.Bool true)];
           Issue.rule := Js.Arr [Js.Num 0; Js.Arr []; Js.Obj []];
           Issue.suggestion := None |}];
     AnalysisResult.patches := [];
     AnalysisResult.refactoredFiles :=
       [{| RefactoredFile.file := "src\app.py";
           RefactoredFile.original := "print(1)";
           RefactoredFile.refactored := "print(1)" |}] |}.

Definition t0 : Timestamp := 1700000000000.

(** An archive submitted in standard mode at [t0]. *)
Definition submit : Routes.Event :=
  Routes.Analyze
    (Routes.ParseSuccess {| Routes.analysis_mode := standard;
                            Routes.repo_url := None |})
    (Some upload) uuid t0 t0.

(** The server after that submission, and after its analysis has settled. *)
Definition submitted : Routes.Server := Routes.step cfg Routes.init submit.
Definition analysed : Routes.Server :=
  Routes.step cfg submitted (Routes.Settled 0 env (t0 + 4000)).

(** A callback for the job with the right secret. *)
Definition callback (st : string) (res : option Js.value) : CallbackPayload :=
  {| callback_secret := "demo-secret"; request_id := job_id;
     cb_status := st; cb_results := res |}.

End Example.

(** A computation whose issues, when it returns, are values as the runtime
    holds them. *)
Definition yields_wf (c : Analyzer.M (list Analyzer.Issue.t)) : Prop :=
  forall w l w', c w = (Ok l, w') -> Forall Analyzer.Issue.wf l.

(** ** server/routes.ts: the download endpoints *)
Module Downloads.

(** What a download handler does: it sends a status with a message, it
    sends a document as an attachment, or it starts an archive.  Starting
    an archive, it has set the headers of an attachment of type
    [application/zip] under [filename] and goes on to hand the elements of
    [refactoredFiles] to the archiver; what the client receives from there
    on, the archive or an error status, is the archiver library's doing and
    is not modelled. *)
Inductive Reply : Type :=
| Refused (code : Z) (message : string)
| Document (contentType filename body : string)
| Archiving (filename : string) (refactoredFiles : Js.value).

(** The guard the download handlers share: the job is there, it is
    [completed] and its results are truthy. *)
Definition completed_results (requestId : string) (s : Routes.Server)
    : Reply + Js.value :=
  match MemStorage.getJob requestId s.(Routes.jobs) with
  | None => inl (Refused 404 "Job not found")
  | Some job =>
      match job.(results) with
      | Some res =>
          if negb (bool_decide (job.(status) = completed))
             || negb (Js.truthy (Some res))
          then inl (Refused 400 "Analysis not completed yet")
          else inr res
      | None => inl (Refused 400 "Analysis not completed yet")
      end
  end.

(** [app.get("/api/download/:requestId/json", ...)] *)
Definition get_api_download_json (requestId : string) (s : Routes.Server)
    : Reply :=
  match completed_results requestId s with
  | inl refusal => refusal
  | inr res =>
      Document "application/json" ("analysis-" ++ requestId ++ ".json")
        (Analyzer.generateJSON res)
  end.

(** [refactoredFiles.length === 0] *)
Definition is_empty_list (refactoredFiles : Js.value) : bool :=
  match refactoredFiles with
  | Js.Arr elems => bool_decide (elems = [])
  | Js.Str str => String.eqb str ""
  | Js.Obj props =>
      match Js.lookup "length" props with
      | Some (Js.Num n) => Z.eqb n 0
      | _ => false
      end
  | _ => false
  end.

(** [app.get("/api/download/:requestId/refactored", ...)] up to the
    creation of the archiver. *)
Definition get_api_download_refactored (requestId : string) (s : Routes.Server)
    : Reply :=
  match completed_results requestId s with
  | inl refusal => refusal
  | inr res =>
      let refactoredFiles :=
        Analyzer.or_else (Js.get "refactoredFiles" res) (Js.Arr []) in
      if is_empty_list refactoredFiles then
        Refused 400 "No refactored files available"
      else
        Archiving ("refactored-code-" ++ requestId ++ ".zip") refactoredFiles
  end.

End Downloads.

(** The job [/api/analyze] leaves in the store for a request it accepts. *)
Definition accepted_job (data : Routes.AnalyzeData) (uuid : string)
    (t_create t_update : Timestamp) : AnalysisJob :=
  {| id := "req-" ++ substring 0 8 uuid;
     status := processing;
     createdAt := t_create;
     updatedAt := t_update;
     repoUrl := Routes.supplied_url data;
     analysisMode := data.(Routes.analysis_mode);
     results := None |}.

(** [analysis_mode] as a request spells it. *)
Definition mode_of_string (m : string) : option AnalysisMode :=
  if String.eqb m "quick" then Some quick
  else if String.eqb m "standard" then Some standard
  else if String.eqb m "deep" then Some deep
  else None.

(** A value whose numbers are all safe integers: the integers a double
    holds exactly, which [JSON.stringify] writes in digits and [JSON.parse]
    reads back unchanged. *)
Fixpoint safe_numbers (v : Js.value) : bool :=
  match v with
  | Js.Num n => (Z.abs n <=? 9007199254740991)%Z
  | Js.Arr elems => forallb safe_numbers elems
  | Js.Obj props => forallb (fun kv => safe_numbers kv.2) props
  | _ => true
  end.

(** ** Notions for the properties of the analysis *)

(** A computation that leaves an observation of the world as it finds it,
    whether it returns or throws. *)
Definition keeps {X A : Type} (obs : Analyzer.World -> X) (c : Analyzer.M A)
    : Prop :=
  forall w, obs (c w).2 = obs w.

(** A computation that calls the provider [n] times at most. *)
Definition calls_within (n : nat) {A : Type} (c : Analyzer.M A) : Prop :=
  forall w,
    (w.(Analyzer.calls) <= (c w).2.(Analyzer.calls) <= w.(Analyzer.calls) + n)%nat.

(** A computation that does not throw. *)
Definition returns {A : Type} (c : Analyzer.M A) : Prop :=
  forall w, exists a w', c w = (Ok a, w').

(** The provider calls a version can make for one request to it: one in
    src/server, three through [retryWithBackoff(..., 3, 2000)]. *)
Definition attempts (v : Version) : nat :=
  match v with
  | server_version => 1
  | fallback_version => 3
  end.

(** What [refactorFiles] keeps of a file: its relative path and its
    content, when the file can be read. *)
Definition read_for_refactoring (env : Analyzer.Env) (baseDir file : string)
    : option (string * string) :=
  match env.(Analyzer.readFile) file with
  | Ok content => Some (Text.relative baseDir file, content)
  | Throw _ => None
  end.

(** Whether [refactorFileWithGemini] of a version, given the issues, goes
    on for a file rather than throw at the summary of the file's issues:
    the version with the client test returns before the summary when there
    is no client. *)
Definition summary_passed (v : Version) (env : Analyzer.Env)
    (issues : list Analyzer.Issue.t) (relativePath : string) : bool :=
  match v, Analyzer.issuesSummary issues relativePath with
  | fallback_version, None => negb (FallbackAnalyzer.has_ai env)
  | _, None => false
  | _, Some _ => true
  end.

(** The file and the content of the entry [refactorFiles] pushes for a
    file: none when the file cannot be read or the refactorer throws. *)
Definition entry_for_refactoring (v : Version) (env : Analyzer.Env)
    (baseDir : string) (issues : list Analyzer.Issue.t) (file : string)
    : option (string * string) :=
  match read_for_refactoring env baseDir file with
  | Some (relativePath, content) =>
      if summary_passed v env issues relativePath
      then Some (relativePath, content) else None
  | None => None
  end.

(** The three lists of extensions [analyzeCode] looks for. *)
Definition source_extensions : list (list string) :=
  [[".py"]; [".js"; ".jsx"; ".mjs"]; [".ts"; ".tsx"]].

(** A computation that throws nothing but errors of a kind. *)
Definition throws_only {A : Type} (P : Exn -> Prop) (c : Analyzer.M A) : Prop :=
  forall w e w', c w = (Throw e, w') -> P e.

(** The error of the loop that merges the linters' issues. *)
Definition dedup_error : Exn :=
  ErrorObj None "TypeError: cannot convert object to primitive value".

(** A reply of the provider wrapped in a Markdown fence: the fence with
    its tag, a line break, the text, a line break, the fence. *)
Definition fenced (tag body : string) : string :=
  Js.text (Text.fence ++ Js.chars tag ++ Js.ch_newline :: Js.chars body
           ++ Js.ch_newline :: Text.fence)%list.

(** * Properties *)

(** ** The job store *)
Section MemStorage_facts.
Import MemStorage.

Lemma updateJobStatus_missing job_id st res now (jobs : gmap string AnalysisJob) :
  jobs !! job_id = None ->
  updateJobStatus job_id st res now jobs = (None, jobs).
Proof. intros H. unfold updateJobStatus. by rewrite H. Qed.

Lemma updateJobStatus_found job_id st res now (jobs : gmap string AnalysisJob) job :
  jobs !! job_id = Some job ->
  updateJobStatus job_id st res now jobs =
    (Some {| id := job.(id); status := st; createdAt := job.(createdAt);
             updatedAt := now; repoUrl := job.(repoUrl);
             analysisMode := job.(analysisMode);
             results := match res with Some r => Some r | None => job.(results) end |},
     <[job_id := {| id := job.(id); status := st; createdAt := job.(createdAt);
             updatedAt := now; repoUrl := job.(repoUrl);
             analysisMode := job.(analysisMode);
             results := match res with Some r => Some r | None => job.(results) end |}]> jobs).
Proof. intros H. unfold updateJobStatus. by rewrite H. Qed.

Lemma updateJobStatus_other job_id st res now (jobs : gmap string AnalysisJob) k :
  k ≠ job_id ->
  (updateJobStatus job_id st res now jobs).2 !! k = jobs !! k.
Proof.
  intros Hne. unfold updateJobStatus.
  destruct (jobs !! job_id); simpl; [|done].
  by rewrite lookup_insert_ne.
Qed.

(** An update keeps every job in the store, and changes the status of the
    one it names to the status it is given. *)
Lemma updateJobStatus_stage job_id st res now (jobs : gmap string AnalysisJob) k job :
  jobs !! k = Some job ->
  exists job', (updateJobStatus job_id st res now jobs).2 !! k = Some job'
               /\ (job'.(status) = job.(status) \/ (k = job_id /\ job'.(status) = st)).
Proof.
  intros Hk. destruct (decide (k = job_id)) as [->|Hne].
  - rewrite (updateJobStatus_found _ _ _ _ _ _ Hk). simpl.
    rewrite lookup_insert_eq. eexists; split; [done|]. right. done.
  - rewrite updateJobStatus_other by done. eauto.
Qed.
End MemStorage_facts.

(** ** POST /api/analyze *)

(** C1, as the code has it: a request is turned down with 400 before any job
    is created when it fails to parse or brings neither a file nor a
    non-empty [repo_url]; every other request, the one that brings both
    included, gets 200 and a new job, left in [processing]. *)
Theorem post_api_analyze_validation cfg parsed file uuid t_create t_update s :
  let r := Routes.post_api_analyze cfg parsed file uuid t_create t_update s in
  let new_id := "req-" ++ substring 0 8 uuid in
  match parsed with
  | Routes.ParseFailure => r.1.(Routes.code) = 400 /\ r.2 = s
  | Routes.ParseSuccess data =>
      match file, Routes.supplied_url data with
      | None, None => r.1.(Routes.code) = 400 /\ r.2 = s
      | _, _ =>
          r.1 = {| Routes.code := 200; Routes.body := Routes.BRequestId new_id |}
          /\ r.2.(Routes.jobs) !! new_id =
               Some {| id := new_id; status := processing;
                       createdAt := t_create; updatedAt := t_update;
                       repoUrl := Routes.supplied_url data;
                       analysisMode := data.(Routes.analysis_mode);
                       results := None |}
      end
  end.
Proof.
  intros r new_id. subst r. unfold Routes.post_api_analyze.
  destruct parsed as [|data]; [done|].
  fold (Routes.supplied_url data).
  assert (Hstore : forall jobs : gmap string AnalysisJob,
    let '(job, jobs1) := MemStorage.createJob uuid t_create
        {| ins_repoUrl := Routes.supplied_url data;
           ins_analysisMode := data.(Routes.analysis_mode) |} jobs in
    job.(id) = new_id /\
    (MemStorage.updateJobStatus job.(id) processing None t_update jobs1).2 !! new_id =
      Some {| id := new_id; status := processing;
              createdAt := t_create; updatedAt := t_update;
              repoUrl := Routes.supplied_url data;
              analysisMode := data.(Routes.analysis_mode);
              results := None |}).
  { intros jobs. unfold MemStorage.createJob. simpl. split; [done|].
    fold new_id.
    erewrite updateJobStatus_found by apply lookup_insert_eq.
    simpl. by rewrite lookup_insert_eq. }
  destruct file as [f|], (Routes.supplied_url data) as [u|]; try done;
    specialize (Hstore s.(Routes.jobs));
    destruct (MemStorage.createJob _ _ _ _) as [job jobs1];
    destruct Hstore as [Hid Hlook];
    destruct (MemStorage.updateJobStatus _ _ _ _ _) as [o jobs2];
    simpl in Hlook; rewrite Hid;
    destruct (negb _); simpl; done.
Qed.

(** C1, the claim as stated fails: a request with both an archive and a
    repository URL is answered 200 and its job is created. *)
Lemma post_api_analyze_accepts_file_and_url :
  let cfg := Routes.config_of_env None None None in
  let file := {| Routes.buffer := "PK"; Routes.originalname := "code.zip";
                 Routes.mimetype := "application/zip" |} in
  let parsed :=
    Routes.ParseSuccess
      {| Routes.analysis_mode := standard;
         Routes.repo_url := Some "https://github.com/octocat/Hello-World" |} in
  let r := Routes.post_api_analyze cfg parsed (Some file)
             "123e4567-e89b-12d3-a456-426614174000"
             1700000000000 1700000000000 Routes.init in
  r.1.(Routes.code) = 200
  /\ r.1.(Routes.code) <> 400
  /\ MemStorage.getJob "req-123e4567" r.2.(Routes.jobs) =
       Some {| id := "req-123e4567"; status := processing;
               createdAt := 1700000000000; updatedAt := 1700000000000;
               repoUrl := Some "https://github.com/octocat/Hello-World";
               analysisMode := standard; results := None |}
  /\ MemStorage.getJob "req-123e4567" Routes.init.(Routes.jobs) = None.
Proof. repeat split; try reflexivity. discriminate. Qed.

(** ** The status of a job over the life of the server *)

Lemma settle_stage job_id outcome now (store : gmap string AnalysisJob) k job :
  store !! k = Some job ->
  exists job', Routes.settle job_id outcome now store !! k = Some job'
               /\ (Routes.stage job.(status) <= Routes.stage job'.(status))%nat.
Proof.
  intros Hk. unfold Routes.settle.
  destruct outcome as [res|e];
    (edestruct (updateJobStatus_stage job_id) as (job' & Hl & Hst); [exact Hk|];
     exists job'; split; [exact Hl|];
     destruct Hst as [->|[_ ->]]; simpl; destruct (status job); simpl; lia).
Qed.

Lemma post_api_analyze_other cfg parsed file uuid t1 t2 s k :
  k ≠ "req-" ++ substring 0 8 uuid ->
  (Routes.post_api_analyze cfg parsed file uuid t1 t2 s).2.(Routes.jobs) !! k
  = s.(Routes.jobs) !! k.
Proof.
  intros Hne. unfold Routes.post_api_analyze.
  destruct parsed as [|data]; [done|].
  fold (Routes.supplied_url data).
  destruct file as [f|], (Routes.supplied_url data) as [u|]; try done;
    unfold MemStorage.createJob; cbv beta iota zeta;
    match goal with
    | |- context [MemStorage.updateJobStatus ?a ?b ?c ?d ?e] =>
        pose proof (updateJobStatus_other a b c d e k Hne) as Hother;
        destruct (MemStorage.updateJobStatus a b c d e) as [o jobs2]
    end;
    simpl in Hother; rewrite lookup_insert_ne in Hother by done;
    destruct (negb _); simpl; exact Hother.
Qed.

Lemma step_stage cfg s ev k job :
  Routes.fresh s ev ->
  s.(Routes.jobs) !! k = Some job ->
  exists job', (Routes.step cfg s ev).(Routes.jobs) !! k = Some job'
               /\ (Routes.stage job.(status) <= Routes.stage job'.(status))%nat.
Proof.
  intros Hfresh Hk. destruct ev as [parsed file uuid t1 t2|parsed now|i env now]; simpl.
  - (* /api/analyze: the new job has another identifier *)
    simpl in Hfresh.
    assert (Hne : k ≠ "req-" ++ substring 0 8 uuid) by congruence.
    exists job. split; [|lia].
    by rewrite post_api_analyze_other.
  - (* /api/callback *)
    unfold Routes.post_api_callback.
    destruct parsed as [|p]; simpl; [eauto with lia|].
    destruct (negb _); simpl; [eauto with lia|].
    unfold MemStorage.getJob.
    destruct (Routes.jobs s !! request_id p) as [target|] eqn:Ht; simpl; [|eauto with lia].
    match goal with
    | |- context [MemStorage.updateJobStatus ?a ?b ?c ?d ?e] =>
        destruct (updateJobStatus_stage a b c d e k job Hk) as (job' & Hl & Hst);
        destruct (MemStorage.updateJobStatus a b c d e) as [o jobs']
    end.
    simpl in *. exists job'. split; [exact Hl|].
    destruct Hst as [->|[-> ->]]; [lia|].
    assert (target = job) by congruence. subst target.
    repeat case_match; simpl; destruct (status job); simpl; lia.
  - (* an analysis settles *)
    destruct (Routes.running s !! i) as [task|]; simpl; [|eauto with lia].
    by apply settle_stage.
Qed.

(** C2, as the code has it: whatever the server does next (a request to
    [/api/analyze] whose new identifier is not in use, a request to
    [/api/callback], the settling of an analysis), a job stays in the store
    and its status is at the same or a later stage of pending, processing,
    then completed or failed.  A finished job can still pass from one of
    [completed] and [failed] to the other. *)
Theorem status_never_moves_back cfg evs s k job :
  Routes.all_fresh cfg s evs ->
  s.(Routes.jobs) !! k = Some job ->
  exists job', (Routes.run cfg s evs).(Routes.jobs) !! k = Some job'
               /\ (Routes.stage job.(status) <= Routes.stage job'.(status))%nat.
Proof.
  revert s job. induction evs as [|ev evs IH]; intros s job Hfresh Hk; simpl.
  - exists job. split; [done|lia].
  - destruct Hfresh as [Hf Hrest].
    destruct (step_stage cfg s ev k job Hf Hk) as (job1 & Hk1 & Hle1).
    destruct (IH _ job1 Hrest Hk1) as (job' & Hk' & Hle').
    exists job'. split; [exact Hk'|lia].
Qed.

Lemma status_never_moves_back_witness :
  Routes.all_fresh Example.cfg Example.submitted
    [Routes.Settled 0 Example.env (Example.t0 + 4000);
     Routes.Callback (Routes.ParseSuccess (Example.callback "failed" None))
       (Example.t0 + 5000)]
  /\ (exists job, Example.submitted.(Routes.jobs) !! Example.job_id = Some job
                  /\ job.(status) = processing)
  /\ exists job',
       (Routes.run Example.cfg Example.submitted
          [Routes.Settled 0 Example.env (Example.t0 + 4000);
           Routes.Callback (Routes.ParseSuccess (Example.callback "failed" None))
             (Example.t0 + 5000)]).(Routes.jobs) !! Example.job_id = Some job'
       /\ (Routes.stage processing <= Routes.stage job'.(status))%nat.
Proof.
  split; [simpl; done|].
  split; [eexists; split; reflexivity|].
  eapply (status_never_moves_back Example.cfg _ Example.submitted Example.job_id
            {| id := Example.job_id; status := processing;
               createdAt := Example.t0; updatedAt := Example.t0;
               repoUrl := None; analysisMode := standard; results := None |}).
  - simpl; done.
  - reflexivity.
Defined.

(** C2, the claim as stated fails: a job that the analysis has completed is
    set to [failed] by a later callback. *)
Lemma completed_job_becomes_failed :
  (status <$> Example.analysed.(Routes.jobs) !! Example.job_id) = Some completed
  /\ (status <$>
        (Routes.step Example.cfg Example.analysed
           (Routes.Callback (Routes.ParseSuccess (Example.callback "failed" None))
              (Example.t0 + 5000))).(Routes.jobs) !! Example.job_id)
     = Some failed.
Proof. split; vm_compute; reflexivity. Qed.

(** ** updatedAt *)

(** C3, as the code has it: an update sets [updatedAt] to the clock's reading
    at the update.  So [updatedAt] does not go back as long as the clock has
    not, and it grows exactly when the clock has moved past the previous
    [updatedAt]: two updates within one millisecond leave it the same. *)
Theorem updateJobStatus_updatedAt job_id st res now
    (jobs : gmap string AnalysisJob) job :
  jobs !! job_id = Some job ->
  exists job',
    (MemStorage.updateJobStatus job_id st res now jobs).1 = Some job'
    /\ (MemStorage.updateJobStatus job_id st res now jobs).2 !! job_id = Some job'
    /\ job'.(status) = st
    /\ job'.(updatedAt) = now
    /\ (job.(updatedAt) <= now -> job.(updatedAt) <= job'.(updatedAt))
    /\ (job.(updatedAt) < job'.(updatedAt) <-> job.(updatedAt) < now).
Proof.
  intros Hjob. rewrite (updateJobStatus_found _ _ _ _ _ _ Hjob). simpl.
  eexists. split; [reflexivity|]. rewrite lookup_insert_eq. simpl.
  repeat split; auto.
Qed.

Lemma updateJobStatus_updatedAt_witness :
  Example.submitted.(Routes.jobs) !! Example.job_id =
    Some {| id := Example.job_id; status := processing;
            createdAt := Example.t0; updatedAt := Example.t0;
            repoUrl := None; analysisMode := standard; results := None |}
  /\ exists job',
       (MemStorage.updateJobStatus Example.job_id completed None
          (Example.t0 + 1) Example.submitted.(Routes.jobs)).1 = Some job'
       /\ job'.(updatedAt) = Example.t0 + 1
       /\ Example.t0 < job'.(updatedAt).
Proof.
  split; [reflexivity|].
  destruct (updateJobStatus_updatedAt Example.job_id completed None
              (Example.t0 + 1) Example.submitted.(Routes.jobs) _ eq_refl)
    as (job' & H1 & _ & _ & Hnow & _ & Hlt).
  exists job'. split; [exact H1|]. split; [exact Hnow|].
  apply Hlt. simpl. unfold Example.t0. lia.
Defined.

(** C3, the claim as stated fails: [/api/analyze] creates its job and moves
    it to [processing] at once; when the clock reads the same millisecond at
    both, the status has changed and [updatedAt] has not grown. *)
Lemma updatedAt_unchanged_within_a_millisecond :
  let created :=
    MemStorage.createJob Example.uuid Example.t0
      {| ins_repoUrl := None; ins_analysisMode := standard |}
      MemStorage.empty in
  let updated :=
    MemStorage.updateJobStatus created.1.(id) processing None Example.t0
      created.2 in
  exists job',
    updated.1 = Some job'
    /\ created.1.(status) = pending
    /\ job'.(status) = processing
    /\ job'.(updatedAt) = created.1.(updatedAt)
    /\ ~ (created.1.(updatedAt) < job'.(updatedAt)).
Proof.
  simpl. eexists. split; [reflexivity|]. simpl.
  repeat split. unfold Example.t0. lia.
Qed.

(** ** The results of a failed job *)

(** C4, as the code has it: when the analysis of a job throws, the update
    that marks the job [failed] stores the well-formed empty result. *)
Theorem failed_analysis_stores_empty_results cfg s i env now task job e :
  s.(Routes.running) !! i = Some task ->
  Routes.run_analysis env task = Throw e ->
  s.(Routes.jobs) !! task.(Routes.task_id) = Some job ->
  exists job',
    (Routes.step cfg s (Routes.Settled i env now)).(Routes.jobs)
      !! task.(Routes.task_id) = Some job'
    /\ job'.(status) = failed
    /\ Routes.empty_results job'.(results).
Proof.
  intros Htask Hthrow Hjob. simpl. rewrite Htask. simpl.
  rewrite Hthrow. unfold Routes.settle.
  rewrite (updateJobStatus_found _ _ _ _ _ _ Hjob). simpl.
  rewrite lookup_insert_eq. eexists. split; [reflexivity|]. simpl.
  split; [reflexivity|].
  eexists. repeat split; reflexivity.
Qed.

Lemma failed_analysis_stores_empty_results_witness :
  Example.submitted.(Routes.running) !! 0%nat =
    Some {| Routes.task_id := Example.job_id; Routes.task_zip := Some "PK";
            Routes.task_repoUrl := None; Routes.task_mode := standard |}
  /\ Routes.run_analysis Example.env_bad_zip
       {| Routes.task_id := Example.job_id; Routes.task_zip := Some "PK";
          Routes.task_repoUrl := None; Routes.task_mode := standard |}
     = Throw (ErrorObj None "Failed to extract ZIP file")
  /\ exists job',
       (Routes.step Example.cfg Example.submitted
          (Routes.Settled 0 Example.env_bad_zip (Example.t0 + 10))).(Routes.jobs)
         !! Example.job_id = Some job'
       /\ job'.(status) = failed
       /\ Routes.empty_results job'.(results).
Proof.
  split; [reflexivity|]. split; [reflexivity|].
  exact (failed_analysis_stores_empty_results Example.cfg Example.submitted 0
           Example.env_bad_zip (Example.t0 + 10)
           {| Routes.task_id := Example.job_id; Routes.task_zip := Some "PK";
              Routes.task_repoUrl := None; Routes.task_mode := standard |}
           {| id := Example.job_id; status := processing;
              createdAt := Example.t0; updatedAt := Example.t0;
              repoUrl := None; analysisMode := standard; results := None |}
           (ErrorObj None "Failed to extract ZIP file")
           eq_refl eq_refl eq_refl).
Defined.

(** C4, the claim as stated fails: a callback that reports [failed] with
    [results: null] leaves a failed job whose results are [null]. *)
Lemma failed_job_with_null_results :
  let s' :=
    Routes.step Example.cfg Example.submitted
      (Routes.Callback
         (Routes.ParseSuccess (Example.callback "failed" (Some Js.Null)))
         (Example.t0 + 10)) in
  exists job',
    s'.(Routes.jobs) !! Example.job_id = Some job'
    /\ job'.(status) = failed
    /\ job'.(results) = Some Js.Null
    /\ ~ Routes.empty_results job'.(results).
Proof.
  simpl. eexists. split; [reflexivity|]. simpl.
  repeat split.
  intros (v & Hv & Hissues & _). injection Hv as <-. discriminate Hissues.
Qed.

(** ** POST /api/callback with another status *)

(** C10, as the code has it: a callback with the right secret for an
    existing job and a status other than ["completed"] and ["failed"] leaves
    the status as it was and sets [updatedAt] to the time of the update; the
    results become those of the payload when it has any ([null] included),
    and stay as they were when it has none. *)
Theorem callback_with_other_status cfg p now s job :
  p.(callback_secret) = cfg.(Routes.CALLBACK_SECRET) ->
  s.(Routes.jobs) !! p.(request_id) = Some job ->
  p.(cb_status) <> "completed" ->
  p.(cb_status) <> "failed" ->
  let r := Routes.post_api_callback cfg (Routes.ParseSuccess p) now s in
  r.1 = {| Routes.code := 200; Routes.body := Routes.BSuccess |}
  /\ r.2.(Routes.jobs) !! p.(request_id) =
       Some {| id := job.(id); status := job.(status);
               createdAt := job.(createdAt); updatedAt := now;
               repoUrl := job.(repoUrl); analysisMode := job.(analysisMode);
               results := match p.(cb_results) with
                          | Some res => Some res
                          | None => job.(results)
                          end |}.
Proof.
  intros Hsecret Hjob Hc Hf r. subst r. unfold Routes.post_api_callback.
  rewrite Hsecret, String.eqb_refl. simpl.
  unfold MemStorage.getJob. rewrite Hjob.
  apply String.eqb_neq in Hc, Hf. rewrite Hc, Hf.
  rewrite (updateJobStatus_found _ _ _ _ _ _ Hjob). simpl.
  split; [reflexivity|]. by rewrite lookup_insert_eq.
Qed.

Lemma callback_with_other_status_witness :
  (Example.callback "running" (Some (Js.Obj []))).(callback_secret)
    = Example.cfg.(Routes.CALLBACK_SECRET)
  /\ (exists job, Example.submitted.(Routes.jobs) !! Example.job_id = Some job)
  /\ "running" <> "completed" /\ "running" <> "failed"
  /\ (Routes.post_api_callback Example.cfg
        (Routes.ParseSuccess (Example.callback "running" (Some (Js.Obj []))))
        (Example.t0 + 7) Example.submitted).2.(Routes.jobs) !! Example.job_id
     = Some {| id := Example.job_id; status := processing;
               createdAt := Example.t0; updatedAt := Example.t0 + 7;
               repoUrl := None; analysisMode := standard;
               results := Some (Js.Obj []) |}.
Proof.
  split; [reflexivity|]. split; [eexists; reflexivity|].
  split; [discriminate|]. split; [discriminate|].
  refine (proj2 (callback_with_other_status Example.cfg
            (Example.callback "running" (Some (Js.Obj []))) (Example.t0 + 7)
            Example.submitted
            {| id := Example.job_id; status := processing;
               createdAt := Example.t0; updatedAt := Example.t0;
               repoUrl := None; analysisMode := standard; results := None |}
            eq_refl eq_refl _ _)); discriminate.
Defined.

(** C10, the claim as stated fails: a callback without [results] leaves the
    results the job had, which are not the payload's. *)
Lemma callback_without_results_keeps_results :
  let p := Example.callback "running" None in
  let r := Routes.post_api_callback Example.cfg (Routes.ParseSuccess p)
             (Example.t0 + 5000) Example.analysed in
  exists before after,
    Example.analysed.(Routes.jobs) !! Example.job_id = Some before
    /\ r.2.(Routes.jobs) !! Example.job_id = Some after
    /\ r.1.(Routes.code) = 200
    /\ after.(status) = before.(status)
    /\ after.(results) = before.(results)
    /\ after.(results) <> p.(cb_results).
Proof.
  vm_compute. eexists. eexists.
  split; [reflexivity|]. split; [reflexivity|].
  repeat split. discriminate.
Qed.

(** ** The analysis *)
Local Open Scope Z_scope.

Section analysis_facts.
Import Analyzer.

Lemma bind_Ok {A B} (c : M A) (k : A -> M B) w b w' :
  bind c k w = (Ok b, w') ->
  exists a w1, c w = (Ok a, w1) /\ k a w1 = (Ok b, w').
Proof.
  unfold bind. destruct (c w) as [[a|e] w1]; [eauto|discriminate].
Qed.


Lemma severity_partition (l : list Issue.t) :
  (length (List.filter (has_severity critical) l)
   + length (List.filter (has_severity major) l)
   + length (List.filter (has_severity minor) l))%nat = length l.
Proof.
  induction l as [|i l IH]; [reflexivity|].
  cbn [List.filter]. change (length (i :: l)) with (S (length l)).
  rewrite <- IH. clear IH.
  unfold has_severity.
  destruct (Issue.severity i); simpl; lia.
Qed.


Section generic.
Variable env : Env.
Variables aP aJ aT : list string -> string -> M (list Issue.t).
Variable rF : list string -> string -> list Issue.t -> M (list RefactoredFile.t).

(** What a run of [analyzeCode] that returns has gone through. *)
Lemma analyzeCode_Ok requestId zip url mode w r w' :
  analyzeCode env aP aJ aT rF requestId zip url mode w = (Ok r, w') ->
  exists tempDir w0 w1 py w2 js w3 ts w4,
    let pyF := walk [".py"] tempDir w1.(fs) in
    let jsF := walk [".js"; ".jsx"; ".mjs"] tempDir w1.(fs) in
    let tsF := walk [".ts"; ".tsx"] tempDir w1.(fs) in
    let allIssues :=
      if String.eqb mode "quick"
      then List.filter critical_or_major (py ++ js ++ ts) else (py ++ js ++ ts)%list in
    make_temp_dir env w = (Ok tempDir, w0)
    /\ prepare env zip url tempDir w0 = (Ok tt, w1)
    /\ when_nonempty pyF aP tempDir w1 = (Ok py, w2)
    /\ when_nonempty jsF aJ tempDir w2 = (Ok js, w3)
    /\ when_nonempty tsF aT tempDir w3 = (Ok ts, w4)
    /\ (exists rf w5, rF (pyF ++ jsF ++ tsF)%list tempDir allIssues w4 = (Ok rf, w5))
    /\ r.(AnalysisResult.issues) = allIssues
    /\ r.(AnalysisResult.summary).(Summary.issues_count) =
         {| IssuesCount.critical := length (List.filter (has_severity critical) allIssues);
            IssuesCount.major := length (List.filter (has_severity major) allIssues);
            IssuesCount.minor := length (List.filter (has_severity minor) allIssues) |}.
Proof.
  unfold analyzeCode. intros H.
  apply bind_Ok in H as (tempDir & w0 & Hmk & H).
  unfold finally in H.
  destruct (analyzeCode_body _ _ _ _ _ _ _ _ _ _ _) as [res wb] eqn:Hbody.
  injection H as Hres Hw. subst res w'.
  unfold analyzeCode_body in Hbody.
  apply bind_Ok in Hbody as ([] & w1 & Hprep & Hbody).
  apply bind_Ok in Hbody as (pyF & w1a & Hpy & Hbody).
  apply bind_Ok in Hbody as (jsF & w1b & Hjs & Hbody).
  apply bind_Ok in Hbody as (tsF & w1c & Hts & Hbody).
  unfold findFiles in Hpy, Hjs, Hts.
  injection Hpy as <- <-. injection Hjs as <- <-. injection Hts as <- <-.
  apply bind_Ok in Hbody as (py & w2 & Hpyi & Hbody).
  apply bind_Ok in Hbody as (js & w3 & Hjsi & Hbody).
  apply bind_Ok in Hbody as (ts & w4 & Htsi & Hbody).
  apply bind_Ok in Hbody as (rf & w5 & Hrf & Hbody).
  unfold ret in Hbody. injection Hbody as <- <-.
  exists tempDir, w0, w1, py, w2, js, w3, ts, w4. cbv zeta.
  repeat (split; [eassumption|]).
  split; [eauto|]. split; reflexivity.
Qed.


End generic.

(** [refactorFiles] catches whatever its steps throw. *)
Lemma refactorFiles_returns env rfw files baseDir issues w :
  exists rfs w', refactorFiles env rfw files baseDir issues w = (Ok rfs, w').
Proof.
  revert w. induction files as [|file rest IH]; intros w; simpl.
  - unfold ret. eauto.
  - unfold bind at 1. unfold try_catch.
    destruct (bind (lift (readFile env file)) _ w) as [[here|e] w1].
    + destruct (IH w1) as (more & w2 & Hmore).
      unfold bind. rewrite Hmore. unfold ret. eauto.
    + unfold ret at 1. destruct (IH w1) as (more & w2 & Hmore).
      unfold bind. rewrite Hmore. unfold ret. eauto.
Qed.

End analysis_facts.

(** C6: in the result [analyzeCode] returns, in either version of the
    analyzer, the three counts of [summary.issues_count] add up to the
    number of issues. *)
Theorem issues_count_sums_to_length v env requestId zip url mode w r w' :
  analyzeCode_of v env requestId zip url mode w = (Ok r, w') ->
  let c := r.(Analyzer.AnalysisResult.summary).(Analyzer.Summary.issues_count) in
  (c.(Analyzer.IssuesCount.critical) + c.(Analyzer.IssuesCount.major)
   + c.(Analyzer.IssuesCount.minor))%nat
  = length r.(Analyzer.AnalysisResult.issues).
Proof.
  intros H c. subst c.
  assert (Hinv := H). destruct v; apply analyzeCode_Ok in Hinv;
    destruct Hinv as (tempDir & w0 & w1 & py & w2 & js & w3 & ts & w4 & Hinv);
    cbv zeta in Hinv;
    destruct Hinv as (_ & _ & _ & _ & _ & _ & Hissues & Hcount);
    rewrite Hcount, Hissues; simpl; apply severity_partition.
Qed.


(** ** The retry helper *)
Section retry_facts.
Import Analyzer FallbackAnalyzer.

Lemma is_rate_limit_Fails st msg :
  is_rate_limit (Fails st msg) = bool_decide (st = Some 429).
Proof.
  destruct st as [z|]; [|reflexivity]. simpl.
  destruct z as [|p|p]; try reflexivity.
  case_bool_decide as E.
  - injection E as ->. reflexivity.
  - do 9 (destruct p as [p|p|]; try reflexivity). all: try (destruct p; reflexivity).
    exfalso. apply E. reflexivity.
Qed.

Lemma backoff_cons baseDelay i j :
  0 <= i ->
  backoff baseDelay (Z.to_nat i) (S j)
  = baseDelay * 2 ^ i :: backoff baseDelay (Z.to_nat (i + 1)) j.
Proof.
  intros Hi. unfold backoff. simpl. rewrite Z2Nat.id by done.
  f_equal. f_equal. f_equal. lia.
Qed.

Lemma retry_loop_S {A} (fn : M A) maxRetries baseDelay n i lastError :
  retry_loop fn maxRetries baseDelay (S n) i lastError
  = try_catch fn
      (fun error =>
         match error with
         | Undefined =>
             throw (ErrorObj None "TypeError: cannot read properties of undefined")
         | ErrorObj st _ =>
             if bool_decide (st = Some 429) && (i <? maxRetries - 1) then
               bind (sleep (baseDelay * 2 ^ i))
                 (fun _ => retry_loop fn maxRetries baseDelay n (i + 1) error)
             else throw error
         end).
Proof. reflexivity. Qed.

(** The loop of [retryWithBackoff] around the provider call: it goes through
    the rate-limit failures at the head of the provider's outcomes, as far
    as its turns allow, waiting before each new attempt, and ends with the
    outcome of the attempt after them. *)
Lemma retry_loop_provider env maxRetries baseDelay n i lastError w :
  0 <= i ->
  i + Z.of_nat (S n) = maxRetries ->
  let c := w.(calls) in
  let j := rate_limited_run env.(generateContent) c n in
  retry_loop (call_generateContent env) maxRetries baseDelay (S n) i lastError w
  = (provider_result (env.(generateContent) (c + j)),
     {| calls := S (c + j);
        sleeps := w.(sleeps) ++ backoff baseDelay (Z.to_nat i) j;
        fs := w.(fs) |}).
Proof.
  revert i lastError w. induction n as [|n IH]; intros i lastError w Hi Hm c j; subst c j.
  - simpl. unfold try_catch, call_generateContent.
    rewrite Nat.add_0_r, app_nil_r.
    destruct (generateContent env (calls w)) as [resp|st msg]; simpl; [reflexivity|].
    replace (i <? maxRetries - 1) with false by (symmetry; apply Z.ltb_ge; lia).
    rewrite andb_false_r. reflexivity.
  - rewrite retry_loop_S. unfold try_catch at 1. unfold call_generateContent at 1.
    cbn [rate_limited_run].
    destruct (generateContent env (calls w)) as [resp|st msg] eqn:Hout.
    + simpl. rewrite Nat.add_0_r, app_nil_r, Hout. reflexivity.
    + cbn [provider_result]. rewrite is_rate_limit_Fails.
      replace (i <? maxRetries - 1) with true by (symmetry; apply Z.ltb_lt; lia).
      rewrite andb_true_r.
      case_bool_decide as E.
      * unfold bind, sleep. cbn [calls sleeps fs].
        rewrite IH by (simpl; lia). cbn [calls sleeps fs].
        rewrite backoff_cons by done. rewrite <- app_assoc. simpl.
        rewrite Nat.add_succ_r. reflexivity.
      * unfold throw. rewrite Nat.add_0_r, app_nil_r, Hout. reflexivity.
Qed.
End retry_facts.

Lemma rate_limited_run_le outcome c budget :
  (FallbackAnalyzer.rate_limited_run outcome c budget <= budget)%nat.
Proof.
  revert c. induction budget as [|b IH]; intros c; simpl; [lia|].
  destruct (FallbackAnalyzer.is_rate_limit _); [specialize (IH (S c))|]; lia.
Qed.

Lemma retryWithBackoff_provider env w :
  let c := w.(Analyzer.calls) in
  let j := FallbackAnalyzer.rate_limited_run env.(Analyzer.generateContent) c 2 in
  FallbackAnalyzer.retryWithBackoff (Analyzer.call_generateContent env) 3 2000 w
  = (Analyzer.provider_result (env.(Analyzer.generateContent) (c + j)),
     {| Analyzer.calls := S (c + j);
        Analyzer.sleeps := w.(Analyzer.sleeps) ++ firstn j [2000; 4000];
        Analyzer.fs := w.(Analyzer.fs) |}).
Proof.
  intros c j. unfold FallbackAnalyzer.retryWithBackoff.
  change (Z.to_nat 3) with 3%nat.
  rewrite retry_loop_provider by (simpl; lia).
  fold c j. f_equal. f_equal. f_equal.
  pose proof (rate_limited_run_le env.(Analyzer.generateContent) c 2) as Hj.
  fold j in Hj. destruct j as [|[|[|j]]]; try reflexivity. lia.
Qed.

(** C7, as the code has it.  In the version with the retry helper the
    provider call of a file's analysis is made again only after a failure
    with status 429, three times in all at most, after a wait of 2000 ms
    and then of 4000 ms; it ends with the outcome of the attempt that comes
    after the rate-limit failures, and a failure gives the file no issues.
    The version of src/server calls the provider once. *)
Theorem provider_call_is_retried_on_rate_limit env fileContent relativePath language w :
  let c := w.(Analyzer.calls) in
  let j := FallbackAnalyzer.rate_limited_run env.(Analyzer.generateContent) c 2 in
  let issues n :=
    match env.(Analyzer.generateContent) n with
    | Analyzer.Responds response =>
        Analyzer.issues_of_response response relativePath language
    | Analyzer.Fails _ _ => []
    end in
  (j <= 2)%nat
  /\ FallbackAnalyzer.analyzeFileWithGemini env fileContent relativePath language w
     = (if FallbackAnalyzer.has_ai env
        then (Ok (issues (c + j)%nat),
              {| Analyzer.calls := S (c + j);
                 Analyzer.sleeps := w.(Analyzer.sleeps) ++ firstn j [2000; 4000];
                 Analyzer.fs := w.(Analyzer.fs) |})
        else (Ok [], w))
  /\ ServerAnalyzer.analyzeFileWithGemini env fileContent relativePath language w
     = (Ok (issues c),
        {| Analyzer.calls := S c;
           Analyzer.sleeps := w.(Analyzer.sleeps);
           Analyzer.fs := w.(Analyzer.fs) |}).
Proof.
  intros c j issues. split; [apply rate_limited_run_le|]. split.
  - unfold FallbackAnalyzer.analyzeFileWithGemini.
    destruct (FallbackAnalyzer.has_ai env); simpl; [|reflexivity].
    unfold Analyzer.try_catch, Analyzer.bind.
    rewrite retryWithBackoff_provider. fold c j. subst issues. simpl.
    destruct (Analyzer.generateContent env (c + j)); reflexivity.
  - unfold ServerAnalyzer.analyzeFileWithGemini.
    unfold Analyzer.try_catch, Analyzer.bind, Analyzer.call_generateContent.
    fold c. subst issues. simpl.
    destruct (Analyzer.generateContent env c); reflexivity.
Qed.

(** C7, the claim as stated fails: after a first rate-limit failure the
    analysis of a file waits 2000 ms, not 1000 ms. *)
Lemma first_retry_waits_two_seconds :
  Example.env.(Analyzer.generateContent) 0%nat = Analyzer.Fails (Some 429) "Too Many Requests"
  /\ (FallbackAnalyzer.analyzeFileWithGemini Example.env "import os" "app.py"
        "python" Analyzer.World0).2.(Analyzer.sleeps) = [2000]
  /\ (FallbackAnalyzer.analyzeFileWithGemini Example.env "import os" "app.py"
        "python" Analyzer.World0).2.(Analyzer.sleeps) <> [1000].
Proof. split; [reflexivity|]. split; [reflexivity|]. vm_compute. discriminate. Qed.

(** C9: for every file the refactorer reads, in either version of the
    analyzer, when there is no client to call, or when the provider call is
    made (the summary of the file's issues is written before it) and
    throws, after its retries where the version retries, the RefactoredFile
    pushed for the file has the original content as its refactored
    content. *)
Theorem refactor_failure_returns_original v env file rest baseDir issues content w :
  env.(Analyzer.readFile) file = Ok content ->
  (has_client v env = false
   \/ (is_Some (Analyzer.issuesSummary issues (Text.relative baseDir file))
       /\ exists e w1, refactor_call v env w = (Throw e, w1))) ->
  exists more w',
    refactorFiles_of v env (file :: rest) baseDir issues w
    = (Ok ({| Analyzer.RefactoredFile.file := Text.relative baseDir file;
              Analyzer.RefactoredFile.original := content;
              Analyzer.RefactoredFile.refactored := content |} :: more), w').
Proof.
  intros Hread Hfail.
  assert (Hhead : exists w1,
    match v with
    | server_version => ServerAnalyzer.refactorFileWithGemini env
    | fallback_version => FallbackAnalyzer.refactorFileWithGemini env
    end file content issues (Text.relative baseDir file) w = (Ok content, w1)).
  { destruct v; simpl in Hfail.
    - destruct Hfail as [Hno|([summary Hsum] & e & w1 & Hthrow)]; [discriminate|].
      unfold ServerAnalyzer.refactorFileWithGemini. rewrite Hsum.
      unfold Analyzer.try_catch, Analyzer.bind.
      rewrite Hthrow. unfold Analyzer.ret. eauto.
    - unfold FallbackAnalyzer.refactorFileWithGemini.
      destruct Hfail as [Hno|([summary Hsum] & e & w1 & Hthrow)].
      + rewrite Hno. simpl. unfold Analyzer.ret. eauto.
      + destruct (FallbackAnalyzer.has_ai env); simpl; [|unfold Analyzer.ret; eauto].
        rewrite Hsum.
        unfold Analyzer.try_catch, Analyzer.bind. rewrite Hthrow.
        unfold Analyzer.ret. eauto. }
  destruct Hhead as (w1 & Hhead).
  destruct v; simpl refactorFiles_of;
    [unfold ServerAnalyzer.refactorFiles|unfold FallbackAnalyzer.refactorFiles];
    cbn [Analyzer.refactorFiles];
    unfold Analyzer.bind at 1; unfold Analyzer.try_catch, Analyzer.bind at 1;
    unfold Analyzer.lift; rewrite Hread;
    unfold Analyzer.bind at 1; rewrite Hhead; unfold Analyzer.ret at 1;
    match goal with
    | |- context [Analyzer.refactorFiles env ?f rest baseDir issues] =>
        destruct (refactorFiles_returns env f rest baseDir issues w1)
          as (more & w' & Hmore)
    end;
    unfold Analyzer.bind; rewrite Hmore; unfold Analyzer.ret; simpl; eauto.
Qed.

Lemma issues_count_sums_to_length_witness :
  exists r w',
    analyzeCode_of fallback_version Example.env Example.job_id (Some "PK") None
      "standard" Analyzer.World0 = (Ok r, w')
    /\ length r.(Analyzer.AnalysisResult.issues) = 3%nat
    /\ (let c := r.(Analyzer.AnalysisResult.summary).(Analyzer.Summary.issues_count) in
        (c.(Analyzer.IssuesCount.critical) + c.(Analyzer.IssuesCount.major)
         + c.(Analyzer.IssuesCount.minor))%nat
        = length r.(Analyzer.AnalysisResult.issues)).
Proof.
  eexists. eexists. split; [vm_compute; reflexivity|].
  split; [reflexivity|].
  eapply (issues_count_sums_to_length fallback_version Example.env Example.job_id
            (Some "PK") None "standard" Analyzer.World0).
  vm_compute. reflexivity.
Defined.


Lemma refactor_failure_returns_original_witness :
  let issues :=
    [{| Analyzer.Issue.severity := Analyzer.critical;
        Analyzer.Issue.file := "app.py";
        Analyzer.Issue.line := Js.Num 3;
        Analyzer.Issue.message := Js.Str "eval of user input";
        Analyzer.Issue.rule := Js.Str "python/eval";
        Analyzer.Issue.suggestion := Some (Js.Str "") |}] in
  Analyzer.issuesSummary issues "app.py"
  = Some "- Line 3: eval of user input (critical)"
  /\ (exists e w1,
        refactor_call server_version Example.env Analyzer.World0 = (Throw e, w1))
  /\ exists more w',
       refactorFiles_of server_version Example.env
         ["/tmp/code-analysis-a1b2c3/app.py";
          "/tmp/code-analysis-a1b2c3/src/index.ts"]
         "/tmp/code-analysis-a1b2c3" issues Analyzer.World0
       = (Ok ({| Analyzer.RefactoredFile.file := "app.py";
                 Analyzer.RefactoredFile.original :=
                   "content of /tmp/code-analysis-a1b2c3/app.py";
                 Analyzer.RefactoredFile.refactored :=
                   "content of /tmp/code-analysis-a1b2c3/app.py" |} :: more), w').
Proof.
  intros issues.
  assert (Hthrow : exists e w1,
            refactor_call server_version Example.env Analyzer.World0 = (Throw e, w1))
    by (eexists; eexists; reflexivity).
  split; [reflexivity|]. split; [exact Hthrow|].
  exact (refactor_failure_returns_original server_version Example.env
           "/tmp/code-analysis-a1b2c3/app.py"
           ["/tmp/code-analysis-a1b2c3/src/index.ts"]
           "/tmp/code-analysis-a1b2c3" issues
           "content of /tmp/code-analysis-a1b2c3/app.py" Analyzer.World0
           eq_refl (or_intror (conj (ex_intro _ _ eq_refl) Hthrow))).
Defined.

(** ** JSON.parse after JSON.stringify *)
Section json_facts.
Import Js.
Local Open Scope list_scope.

(** Induction on a value with the hypothesis for every element and every
    property value. *)
Lemma value_ind' (P : value -> Prop) :
  P Null -> (forall b, P (Bool b)) -> (forall n, P (Num n)) -> (forall s, P (Str s)) ->
  (forall elems, Forall P elems -> P (Arr elems)) ->
  (forall props, Forall (fun kv => P kv.2) props -> P (Obj props)) ->
  forall v, P v.
Proof.
  intros HNull HBool HNum HStr HArr HObj.
  fix IH 1. intros [| b | n | s | elems | props].
  - exact HNull.
  - apply HBool.
  - apply HNum.
  - apply HStr.
  - apply HArr. induction elems as [|e es IHes]; constructor; [apply IH|exact IHes].
  - apply HObj. induction props as [|[k v] ps IHps]; constructor; [apply IH|exact IHps].
Qed.

(** *** Strings *)

Lemma parse_string_body_cons c r :
  parse_string_body (c :: r) =
    if (code c =? 34)%N then Some (EmptyString, r)
    else if (code c =? 92)%N then
      match r with
      | [] => None
      | e :: r1 =>
          match simple_escape e with
          | Some d =>
              match parse_string_body r1 with
              | Some (s, r') => Some (String d s, r')
              | None => None
              end
          | None =>
              if (code e =? 117)%N then
                match r1 with
                | h3 :: h2 :: h1 :: h0 :: r2 =>
                    match hex_value h3, hex_value h2, hex_value h1, hex_value h0 with
                    | Some a3, Some a2, Some a1, Some a0 =>
                        let n := (((a3 * 16 + a2) * 16 + a1) * 16 + a0)%N in
                        if (n <? 256)%N then
                          match parse_string_body r2 with
                          | Some (s, r') => Some (String (ascii_of_N n) s, r')
                          | None => None
                          end
                        else None
                    | _, _, _, _ => None
                    end
                | _ => None
                end
              else None
          end
      end
    else if (code c <? 32)%N then None
    else
      match parse_string_body r with
      | Some (s, r') => Some (String c s, r')
      | None => None
      end.
Proof. reflexivity. Qed.

Ltac evaluate t := let x := eval vm_compute in t in change t with x.

(** Reading back an escaped code unit gives the code unit: by cases on
    the 256 of them. *)
Lemma parse_escape_char c l :
  parse_string_body (escape_char c ++ l)
  = match parse_string_body l with
    | Some (s, r) => Some (String c s, r)
    | None => None
    end.
Proof.
  destruct c as [[|] [|] [|] [|] [|] [|] [|] [|]];
    match goal with |- context [escape_char ?c] => evaluate (escape_char c) end;
    cbn [app]; rewrite parse_string_body_cons;
    match goal with |- context [(code ?c =? 34)%N] => evaluate (code c =? 34)%N end;
    match goal with |- context [(code ?c =? 92)%N] => evaluate (code c =? 92)%N end;
    cbv iota;
    try (match goal with |- context [(code ?c <? 32)%N] => evaluate (code c <? 32)%N end;
         cbv iota; reflexivity);
    match goal with |- context [simple_escape ?c] => evaluate (simple_escape c) end;
    cbv iota; reflexivity.
Qed.

Lemma parse_quote_body s rest :
  parse_string_body (quote_body s ++ ch_quote :: rest) = Some (s, rest).
Proof.
  induction s as [|c s IH]; [reflexivity|].
  simpl quote_body. rewrite <- app_assoc, parse_escape_char, IH. reflexivity.
Qed.

(** *** Numbers *)

Lemma take_digits_digits d rest :
  match rest with [] => True | c :: _ => is_digit c = false end ->
  take_digits (digits d ++ rest) = (d, rest).
Proof.
  intros Hrest. induction d; simpl;
    try (rewrite IHd; reflexivity).
  destruct rest as [|c r]; [reflexivity|]. simpl. by rewrite Hrest.
Qed.

Lemma to_uint_no_leading_zero p d : Pos.to_uint p <> D0 d.
Proof.
  intros H.
  pose proof (Unsigned.to_of (Pos.to_uint p)) as Hn.
  rewrite Unsigned.of_to in Hn. simpl in Hn. rewrite H in Hn.
  rewrite unorm_D0 in Hn.
  destruct (uint_eq_dec d Nil) as [->|Hd].
  - apply (Unsigned.to_uint_nonzero p). exact H.
  - pose proof (nb_digits_unorm d Hd) as Hle. rewrite <- Hn in Hle.
    simpl in Hle. lia.
Qed.

Lemma parse_unsigned_pos p rest :
  ends_number rest ->
  parse_unsigned (digits (Pos.to_uint p) ++ rest) = Some (Z.pos p, rest).
Proof.
  intros Hrest. unfold parse_unsigned.
  rewrite take_digits_digits by (destruct rest; [done|apply Hrest]).
  replace (match rest with
           | [] => false
           | c :: _ => (code c =? 46)%N || (code c =? 101)%N || (code c =? 69)%N
           end) with false.
  2:{ destruct rest as [|c r]; [done|]. destruct Hrest as (_ & H1 & H2 & H3).
      apply N.eqb_neq in H1, H2, H3. by rewrite H1, H2, H3. }
  assert (Hz : Z.of_uint (Pos.to_uint p) = Z.pos p).
  { unfold Z.of_uint. by rewrite Unsigned.of_to. }
  pose proof (Unsigned.to_uint_nonnil p) as Hnil.
  pose proof (to_uint_no_leading_zero p) as Hzero.
  destruct (Pos.to_uint p) as [|d|d|d|d|d|d|d|d|d|d]; congruence.
Qed.

Lemma digits_head d :
  d <> Nil -> exists c tl, digits d = c :: tl /\ is_digit c = true.
Proof. destruct d; try congruence; intros _; simpl; eauto. Qed.

Lemma parse_number_write n rest :
  ends_number rest ->
  parse_number (write_number n ++ rest) = Some (n, rest).
Proof.
  intros Hrest. destruct n as [|p|p]; simpl.
  - unfold parse_unsigned. simpl.
    destruct rest as [|c r]; [reflexivity|]. simpl.
    destruct Hrest as (Hd & H1 & H2 & H3). rewrite Hd.
    apply N.eqb_neq in H1, H2, H3. by rewrite H1, H2, H3.
  - destruct (digits_head (Pos.to_uint p) (Unsigned.to_uint_nonnil p))
      as (c & tl & Hc & Hdig).
    pose proof (parse_unsigned_pos p rest Hrest) as Hp.
    rewrite Hc in *. simpl.
    replace (code c =? 45)%N with false; [exact Hp|].
    unfold is_digit in Hdig. symmetry. apply N.eqb_neq. intros E. rewrite E in Hdig.
    discriminate.
  - change (code "-" =? 45)%N with true. cbv iota.
    by rewrite parse_unsigned_pos.
Qed.

(** *** Whitespace and first characters *)

Lemma skip_ws_app pre l : all_ws pre -> skip_ws (pre ++ l) = skip_ws l.
Proof.
  induction 1 as [|c pre Hc _ IH]; [reflexivity|]. simpl. by rewrite Hc.
Qed.

Lemma skip_ws_head c l : is_ws c = false -> skip_ws (c :: l) = c :: l.
Proof. intros H. simpl. by rewrite H. Qed.

Lemma all_ws_spaces n : all_ws (spaces n).
Proof. induction n; constructor; [reflexivity|assumption]. Qed.

Lemma all_ws_indent n : all_ws (ch_newline :: spaces n).
Proof. constructor; [reflexivity|apply all_ws_spaces]. Qed.

Lemma write_number_head n :
  exists c tl, write_number n = c :: tl
               /\ (code c = 45%N \/ is_digit c = true).
Proof.
  destruct n as [|p|p]; simpl.
  - eexists _, _. split; [reflexivity|]. right. reflexivity.
  - destruct (digits_head (Pos.to_uint p) (Unsigned.to_uint_nonnil p))
      as (c & tl & Hc & Hdig). rewrite Hc. eauto.
  - eexists _, _. split; [reflexivity|]. left. reflexivity.
Qed.

Lemma number_head_code c :
  code c = 45%N \/ is_digit c = true ->
  (code c = 45 \/ 48 <= code c <= 57)%N.
Proof.
  intros [H|H]; [by left|right]. unfold is_digit in H.
  apply andb_prop in H as [H1 H2]. apply N.leb_le in H1, H2. lia.
Qed.

Lemma write_head indent v :
  exists c tl, write indent v = c :: tl /\ opens_value c.
Proof.
  destruct v as [| [|] | n | s | [|e es] | [|kv ps]];
    try (eexists _, _; split; [reflexivity|]; repeat split; discriminate).
  destruct (write_number_head n) as (c & tl & Hc & Hhead).
  exists c, tl. split; [exact Hc|].
  apply number_head_code in Hhead. unfold opens_value, is_ws.
  repeat split; try lia.
  destruct Hhead as [E|E].
  - rewrite E. reflexivity.
  - repeat (apply orb_false_intro); apply N.eqb_neq; lia.
Qed.

Lemma parse_value_S f l :
  parse_value (S f) l =
    match skip_ws l with
    | [] => None
    | c :: r =>
        let n := code c in
        if (n =? 110)%N then keyword "null" Null (c :: r)
        else if (n =? 116)%N then keyword "true" (Bool true) (c :: r)
        else if (n =? 102)%N then keyword "false" (Bool false) (c :: r)
        else if (n =? 34)%N then
          match parse_string_body r with
          | Some (s, r') => Some (Str s, r')
          | None => None
          end
        else if (n =? 91)%N then
          match skip_ws r with
          | c' :: r' =>
              if (code c' =? 93)%N then Some (Arr [], r')
              else match parse_elems f r with
                   | Some (vs, r'') => Some (Arr vs, r'')
                   | None => None
                   end
          | [] => None
          end
        else if (n =? 123)%N then
          match skip_ws r with
          | c' :: r' =>
              if (code c' =? 125)%N then Some (Obj [], r')
              else match parse_members f r [] with
                   | Some (ps, r'') => Some (Obj ps, r'')
                   | None => None
                   end
          | [] => None
          end
        else
          match parse_number (c :: r) with
          | Some (z, r') => Some (Num z, r')
          | None => None
          end
    end.
Proof. reflexivity. Qed.

Lemma parse_elems_S f l :
  parse_elems (S f) l =
    match parse_value f l with
    | None => None
    | Some (v, r) =>
        match skip_ws r with
        | c :: r' =>
            if (code c =? 44)%N then
              match parse_elems f r' with
              | Some (vs, r'') => Some (v :: vs, r'')
              | None => None
              end
            else if (code c =? 93)%N then Some ([v], r')
            else None
        | [] => None
        end
    end.
Proof. reflexivity. Qed.

Lemma parse_members_S f l acc :
  parse_members (S f) l acc =
    match skip_ws l with
    | c :: r =>
        if (code c =? 34)%N then
          match parse_string_body r with
          | None => None
          | Some (k, r1) =>
              match skip_ws r1 with
              | c1 :: r2 =>
                  if (code c1 =? 58)%N then
                    match parse_value f r2 with
                    | None => None
                    | Some (v, r3) =>
                        let acc' := set_prop k v acc in
                        match skip_ws r3 with
                        | c3 :: r4 =>
                            if (code c3 =? 44)%N then parse_members f r4 acc'
                            else if (code c3 =? 125)%N then Some (acc', r4)
                            else None
                        | [] => None
                        end
                    end
                  else None
              | [] => None
              end
          end
        else None
    | [] => None
    end.
Proof. reflexivity. Qed.

Lemma ends_number_comma l : ends_number (","%char :: l).
Proof. repeat split; discriminate. Qed.

Lemma ends_number_newline l : ends_number (ch_newline :: l).
Proof. repeat split; discriminate. Qed.

Lemma reads_back_scalar_null : reads_back Null.
Proof.
  intros indent [|fuel] pre rest Hpre Hrest Hfuel; [simpl in Hfuel; lia|].
  rewrite parse_value_S, skip_ws_app by done. reflexivity.
Qed.

Lemma reads_back_bool b : reads_back (Bool b).
Proof.
  intros indent [|fuel] pre rest Hpre Hrest Hfuel; [simpl in Hfuel; lia|].
  rewrite parse_value_S, skip_ws_app by done. destruct b; reflexivity.
Qed.

Lemma reads_back_str s : reads_back (Str s).
Proof.
  intros indent [|fuel] pre rest Hpre Hrest Hfuel; [simpl in Hfuel; lia|].
  rewrite parse_value_S, skip_ws_app by done.
  simpl write. unfold quote. rewrite <- !app_comm_cons.
  rewrite skip_ws_head by reflexivity.
  change (code ch_quote) with 34%N. cbv beta iota zeta.
  change (34 =? 110)%N with false. change (34 =? 116)%N with false.
  change (34 =? 102)%N with false. change (34 =? 34)%N with true. cbv iota.
  rewrite <- app_assoc. simpl app. by rewrite parse_quote_body.
Qed.

Lemma reads_back_num n : reads_back (Num n).
Proof.
  intros indent [|fuel] pre rest Hpre Hrest Hfuel; [simpl in Hfuel; lia|].
  rewrite parse_value_S, skip_ws_app by done.
  simpl write.
  destruct (write_number_head n) as (c & tl & Hc & Hhead).
  pose proof (parse_number_write n rest Hrest) as Hparse.
  rewrite Hc in *. rewrite <- app_comm_cons in *.
  apply number_head_code in Hhead.
  rewrite skip_ws_head.
  2:{ unfold is_ws. destruct Hhead as [E|E].
      - rewrite E. reflexivity.
      - repeat (apply orb_false_intro); apply N.eqb_neq; lia. }
  cbv beta iota zeta.
  replace (code c =? 110)%N with false by (symmetry; apply N.eqb_neq; lia).
  replace (code c =? 116)%N with false by (symmetry; apply N.eqb_neq; lia).
  replace (code c =? 102)%N with false by (symmetry; apply N.eqb_neq; lia).
  replace (code c =? 34)%N with false by (symmetry; apply N.eqb_neq; lia).
  replace (code c =? 91)%N with false by (symmetry; apply N.eqb_neq; lia).
  replace (code c =? 123)%N with false by (symmetry; apply N.eqb_neq; lia).
  by rewrite Hparse.
Qed.

(** *** Arrays and objects *)

Lemma write_Arr indent e es :
  write indent (Arr (e :: es)) =
    "["%char :: ch_newline :: spaces (indent + 2) ++
    join (separator (indent + 2)) (map (write (indent + 2)) (e :: es)) ++
    ch_newline :: spaces indent ++ ["]"%char].
Proof. reflexivity. Qed.

Lemma write_Obj indent kv ps :
  write indent (Obj (kv :: ps)) =
    "{"%char :: ch_newline :: spaces (indent + 2) ++
    join (separator (indent + 2)) (map (member (indent + 2)) (kv :: ps)) ++
    ch_newline :: spaces indent ++ ["}"%char].
Proof. reflexivity. Qed.

Lemma join_cons2 sep p q parts :
  join sep (p :: q :: parts) = p ++ sep ++ join sep (q :: parts).
Proof. reflexivity. Qed.

Lemma skip_ws_closing indent c rest :
  is_ws c = false ->
  skip_ws (ch_newline :: spaces indent ++ c :: rest) = c :: rest.
Proof.
  intros Hc. change (ch_newline :: spaces indent ++ c :: rest)
    with ((ch_newline :: spaces indent) ++ c :: rest).
  rewrite skip_ws_app by apply all_ws_indent. by apply skip_ws_head.
Qed.

Lemma parse_elems_written inner indent es rest :
  Forall reads_back es -> es <> [] ->
  forall fuel pre,
    all_ws pre ->
    (fold_right (fun e acc => S (need e + acc)) O es <= fuel)%nat ->
    parse_elems fuel
      (pre ++ join (separator inner) (map (write inner) es)
           ++ ch_newline :: spaces indent ++ "]"%char :: rest)
    = Some (map norm es, rest).
Proof.
  induction 1 as [|e es He Hes IH]; [done|]. intros _ fuel pre Hpre Hfuel.
  destruct fuel as [|f]; [simpl in Hfuel; lia|]. simpl in Hfuel.
  rewrite parse_elems_S.
  destruct es as [|e' es'].
  - simpl join. simpl map.
    rewrite (He inner f pre _ Hpre (ends_number_newline _)) by lia.
    rewrite skip_ws_closing by reflexivity. reflexivity.
  - change (map (write inner) (e :: e' :: es'))
      with (write inner e :: write inner e' :: map (write inner) es').
    rewrite join_cons2. unfold separator at 1.
    rewrite <- !app_assoc. rewrite <- !app_comm_cons.
    rewrite (He inner f pre _ Hpre (ends_number_comma _)) by lia.
    rewrite skip_ws_head by reflexivity.
    change (code "," =? 44)%N with true. cbv iota.
    change (ch_newline :: spaces inner ++
            join (separator inner) (write inner e' :: map (write inner) es') ++
            ch_newline :: spaces indent ++ "]"%char :: rest)
      with ((ch_newline :: spaces inner) ++
            join (separator inner) (map (write inner) (e' :: es')) ++
            ch_newline :: spaces indent ++ "]"%char :: rest).
    rewrite IH; [reflexivity|done|apply all_ws_indent|simpl in *; lia].
Qed.

Lemma reads_back_arr es : Forall reads_back es -> reads_back (Arr es).
Proof.
  intros Hes indent fuel pre rest Hpre Hrest Hfuel.
  destruct fuel as [|f]; [simpl in Hfuel; lia|].
  rewrite parse_value_S, skip_ws_app by done.
  destruct es as [|e es].
  - reflexivity.
  - rewrite write_Arr. rewrite <- !app_comm_cons.
    rewrite skip_ws_head by reflexivity.
    change (code "[") with 91%N. cbv beta iota zeta.
    change (91 =? 110)%N with false. change (91 =? 116)%N with false.
    change (91 =? 102)%N with false. change (91 =? 34)%N with false.
    change (91 =? 91)%N with true. cbv iota.
    rewrite <- !app_assoc.
    assert (Hskip : exists c tl,
      skip_ws (ch_newline :: spaces (indent + 2) ++
               join (separator (indent + 2)) (map (write (indent + 2)) (e :: es)) ++
               (ch_newline :: spaces indent ++ ["]"%char]) ++ rest) = c :: tl
      /\ code c <> 93%N).
    { change (ch_newline :: spaces (indent + 2) ++ ?l)
        with ((ch_newline :: spaces (indent + 2)) ++ l).
      rewrite skip_ws_app by apply all_ws_indent.
      destruct (write_head (indent + 2) e) as (c & tl & Hc & Hws & Hc93 & _).
      destruct es as [|e' es']; simpl map; [simpl join|rewrite join_cons2];
        rewrite Hc; rewrite <- !app_comm_cons; rewrite skip_ws_head by done; eauto. }
    destruct Hskip as (c & tl & -> & Hc93).
    apply N.eqb_neq in Hc93. rewrite Hc93.
    change (ch_newline :: spaces (indent + 2) ++
            join (separator (indent + 2)) (map (write (indent + 2)) (e :: es)) ++
            (ch_newline :: spaces indent ++ ["]"%char]) ++ rest)
      with ((ch_newline :: spaces (indent + 2)) ++
            join (separator (indent + 2)) (map (write (indent + 2)) (e :: es)) ++
            (ch_newline :: spaces indent ++ ["]"%char]) ++ rest).
    replace ((ch_newline :: spaces indent ++ ["]"%char]) ++ rest)
      with (ch_newline :: spaces indent ++ "]"%char :: rest)
      by (rewrite <- app_comm_cons, <- app_assoc; reflexivity).
    rewrite (parse_elems_written (indent + 2) indent (e :: es) rest Hes);
      [reflexivity|done|apply all_ws_indent|simpl in *; lia].
Qed.

Lemma parse_members_written inner indent props rest :
  Forall (fun kv => reads_back kv.2) props -> props <> [] ->
  forall fuel pre acc,
    all_ws pre ->
    (fold_right (fun kv acc => S (need kv.2 + acc)) O props <= fuel)%nat ->
    parse_members fuel
      (pre ++ join (separator inner) (map (member inner) props)
           ++ ch_newline :: spaces indent ++ "}"%char :: rest) acc
    = Some (fold_left (fun acc kv => set_prop kv.1 (norm kv.2) acc) props acc,
            rest).
Proof.
  induction 1 as [|[k v] ps Hv Hps IH]; [done|]. intros _ fuel pre acc Hpre Hfuel.
  destruct fuel as [|f]; [simpl in Hfuel; lia|]. simpl in Hfuel.
  rewrite parse_members_S.
  assert (Hone : forall tail,
    ends_number tail ->
    match skip_ws (pre ++ member inner (k, v) ++ tail) with
    | c :: r =>
        if (code c =? 34)%N then
          match parse_string_body r with
          | None => None
          | Some (k0, r1) =>
              match skip_ws r1 with
              | c1 :: r2 =>
                  if (code c1 =? 58)%N then
                    match parse_value f r2 with
                    | None => None
                    | Some (v0, r3) =>
                        let acc' := set_prop k0 v0 acc in
                        match skip_ws r3 with
                        | c3 :: r4 =>
                            if (code c3 =? 44)%N then parse_members f r4 acc'
                            else if (code c3 =? 125)%N then Some (acc', r4)
                            else None
                        | [] => None
                        end
                    end
                  else None
              | [] => None
              end
          end
        else None
    | [] => None
    end
    = match skip_ws tail with
      | c3 :: r4 =>
          if (code c3 =? 44)%N then parse_members f r4 (set_prop k (norm v) acc)
          else if (code c3 =? 125)%N then Some (set_prop k (norm v) acc, r4)
          else None
      | [] => None
      end).
  { intros tail Htail. rewrite skip_ws_app by done. simpl in Hv.
    unfold member, quote. simpl fst. simpl snd.
    rewrite <- !app_assoc. rewrite <- !app_comm_cons.
    rewrite skip_ws_head by reflexivity.
    change (code ch_quote =? 34)%N with true. cbv iota.
    rewrite <- !app_assoc. simpl app.
    rewrite parse_quote_body.
    rewrite skip_ws_head by reflexivity.
    change (code ":" =? 58)%N with true. cbv iota.
    change (ch_space :: write inner v ++ tail)
      with ([ch_space] ++ write inner v ++ tail).
    rewrite (Hv inner f [ch_space] tail); [reflexivity| |exact Htail|simpl in *; lia].
    constructor; [reflexivity|constructor]. }
  destruct ps as [|kv' ps'].
  - simpl join. simpl map.
    rewrite Hone by apply ends_number_newline.
    rewrite skip_ws_closing by reflexivity. reflexivity.
  - change (map (member inner) ((k, v) :: kv' :: ps'))
      with (member inner (k, v) :: member inner kv' :: map (member inner) ps').
    rewrite join_cons2. unfold separator at 1.
    rewrite <- !app_assoc.
    change ((","%char :: ch_newline :: spaces inner) ++ ?l)
      with (","%char :: (ch_newline :: spaces inner) ++ l).
    rewrite Hone by apply ends_number_comma.
    rewrite skip_ws_head by reflexivity.
    change (code "," =? 44)%N with true. cbv iota.
    change (member inner kv' :: map (member inner) ps')
      with (map (member inner) (kv' :: ps')).
    rewrite IH; [reflexivity|done|apply all_ws_indent|simpl in *; lia].
Qed.

Lemma reads_back_obj props :
  Forall (fun kv => reads_back kv.2) props -> reads_back (Obj props).
Proof.
  intros Hps indent fuel pre rest Hpre Hrest Hfuel.
  destruct fuel as [|f]; [simpl in Hfuel; lia|].
  rewrite parse_value_S, skip_ws_app by done.
  destruct props as [|kv ps].
  - reflexivity.
  - rewrite write_Obj. rewrite <- !app_comm_cons.
    rewrite skip_ws_head by reflexivity.
    change (code "{") with 123%N. cbv beta iota zeta.
    change (123 =? 110)%N with false. change (123 =? 116)%N with false.
    change (123 =? 102)%N with false. change (123 =? 34)%N with false.
    change (123 =? 91)%N with false. change (123 =? 123)%N with true. cbv iota.
    rewrite <- !app_assoc.
    assert (Hskip : exists tl,
      skip_ws (ch_newline :: spaces (indent + 2) ++
               join (separator (indent + 2)) (map (member (indent + 2)) (kv :: ps)) ++
               (ch_newline :: spaces indent ++ ["}"%char]) ++ rest) = ch_quote :: tl).
    { change (ch_newline :: spaces (indent + 2) ++ ?l)
        with ((ch_newline :: spaces (indent + 2)) ++ l).
      rewrite skip_ws_app by apply all_ws_indent.
      destruct ps as [|kv' ps']; simpl map; [simpl join|rewrite join_cons2];
        unfold member at 1, quote; rewrite <- !app_comm_cons;
        rewrite skip_ws_head by reflexivity; eauto. }
    destruct Hskip as (tl & ->).
    change (code ch_quote =? 125)%N with false. cbv iota.
    change (ch_newline :: spaces (indent + 2) ++
            join (separator (indent + 2)) (map (member (indent + 2)) (kv :: ps)) ++
            (ch_newline :: spaces indent ++ ["}"%char]) ++ rest)
      with ((ch_newline :: spaces (indent + 2)) ++
            join (separator (indent + 2)) (map (member (indent + 2)) (kv :: ps)) ++
            (ch_newline :: spaces indent ++ ["}"%char]) ++ rest).
    replace ((ch_newline :: spaces indent ++ ["}"%char]) ++ rest)
      with (ch_newline :: spaces indent ++ "}"%char :: rest)
      by (rewrite <- app_comm_cons, <- app_assoc; reflexivity).
    rewrite (parse_members_written (indent + 2) indent (kv :: ps) rest Hps);
      [reflexivity|done|apply all_ws_indent|simpl in *; lia].
Qed.

Lemma reads_back_all v : reads_back v.
Proof.
  induction v using value_ind'.
  - apply reads_back_scalar_null.
  - apply reads_back_bool.
  - apply reads_back_num.
  - apply reads_back_str.
  - by apply reads_back_arr.
  - by apply reads_back_obj.
Qed.

(** *** Enough fuel *)

Lemma length_join sep parts :
  (1 <= length sep)%nat ->
  (fold_right (fun p acc => S (length p + acc)) O parts
   <= S (length (join sep parts)))%nat.
Proof.
  intros Hsep. induction parts as [|p [|q parts] IH]; simpl in *.
  - lia.
  - lia.
  - rewrite !length_app. lia.
Qed.

Lemma need_le_length v : forall indent, (need v <= length (write indent v))%nat.
Proof.
  induction v as [| b | n | s | es IH | ps IH] using value_ind'; intros indent.
  - simpl. lia.
  - destruct b; simpl; lia.
  - simpl. destruct (write_number_head n) as (c & tl & -> & _). simpl. lia.
  - simpl. unfold quote. simpl. lia.
  - destruct es as [|e es]; [simpl; lia|].
    rewrite write_Arr.
    pose proof (length_join (separator (indent + 2))
                  (map (write (indent + 2)) (e :: es))) as Hjoin.
    assert (Hsum : (fold_right (fun e acc => S (need e + acc)) O (e :: es)
                    <= fold_right (fun p acc => S (length p + acc)) O
                         (map (write (indent + 2)) (e :: es)))%nat).
    { clear Hjoin. induction IH as [|x xs Hx _ IHxs]; simpl; [lia|].
      specialize (Hx (indent + 2)%nat). simpl in IHxs. lia. }
    change (need (Arr (e :: es)))
      with (S (fold_right (fun e acc => S (need e + acc)) O (e :: es))).
    specialize (Hjoin ltac:(simpl; lia)).
    set (J := join _ _) in *. clearbody J.
    cbn [length]. rewrite !length_app. cbn [length]. lia.
  - destruct ps as [|kv ps]; [simpl; lia|].
    rewrite write_Obj.
    pose proof (length_join (separator (indent + 2))
                  (map (member (indent + 2)) (kv :: ps))) as Hjoin.
    assert (Hsum : (fold_right (fun kv acc => S (need kv.2 + acc)) O (kv :: ps)
                    <= fold_right (fun p acc => S (length p + acc)) O
                         (map (member (indent + 2)) (kv :: ps)))%nat).
    { clear Hjoin. induction IH as [|x xs Hx _ IHxs]; [simpl; lia|].
      specialize (Hx (indent + 2)%nat).
      assert (length (write (indent + 2) x.2) <= length (member (indent + 2) x))%nat.
      { unfold member. rewrite length_app. cbn [length]. lia. }
      cbn [fold_right map]. lia. }
    change (need (Obj (kv :: ps)))
      with (S (fold_right (fun kv acc => S (need kv.2 + acc)) O (kv :: ps))).
    specialize (Hjoin ltac:(simpl; lia)).
    set (J := join _ _) in *. clearbody J.
    cbn [length]. rewrite !length_app. cbn [length]. lia.
Qed.

(** [JSON.parse(JSON.stringify(v, null, 2))] is [v] as the runtime holds it. *)
Lemma parse_stringify v : parse (stringify v) = Some (norm v).
Proof.
  unfold parse, stringify, chars, text.
  rewrite list_ascii_of_string_of_list_ascii.
  pose proof (reads_back_all v 0%nat (S (length (write 0 v))) [] []) as H.
  simpl app in H. rewrite app_nil_r in H.
  rewrite H; [reflexivity|constructor|exact I|].
  pose proof (need_le_length v 0). lia.
Qed.
End json_facts.

(** ** generateJSON *)
Section generateJSON_facts.
Import Analyzer.

Lemma map_norm_fixed {A} (f : A -> Js.value) (l : list A) :
  Forall (fun a => Js.norm (f a) = f a) l ->
  map Js.norm (map f l) = map f l.
Proof.
  induction 1 as [|a l Ha _ IH]; [reflexivity|]. simpl. by rewrite Ha, IH.
Qed.

Lemma Issue_to_js_wf i : Issue.wf i -> Js.wf (Issue.to_js i).
Proof.
  intros (Hline & Hmsg & Hrule & Hsug). unfold Js.wf in *.
  unfold Issue.to_js. destruct (Issue.suggestion i) as [sg|];
    cbn; rewrite ?Hline, ?Hmsg, ?Hrule, ?Hsug; reflexivity.
Qed.

Lemma AnalysisResult_to_js_wf r :
  Forall Issue.wf r.(AnalysisResult.issues) -> Js.wf (AnalysisResult.to_js r).
Proof.
  intros Hissues. unfold Js.wf, AnalysisResult.to_js.
  cbn.
  rewrite (map_norm_fixed Js.Str) by (apply Forall_forall; reflexivity).
  rewrite (map_norm_fixed Issue.to_js)
    by (eapply Forall_impl; [exact Hissues|apply Issue_to_js_wf]).
  rewrite (map_norm_fixed Patch.to_js) by (apply Forall_forall; reflexivity).
  rewrite (map_norm_fixed RefactoredFile.to_js) by (apply Forall_forall; reflexivity).
  reflexivity.
Qed.
End generateJSON_facts.

(** ** Values as the runtime holds them *)
Section wf_facts.
Import Js.
Local Open Scope list_scope.

Lemma replace_prop_None k v props :
  replace_prop k v props = None <-> k ∉ map fst props.
Proof.
  induction props as [|[k' v'] rest IH]; simpl.
  - split; [intros _; apply not_elem_of_nil|done].
  - destruct (String.eqb_spec k k') as [->|Hne].
    + split; [done|]. intros H. exfalso. apply H. left.
    + rewrite not_elem_of_cons. destruct (replace_prop k v rest); split; try done.
      * intros [_ H]. by apply IH in H.
      * intros _. split; [done|]. by apply IH.
Qed.

Lemma replace_prop_keys k v props props' :
  replace_prop k v props = Some props' -> map fst props' = map fst props.
Proof.
  revert props'. induction props as [|[k' v'] rest IH]; intros props'; simpl; [done|].
  destruct (String.eqb k k').
  - intros [= <-]. reflexivity.
  - destruct (replace_prop k v rest) as [rest'|]; [|done].
    intros [= <-]. simpl. f_equal. by apply IH.
Qed.

Lemma replace_prop_Forall (P : value -> Prop) k v props props' :
  replace_prop k v props = Some props' ->
  P v -> Forall (fun kv => P kv.2) props -> Forall (fun kv => P kv.2) props'.
Proof.
  revert props'. induction props as [|[k' v'] rest IH]; intros props'; simpl; [done|].
  destruct (String.eqb k k').
  - intros [= <-] Hv Hall. inversion Hall; subst. by constructor.
  - destruct (replace_prop k v rest) as [rest'|]; [|done].
    intros [= <-] Hv Hall. inversion Hall; subst. constructor; [done|]. by apply IH.
Qed.

Lemma insert_index_keys n k v props y :
  y ∈ map fst (insert_index n k v props) <-> y = k \/ y ∈ map fst props.
Proof.
  induction props as [|[k' v'] rest IH]; simpl.
  - rewrite list_elem_of_singleton. split; [by left|]. intros [->|H]; [done|].
    by apply elem_of_nil in H.
  - destruct (array_index k') as [n'|]; [destruct (n' <=? n)%N|]; simpl;
      rewrite ?elem_of_cons, ?IH; simpl; rewrite ?elem_of_cons; tauto.
Qed.

Lemma insert_index_Forall (P : value -> Prop) n k v props :
  P v -> Forall (fun kv => P kv.2) props ->
  Forall (fun kv => P kv.2) (insert_index n k v props).
Proof.
  intros Hv. induction 1 as [|[k' v'] rest Hk' Hrest IH]; simpl.
  - by constructor.
  - destruct (array_index k') as [n'|]; [destruct (n' <=? n)%N|];
      repeat constructor; done.
Qed.

Lemma precedes_index_trans k k' y n n' :
  array_index k = Some n -> array_index k' = Some n' -> (n <= n')%N ->
  precedes k' y -> precedes k y.
Proof.
  unfold precedes. intros -> -> Hle. destruct (array_index y); [lia|done].
Qed.

Lemma insert_index_canonical n k v props :
  array_index k = Some n -> k ∉ map fst props ->
  canonical props -> canonical (insert_index n k v props).
Proof.
  intros Hk. induction props as [|[k' v'] rest IH]; intros Hnew [Hnd Hs]; simpl.
  - split; simpl; repeat constructor. apply not_elem_of_nil.
  - simpl in *. apply not_elem_of_cons in Hnew as [Hne Hnew].
    apply NoDup_cons in Hnd as [Hk' Hnd].
    apply StronglySorted_inv in Hs as [Hs Hall].
    destruct (array_index k') as [n'|] eqn:Ek'; [destruct (n' <=? n)%N eqn:Ele|].
    + apply N.leb_le in Ele.
      destruct (IH Hnew (conj Hnd Hs)) as [Hnd' Hs'].
      split; simpl.
      * apply NoDup_cons. split; [|done].
        rewrite insert_index_keys. intros [->|H]; done.
      * constructor; [done|]. apply Forall_forall. intros y Hy.
        apply insert_index_keys in Hy as [->|Hy].
        -- unfold precedes. by rewrite Ek', Hk.
        -- rewrite Forall_forall in Hall. by apply Hall.
    + apply N.leb_gt in Ele. split; simpl.
      * apply NoDup_cons. split; [|by apply NoDup_cons].
        rewrite not_elem_of_cons. done.
      * constructor; [by constructor|]. constructor.
        -- unfold precedes. rewrite Hk, Ek'. lia.
        -- eapply Forall_impl; [exact Hall|]. simpl. intros y Hy.
           eapply (precedes_index_trans k k'); eauto. lia.
    + split; simpl.
      * apply NoDup_cons. split; [|by apply NoDup_cons].
        rewrite not_elem_of_cons. done.
      * constructor; [by constructor|]. constructor.
        -- unfold precedes. by rewrite Hk, Ek'.
        -- eapply Forall_impl; [exact Hall|]. simpl. intros y Hy.
           unfold precedes in *. rewrite Hk. rewrite Ek' in Hy.
           destruct (array_index y); done.
Qed.

Lemma StronglySorted_snoc {A} (R : A -> A -> Prop) l x :
  StronglySorted R (l ++ [x]) <-> StronglySorted R l /\ Forall (fun y => R y x) l.
Proof.
  induction l as [|a l IH]; simpl.
  - split; [intros _; split; constructor|intros _; repeat constructor].
  - split.
    + intros H. apply StronglySorted_inv in H as [Hs Hall].
      apply IH in Hs as [Hs Hx]. apply Forall_app in Hall as [Hal Hax].
      split; [by constructor|]. constructor; [|done]. by inversion Hax.
    + intros [H Hx]. apply StronglySorted_inv in H as [Hs Hall].
      inversion Hx; subst. constructor; [apply IH; done|].
      apply Forall_app. split; [done|]. by constructor.
Qed.

Lemma set_prop_canonical k v props :
  canonical props -> canonical (set_prop k v props).
Proof.
  intros Hc. unfold set_prop.
  destruct (replace_prop k v props) as [props'|] eqn:Er.
  - unfold canonical. rewrite (replace_prop_keys _ _ _ _ Er). exact Hc.
  - apply replace_prop_None in Er.
    destruct (array_index k) as [n|] eqn:Ek.
    + by apply insert_index_canonical.
    + destruct Hc as [Hnd Hs]. split; rewrite map_app; simpl.
      * apply NoDup_app. split; [done|]. split; [|apply NoDup_singleton].
        intros y Hy Hy'. apply list_elem_of_singleton in Hy'. by subst.
      * apply StronglySorted_snoc. split; [done|].
        apply Forall_forall. intros y _. unfold precedes. rewrite Ek.
        destruct (array_index y); done.
Qed.

Lemma set_prop_Forall (P : value -> Prop) k v props :
  P v -> Forall (fun kv => P kv.2) props ->
  Forall (fun kv => P kv.2) (set_prop k v props).
Proof.
  intros Hv Hall. unfold set_prop.
  destruct (replace_prop k v props) as [props'|] eqn:Er.
  - by eapply replace_prop_Forall.
  - destruct (array_index k); [by apply insert_index_Forall|].
    apply Forall_app. split; [done|]. by repeat constructor.
Qed.

Lemma insert_index_last n k v props :
  Forall (fun kv => precedes kv.1 k) props -> array_index k = Some n ->
  insert_index n k v props = props ++ [(k, v)].
Proof.
  intros Hall Hk. induction Hall as [|[k' v'] rest Hk' _ IH]; simpl; [done|].
  unfold precedes in Hk'. simpl in Hk'. rewrite Hk in Hk'.
  destruct (array_index k') as [n'|]; [|done].
  apply N.leb_le in Hk'. by rewrite Hk', IH.
Qed.

(** Defining the properties of a canonical list in its order gives the list. *)
Lemma rebuild_canonical props :
  canonical props ->
  fold_left (fun acc kv => set_prop kv.1 kv.2 acc) props [] = props.
Proof.
  induction props as [|[k v] props IH] using rev_ind; [done|].
  intros [Hnd Hs]. rewrite map_app in Hnd, Hs. simpl in Hnd, Hs.
  apply NoDup_app in Hnd as (Hnd & Hnew & _).
  apply StronglySorted_snoc in Hs as [Hs Hall].
  rewrite fold_left_app. simpl. rewrite IH by done.
  unfold set_prop.
  assert (Hk : k ∉ map fst props).
  { intros Hin. apply (Hnew k Hin). by apply list_elem_of_singleton. }
  apply (proj2 (replace_prop_None k v props)) in Hk. rewrite Hk.
  destruct (array_index k) as [n|] eqn:Ek; [|done].
  apply insert_index_last; [|done].
  rewrite Forall_map in Hall. exact Hall.
Qed.

Lemma fold_norm_fixed props acc :
  Forall (fun kv => norm kv.2 = kv.2) props ->
  fold_left (fun acc kv => set_prop kv.1 (norm kv.2) acc) props acc
  = fold_left (fun acc kv => set_prop kv.1 kv.2 acc) props acc.
Proof.
  intros H. revert acc. induction H as [|kv props Hkv _ IH]; intros acc; [done|].
  simpl. by rewrite Hkv, IH.
Qed.

Lemma fold_set_prop_invariant (P : value -> Prop) (f : value -> value) props acc :
  Forall (fun kv => P (f kv.2)) props ->
  canonical acc -> Forall (fun kv => P kv.2) acc ->
  canonical (fold_left (fun acc kv => set_prop kv.1 (f kv.2) acc) props acc)
  /\ Forall (fun kv => P kv.2)
       (fold_left (fun acc kv => set_prop kv.1 (f kv.2) acc) props acc).
Proof.
  intros H. revert acc. induction H as [|kv props Hkv _ IH]; intros acc Hc Hall; [done|].
  simpl. apply IH; [by apply set_prop_canonical|by apply set_prop_Forall].
Qed.

Lemma canonical_nil : canonical [].
Proof. split; simpl; constructor. Qed.

(** An object whose properties are in canonical order and hold values as the
    runtime holds them is one. *)
Lemma wf_Obj props :
  canonical props -> Forall (fun kv => wf kv.2) props -> wf (Obj props).
Proof.
  intros Hc Hall. unfold wf. simpl.
  rewrite fold_norm_fixed by exact Hall. by rewrite rebuild_canonical.
Qed.

Lemma wf_Arr elems : Forall wf elems -> wf (Arr elems).
Proof.
  intros Hall. unfold wf. simpl. f_equal.
  induction Hall as [|e es He _ IH]; [done|]. simpl. by rewrite He, IH.
Qed.

(** [norm] gives values as the runtime holds them. *)
Lemma norm_wf v : wf (norm v).
Proof.
  induction v as [| b | n | s | es IH | ps IH] using value_ind'; try reflexivity.
  - simpl. apply wf_Arr. apply Forall_map. exact IH.
  - simpl.
    destruct (fold_set_prop_invariant wf norm ps [] IH canonical_nil
                ltac:(constructor)) as [Hc Hall].
    by apply wf_Obj.
Qed.

Lemma wf_Arr_inv elems : wf (Arr elems) -> Forall wf elems.
Proof.
  unfold wf. simpl. intros [= H].
  induction elems as [|e es IH]; [constructor|].
  simpl in H. injection H as He Hes. constructor; [done|by apply IH].
Qed.

Lemma wf_Obj_inv props : wf (Obj props) -> Forall (fun kv => wf kv.2) props.
Proof.
  unfold wf at 1. simpl. intros [= H]. rewrite <- H.
  apply (fold_set_prop_invariant wf norm props []);
    [|apply canonical_nil|constructor].
  apply Forall_forall. intros kv _. apply norm_wf.
Qed.

Lemma wf_lookup k props v :
  Forall (fun kv => wf kv.2) props -> lookup k props = Some v -> wf v.
Proof.
  induction 1 as [|[k' v'] rest Hk' _ IH]; simpl; [done|].
  destruct (String.eqb k k'); [by intros [= <-]|exact IH].
Qed.

Lemma wf_get k v x : wf v -> get k v = Some x -> wf x.
Proof.
  destruct v; simpl; try done. intros Hwf. apply wf_lookup. by apply wf_Obj_inv.
Qed.

(** What [JSON.parse] returns is a value as the runtime holds it. *)
Lemma parse_fuel_wf fuel :
  (forall l v r, parse_value fuel l = Some (v, r) -> wf v)
  /\ (forall l vs r, parse_elems fuel l = Some (vs, r) -> Forall wf vs)
  /\ (forall l acc ps r,
        parse_members fuel l acc = Some (ps, r) ->
        canonical acc -> Forall (fun kv => wf kv.2) acc ->
        canonical ps /\ Forall (fun kv => wf kv.2) ps).
Proof.
  induction fuel as [|f (IHv & IHe & IHm)].
  - repeat split; intros; discriminate.
  - split; [|split].
    + intros l v r. rewrite parse_value_S.
      destruct (skip_ws l) as [|c r0]; [done|]. cbv zeta. unfold keyword.
      repeat case_match; try discriminate; intros [= <- <-]; try reflexivity;
        first
          [ apply wf_Arr; first [eapply IHe; eassumption|constructor]
          | match goal with
            | H : parse_members f _ [] = Some _ |- _ =>
                apply IHm in H as [Hc Hall];
                [by apply wf_Obj|apply canonical_nil|constructor]
            end
          | apply wf_Obj; [apply canonical_nil|constructor] ].
    + intros l vs r. rewrite parse_elems_S.
      destruct (parse_value f l) as [[v r0]|] eqn:Ev; [|done].
      apply IHv in Ev.
      repeat case_match; try discriminate; intros [= <- <-].
      * constructor; eauto.
      * by repeat constructor.
    + intros l acc ps r. rewrite parse_members_S.
      repeat case_match; try discriminate; subst.
      * intros Hrest Hc Hall. eapply IHm; [exact Hrest| |].
        -- by apply set_prop_canonical.
        -- apply set_prop_Forall; [|done]. eauto.
      * intros [= <- <-] Hc Hall. split.
        -- by apply set_prop_canonical.
        -- apply set_prop_Forall; [|done]. eauto.
Qed.

Lemma parse_wf s v : parse s = Some v -> wf v.
Proof.
  unfold parse.
  destruct (parse_value _ _) as [[v0 r]|] eqn:E; [|done].
  destruct (skip_ws r); [|done]. intros [= <-].
  eapply (proj1 (parse_fuel_wf _)). exact E.
Qed.
End wf_facts.

(** ** The issues of an analysis hold values as the runtime holds them *)
Section issues_wf.
Import Analyzer.

Lemma or_else_wf o d :
  (forall x, o = Some x -> Js.wf x) -> Js.wf d -> Js.wf (or_else o d).
Proof.
  intros Ho Hd. unfold or_else. destruct (Js.truthy o); [|done].
  destruct o as [x|]; simpl; [by apply Ho|done].
Qed.

Lemma gemini_issue_wf relativePath language issue :
  Js.wf issue -> Issue.wf (gemini_issue relativePath language issue).
Proof.
  intros Hwf. unfold Issue.wf, gemini_issue. simpl.
  split; [by repeat case_match|].
  repeat split; apply or_else_wf; try reflexivity;
    intros x Hx; by eapply wf_get.
Qed.

Lemma parse_issues_wf cleaned relativePath language :
  Forall Issue.wf (parse_issues cleaned relativePath language).
Proof.
  unfold parse_issues. destruct (Js.parse cleaned) as [v|] eqn:E; [|constructor].
  apply parse_wf in E. destruct v; try constructor.
  destruct (existsb is_null elems); [constructor|].
  apply Forall_map. apply wf_Arr_inv in E.
  eapply Forall_impl; [exact E|]. intros x Hx. by apply gemini_issue_wf.
Qed.

Lemma issues_of_response_wf response relativePath language :
  Forall Issue.wf (issues_of_response response relativePath language).
Proof.
  unfold issues_of_response. destruct (response_text response); [|constructor].
  apply parse_issues_wf.
Qed.

Lemma yields_wf_ret l : Forall Issue.wf l -> yields_wf (ret l).
Proof. intros H w l' w' [= <- <-]. exact H. Qed.

Lemma analyzeFilesWithGemini_wf env per_file files baseDir language :
  (forall content path lang, yields_wf (per_file content path lang)) ->
  yields_wf (analyzeFilesWithGemini env per_file files baseDir language).
Proof.
  intros Hfile. induction files as [|file rest IH]; intros w l w'; simpl.
  - intros [= <- <-]. constructor.
  - intros H. apply bind_Ok in H as (issues & w1 & Hhere & H).
    apply bind_Ok in H as (more & w2 & Hmore & H).
    injection H as <- <-. apply Forall_app. split; [|by eapply IH].
    unfold try_catch in Hhere.
    destruct (bind (lift (readFile env file)) _ w) as [[l0|e] w0] eqn:Hb.
    + injection Hhere as <- <-.
      apply bind_Ok in Hb as (content & w3 & _ & Hb). by eapply Hfile.
    + injection Hhere as <- <-. constructor.
Qed.

Lemma server_analyzeFile_wf env content path lang :
  yields_wf (ServerAnalyzer.analyzeFileWithGemini env content path lang).
Proof.
  intros w l w'. unfold ServerAnalyzer.analyzeFileWithGemini, try_catch, bind.
  destruct (call_generateContent env w) as [[resp|e] w1].
  - intros [= <- <-]. apply issues_of_response_wf.
  - intros [= <- <-]. constructor.
Qed.

Lemma fallback_analyzeFile_wf env content path lang :
  yields_wf (FallbackAnalyzer.analyzeFileWithGemini env content path lang).
Proof.
  intros w l w'. unfold FallbackAnalyzer.analyzeFileWithGemini.
  destruct (negb _); [intros [= <- <-]; constructor|].
  unfold try_catch, bind.
  destruct (FallbackAnalyzer.retryWithBackoff _ _ _ w) as [[resp|e] w1].
  - intros [= <- <-]. apply issues_of_response_wf.
  - intros [= <- <-]. constructor.
Qed.

Lemma pylint_issue_wf relativePath issue i :
  Js.wf issue -> FallbackAnalyzer.pylint_issue relativePath issue = Some i ->
  Issue.wf i.
Proof.
  intros Hwf. unfold FallbackAnalyzer.pylint_issue.
  destruct issue; try discriminate;
    repeat case_match; try discriminate; intros [= <-];
    (repeat split; try reflexivity; simpl;
     apply or_else_wf; try reflexivity; intros x Hx; by eapply wf_get).
Qed.

Lemma pylint_loop_wf relativePath l :
  Forall Js.wf l -> Forall Issue.wf (FallbackAnalyzer.pylint_loop relativePath l).
Proof.
  induction 1 as [|x l Hx _ IH]; simpl; [constructor|].
  destruct (FallbackAnalyzer.pylint_issue relativePath x) as [i|] eqn:E; [|constructor].
  constructor; [by eapply pylint_issue_wf|exact IH].
Qed.

Lemma iterate_wf v : Js.wf v -> Forall Js.wf (FallbackAnalyzer.iterate v).
Proof.
  destruct v; simpl; try constructor.
  - intros _. apply Forall_map. apply Forall_forall. reflexivity.
  - apply wf_Arr_inv.
Qed.

Lemma analyzePythonWithPylint_wf env files baseDir :
  Forall Issue.wf (FallbackAnalyzer.analyzePythonWithPylint env files baseDir).
Proof.
  induction files as [|file rest IH]; simpl; [constructor|].
  apply Forall_app. split; [|exact IH].
  destruct (exec_pylint env file) as [[stdout stderr]|e]; [|constructor].
  destruct (String.eqb _ _); [constructor|].
  destruct (Js.parse stdout) as [v|] eqn:E; [|constructor].
  apply pylint_loop_wf, iterate_wf. by eapply parse_wf.
Qed.

Lemma pyflakes_issue_wf relativePath line :
  Forall Issue.wf (FallbackAnalyzer.pyflakes_issue relativePath line).
Proof.
  unfold FallbackAnalyzer.pyflakes_issue.
  destruct (FallbackAnalyzer.match_line line) as [[ds m]|]; [|constructor].
  repeat constructor.
Qed.

Lemma analyzePythonWithPyflakes_wf env files baseDir :
  Forall Issue.wf (FallbackAnalyzer.analyzePythonWithPyflakes env files baseDir).
Proof.
  induction files as [|file rest IH]; simpl; [constructor|].
  apply Forall_app. split; [|exact IH].
  destruct (exec_pyflakes env file) as [[stdout stderr]|e]; [|constructor].
  apply Forall_flat_map. apply Forall_forall. intros line _.
  apply pyflakes_issue_wf.
Qed.

Lemma dedup_wf seen candidates :
  Forall Issue.wf candidates -> yields_wf (FallbackAnalyzer.dedup seen candidates).
Proof.
  intros H. revert seen. induction H as [|i rest Hi _ IH]; intros seen w l w'; simpl.
  - intros [= <- <-]. constructor.
  - destruct (FallbackAnalyzer.issue_key i) as [key|]; [|discriminate].
    destruct (bool_decide _); [apply IH|].
    intros Hb. apply bind_Ok in Hb as (more & w1 & Hmore & Hb).
    injection Hb as <- <-. constructor; [done|]. by eapply IH.
Qed.

Lemma fallback_analyzePythonFiles_wf env files baseDir :
  yields_wf (FallbackAnalyzer.analyzePythonFiles env files baseDir).
Proof.
  intros w l w' H. unfold FallbackAnalyzer.analyzePythonFiles in H.
  apply bind_Ok in H as (issues & w1 & Hai & H).
  assert (Hissues : Forall Issue.wf issues).
  { destruct (FallbackAnalyzer.has_ai env); [|by injection Hai as <- <-].
    unfold try_catch in Hai.
    destruct (analyzeFilesWithGemini _ _ _ _ _ w) as [[l0|e] w0] eqn:Hg.
    - injection Hai as <- <-.
      eapply analyzeFilesWithGemini_wf; [|exact Hg].
      intros. apply fallback_analyzeFile_wf.
    - by injection Hai as <- <-. }
  destruct issues as [|i issues]; [|by injection H as <- <-].
  eapply dedup_wf; [|exact H].
  apply Forall_app. split;
    [apply analyzePythonWithPylint_wf|apply analyzePythonWithPyflakes_wf].
Qed.

Lemma when_nonempty_wf files analyze tempDir :
  (forall fs dir, yields_wf (analyze fs dir)) ->
  yields_wf (when_nonempty files analyze tempDir).
Proof.
  intros H. unfold when_nonempty. destruct files; [|apply H].
  apply yields_wf_ret. constructor.
Qed.

Lemma Forall_filter_wf (p : Issue.t -> bool) l :
  Forall Issue.wf l -> Forall Issue.wf (List.filter p l).
Proof.
  induction 1 as [|i l Hi _ IH]; simpl; [constructor|].
  destruct (p i); [by constructor|done].
Qed.

(** The issues of a result of [analyzeCode], in either version, hold values
    as the runtime holds them. *)
Lemma analyzeCode_issues_wf v env requestId zip url mode w r w' :
  analyzeCode_of v env requestId zip url mode w = (Ok r, w') ->
  Forall Issue.wf r.(AnalysisResult.issues).
Proof.
  intros H.
  assert (Hall : forall py js ts : list Issue.t,
    Forall Issue.wf py -> Forall Issue.wf js -> Forall Issue.wf ts ->
    Forall Issue.wf
      (if String.eqb mode "quick"
       then List.filter critical_or_major (py ++ js ++ ts)
       else (py ++ js ++ ts)%list)).
  { intros py js ts Hpy Hjs Hts.
    assert (Forall Issue.wf (py ++ js ++ ts)) by (rewrite !Forall_app; done).
    destruct (String.eqb mode "quick"); [by apply Forall_filter_wf|done]. }
  destruct v; apply analyzeCode_Ok in H
    as (tempDir & w0 & w1 & py & w2 & js & w3 & ts & w4 & H);
    cbv zeta in H;
    destruct H as (_ & _ & Hpy & Hjs & Hts & _ & -> & _);
    apply Hall.
  - eapply when_nonempty_wf; [|exact Hpy]. intros.
    apply analyzeFilesWithGemini_wf. intros. apply server_analyzeFile_wf.
  - eapply when_nonempty_wf; [|exact Hjs]. intros.
    apply analyzeFilesWithGemini_wf. intros. apply server_analyzeFile_wf.
  - eapply when_nonempty_wf; [|exact Hts]. intros.
    apply analyzeFilesWithGemini_wf. intros. apply server_analyzeFile_wf.
  - eapply when_nonempty_wf; [|exact Hpy]. intros.
    apply fallback_analyzePythonFiles_wf.
  - eapply when_nonempty_wf; [|exact Hjs]. intros.
    apply analyzeFilesWithGemini_wf. intros. apply fallback_analyzeFile_wf.
  - eapply when_nonempty_wf; [|exact Hts]. intros.
    apply analyzeFilesWithGemini_wf. intros. apply fallback_analyzeFile_wf.
Qed.

(** So the document written for a result of [analyzeCode] parses back to
    the result. *)
Lemma generateJSON_of_analysis v env requestId zip url mode w r w' :
  analyzeCode_of v env requestId zip url mode w = (Ok r, w') ->
  Js.parse (generateJSON (AnalysisResult.to_js r)) = Some (AnalysisResult.to_js r).
Proof.
  intros H. unfold generateJSON. rewrite parse_stringify. f_equal.
  apply AnalysisResult_to_js_wf. by eapply analyzeCode_issues_wf.
Qed.
End issues_wf.

(** C8: the document [generateJSON] writes for an AnalysisResult parses, and
    serializing the parsed value the same way gives the same document. *)
Theorem generateJSON_reserializes (r : Analyzer.AnalysisResult.t) :
  Forall Analyzer.Issue.wf r.(Analyzer.AnalysisResult.issues) ->
  exists v,
    Js.parse (Analyzer.generateJSON (Analyzer.AnalysisResult.to_js r)) = Some v
    /\ Analyzer.generateJSON v
       = Analyzer.generateJSON (Analyzer.AnalysisResult.to_js r).
Proof.
  intros Hwf. exists (Analyzer.AnalysisResult.to_js r).
  split; [|reflexivity].
  unfold Analyzer.generateJSON. rewrite parse_stringify.
  f_equal. by apply AnalysisResult_to_js_wf.
Qed.

Lemma generateJSON_reserializes_witness :
  Forall Analyzer.Issue.wf Example.result.(Analyzer.AnalysisResult.issues)
  /\ exists v,
       Js.parse (Analyzer.generateJSON (Analyzer.AnalysisResult.to_js Example.result))
         = Some v
       /\ Analyzer.generateJSON v
          = Analyzer.generateJSON (Analyzer.AnalysisResult.to_js Example.result).
Proof.
  assert (H : Forall Analyzer.Issue.wf Example.result.(Analyzer.AnalysisResult.issues)).
  { repeat constructor. }
  split; [exact H|].
  exact (generateJSON_reserializes Example.result H).
Defined.

(** * Further properties *)

(** * The store and the routes beyond the claims *)

(** ** MemStorage *)

(** What an update leaves of the job it finds under a key. *)
Lemma updateJobStatus_lookup job_id st res now (jobs : gmap string AnalysisJob) k job' :
  (MemStorage.updateJobStatus job_id st res now jobs).2 !! k = Some job' ->
  exists job,
    jobs !! k = Some job
    /\ job'.(id) = job.(id) /\ job'.(createdAt) = job.(createdAt)
    /\ job'.(repoUrl) = job.(repoUrl) /\ job'.(analysisMode) = job.(analysisMode)
    /\ (job' = job
        \/ (k = job_id /\ job'.(status) = st /\ job'.(updatedAt) = now
            /\ job'.(results) = match res with
                                | Some r => Some r
                                | None => job.(results)
                                end)).
Proof.
  unfold MemStorage.updateJobStatus.
  destruct (jobs !! job_id) as [job|] eqn:Hjob; simpl.
  - destruct (decide (k = job_id)) as [->|Hne].
    + rewrite lookup_insert_eq. intros [= <-]. exists job. simpl.
      split; [exact Hjob|]. do 4 (split; [reflexivity|]). right. auto.
    + rewrite lookup_insert_ne by done. intros Hk. exists job'.
      repeat split; auto.
  - intros Hk. exists job'. repeat split; auto.
Qed.

Lemma string_length_append (a b : string) :
  String.length (a ++ b) = (String.length a + String.length b)%nat.
Proof. induction a as [|c a IH]; simpl; [reflexivity|]. by rewrite IH. Qed.

Lemma substring_length_le n m (str : string) :
  (String.length (substring n m str) <= m)%nat.
Proof.
  revert n m. induction str as [|c str IH]; intros n m.
  - destruct n, m; simpl; lia.
  - destruct n as [|n].
    + destruct m as [|m]; simpl; [lia|]. specialize (IH 0%nat m). lia.
    + simpl. apply IH.
Qed.

(** X1: [createJob] files the new job under ["req-"] followed by the first
    eight characters of the UUID, an identifier of twelve characters at
    most; the job is [pending], both its timestamps are the time of
    creation and it has no results; [getJob] on its identifier returns it,
    and every other identifier reads as before. *)
Theorem createJob_then_getJob uuid now data (jobs : gmap string AnalysisJob) :
  let r := MemStorage.createJob uuid now data jobs in
  r.1 = {| id := "req-" ++ substring 0 8 uuid; status := pending;
           createdAt := now; updatedAt := now;
           repoUrl := ins_repoUrl data;
           analysisMode := ins_analysisMode data; results := None |}
  /\ (String.length r.1.(id) <= 12)%nat
  /\ MemStorage.getJob r.1.(id) r.2 = Some r.1
  /\ forall k, k <> r.1.(id) ->
       MemStorage.getJob k r.2 = MemStorage.getJob k jobs.
Proof.
  intros r. subst r. unfold MemStorage.createJob, MemStorage.getJob. simpl.
  split; [reflexivity|]. split.
  - pose proof (substring_length_le 0 8 uuid).
    change ("" +:+ substring 0 8 uuid) with (substring 0 8 uuid). lia.
  - split; [apply lookup_insert_eq|].
    intros k Hk. by rewrite lookup_insert_ne.
Qed.

(** X2: what [updateJobStatus] does to the store.  It never adds a job and
    never removes one.  When no job has the identifier it returns
    [undefined] and the store is as it was.  On a job it finds it returns
    the updated job, which [getJob] reads afterwards: the status and the
    time of update are the new ones, the results are the ones given ([null]
    included) or, when none are given, the ones the job had; the
    identifier, the time of creation, the repository URL and the analysis
    mode stay, and no other job is touched. *)
Theorem updateJobStatus_effect job_id st res now (jobs : gmap string AnalysisJob) :
  let r := MemStorage.updateJobStatus job_id st res now jobs in
  (forall k, is_Some (MemStorage.getJob k r.2) <-> is_Some (MemStorage.getJob k jobs))
  /\ (forall k, k <> job_id -> MemStorage.getJob k r.2 = MemStorage.getJob k jobs)
  /\ MemStorage.getJob job_id r.2 = r.1
  /\ match MemStorage.getJob job_id jobs with
     | None => r = (None, jobs)
     | Some job =>
         r.1 = Some {| id := job.(id); status := st;
                       createdAt := job.(createdAt); updatedAt := now;
                       repoUrl := job.(repoUrl);
                       analysisMode := job.(analysisMode);
                       results := match res with
                                  | Some v => Some v
                                  | None => job.(results)
                                  end |}
     end.
Proof.
  intros r. subst r. unfold MemStorage.updateJobStatus, MemStorage.getJob.
  destruct (jobs !! job_id) as [job|] eqn:Hjob; cbn [fst snd].
  - split.
    { intros k. destruct (decide (k = job_id)) as [->|Hne].
      - rewrite lookup_insert_eq, Hjob. split; eauto.
      - by rewrite lookup_insert_ne. }
    split; [intros k Hk; by rewrite lookup_insert_ne|].
    split; [apply lookup_insert_eq|reflexivity].
  - split; [done|]. split; [done|]. split; [exact Hjob|reflexivity].
Qed.

(** X3: two UUIDs that agree on their first eight characters give the same
    job identifier, and the second [createJob] replaces the job of the
    first: whatever the first job had become, [getJob] then returns the
    new pending job. *)
Theorem createJob_replaces_job_with_same_prefix uuid1 uuid2 now1 now2
    data1 data2 st res now (jobs : gmap string AnalysisJob) :
  substring 0 8 uuid1 = substring 0 8 uuid2 ->
  let first := MemStorage.createJob uuid1 now1 data1 jobs in
  let updated := MemStorage.updateJobStatus first.1.(id) st res now first.2 in
  let second := MemStorage.createJob uuid2 now2 data2 updated.2 in
  second.1.(id) = first.1.(id)
  /\ MemStorage.getJob first.1.(id) second.2 =
       Some {| id := first.1.(id); status := pending;
               createdAt := now2; updatedAt := now2;
               repoUrl := ins_repoUrl data2;
               analysisMode := ins_analysisMode data2; results := None |}.
Proof.
  intros Hprefix first updated second. subst first updated second.
  unfold MemStorage.createJob, MemStorage.getJob. simpl.
  rewrite Hprefix. split; [reflexivity|]. apply lookup_insert_eq.
Qed.

Lemma createJob_replaces_job_with_same_prefix_witness :
  let uuid2 := "123e4567-0000-4000-8000-000000000000" in
  substring 0 8 Example.uuid = substring 0 8 uuid2
  /\ Example.uuid <> uuid2
  /\ MemStorage.getJob Example.job_id
       (MemStorage.createJob uuid2 (Example.t0 + 60000)
          {| ins_repoUrl := Some "https://github.com/octocat/Hello-World";
             ins_analysisMode := deep |}
          (MemStorage.updateJobStatus Example.job_id completed
             (Some (Js.Obj [])) (Example.t0 + 4000)
             (MemStorage.createJob Example.uuid Example.t0
                {| ins_repoUrl := None; ins_analysisMode := standard |}
                MemStorage.empty).2).2).2
     = Some {| id := Example.job_id; status := pending;
               createdAt := Example.t0 + 60000; updatedAt := Example.t0 + 60000;
               repoUrl := Some "https://github.com/octocat/Hello-World";
               analysisMode := deep; results := None |}.
Proof.
  split; [reflexivity|]. split; [discriminate|].
  exact (proj2 (createJob_replaces_job_with_same_prefix Example.uuid
                  "123e4567-0000-4000-8000-000000000000"
                  Example.t0 (Example.t0 + 60000)
                  {| ins_repoUrl := None; ins_analysisMode := standard |}
                  {| ins_repoUrl := Some "https://github.com/octocat/Hello-World";
                     ins_analysisMode := deep |}
                  completed (Some (Js.Obj [])) (Example.t0 + 4000)
                  MemStorage.empty eq_refl)).
Defined.

(** ** The handlers *)

(** What [/api/analyze] does with a request it accepts. *)
Lemma post_api_analyze_accepted cfg data file uuid t1 t2 s :
  is_Some file \/ is_Some (Routes.supplied_url data) ->
  let new_id := "req-" ++ substring 0 8 uuid in
  Routes.post_api_analyze cfg (Routes.ParseSuccess data) file uuid t1 t2 s
  = ({| Routes.code := 200; Routes.body := Routes.BRequestId new_id |},
     if negb (String.eqb cfg.(Routes.N8N_WEBHOOK) "") then
       {| Routes.jobs := <[new_id := accepted_job data uuid t1 t2]> s.(Routes.jobs);
          Routes.running := s.(Routes.running);
          Routes.webhook_posts :=
            s.(Routes.webhook_posts) ++
            [{| Routes.form_request_id := new_id;
                Routes.form_analysis_mode := data.(Routes.analysis_mode);
                Routes.form_repo_url := default "" (Routes.supplied_url data);
                Routes.form_callback_url :=
                  cfg.(Routes.EXTERNAL_BASE) ++ "/api/callback";
                Routes.form_callback_secret := cfg.(Routes.CALLBACK_SECRET);
                Routes.form_code_zip := file |}] |}
     else
       {| Routes.jobs := <[new_id := accepted_job data uuid t1 t2]> s.(Routes.jobs);
          Routes.running :=
            s.(Routes.running) ++
            [{| Routes.task_id := new_id;
                Routes.task_zip := Routes.buffer <$> file;
                Routes.task_repoUrl := Routes.supplied_url data;
                Routes.task_mode := data.(Routes.analysis_mode) |}];
          Routes.webhook_posts := s.(Routes.webhook_posts) |}).
Proof.
  intros Hsome new_id. unfold Routes.post_api_analyze.
  fold (Routes.supplied_url data).
  assert (Hjobs :
    (MemStorage.updateJobStatus new_id processing None t2
       (<[new_id := {| id := new_id; status := pending; createdAt := t1;
                       updatedAt := t1; repoUrl := Routes.supplied_url data;
                       analysisMode := data.(Routes.analysis_mode);
                       results := None |}]> s.(Routes.jobs))).2
    = <[new_id := accepted_job data uuid t1 t2]> s.(Routes.jobs)).
  { erewrite updateJobStatus_found by apply lookup_insert_eq. simpl.
    by rewrite insert_insert_eq. }
  destruct file as [f|], (Routes.supplied_url data) as [u|] eqn:Hu;
    try (destruct Hsome as [[? [=]]|[? [=]]]; fail);
    unfold MemStorage.createJob; cbv beta iota zeta; fold new_id;
    cbn [id];
    destruct (MemStorage.updateJobStatus new_id processing None t2 _)
      as [o jobs2] eqn:Hupd; simpl in Hjobs; subst jobs2;
    destruct (negb _); reflexivity.
Qed.

(** What [/api/analyze] does with a request it turns down. *)
Lemma post_api_analyze_rejected cfg parsed file uuid t1 t2 s :
  match parsed with
  | Routes.ParseFailure => True
  | Routes.ParseSuccess data => file = None /\ Routes.supplied_url data = None
  end ->
  (Routes.post_api_analyze cfg parsed file uuid t1 t2 s).2 = s
  /\ (Routes.post_api_analyze cfg parsed file uuid t1 t2 s).1.(Routes.code) = 400.
Proof.
  unfold Routes.post_api_analyze. destruct parsed as [|data]; [done|].
  fold (Routes.supplied_url data). intros [-> ->]. done.
Qed.

(** A request to [/api/analyze] is accepted or turned down. *)
Lemma post_api_analyze_cases parsed (file : option Routes.UploadedFile) :
  (exists data, parsed = Routes.ParseSuccess data
                /\ (is_Some file \/ is_Some (Routes.supplied_url data)))
  \/ match parsed with
     | Routes.ParseFailure => True
     | Routes.ParseSuccess data => file = None /\ Routes.supplied_url data = None
     end.
Proof.
  destruct parsed as [|data]; [by right|].
  destruct file as [f|]; [left; eauto|].
  destruct (Routes.supplied_url data) as [u|] eqn:Hu; [|by right].
  left. exists data. rewrite Hu. eauto.
Qed.

(** What [/api/callback] does to the store. *)
Lemma post_api_callback_cases cfg parsed now s :
  Routes.post_api_callback cfg parsed now s
  = match parsed with
    | Routes.ParseFailure =>
        ({| Routes.code := 400;
            Routes.body := Routes.BInvalid "Invalid callback payload" |}, s)
    | Routes.ParseSuccess p =>
        if negb (String.eqb p.(callback_secret) cfg.(Routes.CALLBACK_SECRET)) then
          ({| Routes.code := 401;
              Routes.body := Routes.BMessage "Invalid callback secret" |}, s)
        else
          match s.(Routes.jobs) !! p.(request_id) with
          | None =>
              ({| Routes.code := 404;
                  Routes.body := Routes.BMessage "Job not found" |}, s)
          | Some job =>
              ({| Routes.code := 200; Routes.body := Routes.BSuccess |},
               Routes.with_jobs s
                 (MemStorage.updateJobStatus p.(request_id)
                    (if String.eqb p.(cb_status) "completed" then completed
                     else if String.eqb p.(cb_status) "failed" then failed
                     else job.(status))
                    p.(cb_results) now s.(Routes.jobs)).2)
          end
    end.
Proof.
  unfold Routes.post_api_callback. destruct parsed as [|p]; [done|].
  destruct (negb _); [done|]. unfold MemStorage.getJob.
  destruct (Routes.jobs s !! request_id p) as [job|]; [|done].
  by destruct (MemStorage.updateJobStatus _ _ _ _ _).
Qed.

(** Where a job of the store after a step comes from: it was there, with
    the same identity, and has its old status or a final one; or the step is
    an accepted request to [/api/analyze] and the job is its new job. *)
Lemma step_lookup cfg s ev k job' :
  (Routes.step cfg s ev).(Routes.jobs) !! k = Some job' ->
  (exists job,
     s.(Routes.jobs) !! k = Some job
     /\ job'.(id) = job.(id) /\ job'.(createdAt) = job.(createdAt)
     /\ job'.(repoUrl) = job.(repoUrl) /\ job'.(analysisMode) = job.(analysisMode)
     /\ (job'.(status) = job.(status) \/ job'.(status) = completed
         \/ job'.(status) = failed))
  \/ (exists data file uuid t1 t2,
        ev = Routes.Analyze (Routes.ParseSuccess data) file uuid t1 t2
        /\ k = "req-" ++ substring 0 8 uuid
        /\ job' = accepted_job data uuid t1 t2).
Proof.
  assert (Hkeep : forall job, s.(Routes.jobs) !! k = Some job ->
    s.(Routes.jobs) !! k = Some job
    /\ job.(id) = job.(id) /\ job.(createdAt) = job.(createdAt)
    /\ job.(repoUrl) = job.(repoUrl) /\ job.(analysisMode) = job.(analysisMode)
    /\ (job.(status) = job.(status) \/ job.(status) = completed
        \/ job.(status) = failed)) by (intros; repeat split; auto).
  assert (Hupd : forall job_id st res now,
    (st = completed \/ st = failed
     \/ exists target, s.(Routes.jobs) !! job_id = Some target
                       /\ st = target.(status)) ->
    (MemStorage.updateJobStatus job_id st res now s.(Routes.jobs)).2 !! k = Some job' ->
    exists job,
      s.(Routes.jobs) !! k = Some job
      /\ job'.(id) = job.(id) /\ job'.(createdAt) = job.(createdAt)
      /\ job'.(repoUrl) = job.(repoUrl) /\ job'.(analysisMode) = job.(analysisMode)
      /\ (job'.(status) = job.(status) \/ job'.(status) = completed
          \/ job'.(status) = failed)).
  { intros job_id st res now Hst Hl.
    apply updateJobStatus_lookup in Hl
      as (job & Hk & Hid & Hc & Hr & Hm & Hcase).
    exists job. do 5 (split; [assumption|]).
    destruct Hcase as [->|(-> & Hs & _)]; [by left|].
    rewrite Hs. destruct Hst as [->|[->|(target & Ht & ->)]]; auto.
    left. congruence. }
  destruct ev as [parsed file uuid t1 t2|parsed now|i env now]; simpl.
  - destruct (post_api_analyze_cases parsed file) as [(data & -> & Hacc)|Hrej].
    + rewrite post_api_analyze_accepted by done. simpl.
      destruct (decide (k = "req-" ++ substring 0 8 uuid)) as [->|Hne].
      * intros Hl. right. exists data, file, uuid, t1, t2.
        split; [reflexivity|]. split; [reflexivity|].
        destruct (negb _); simpl in Hl; rewrite lookup_insert_eq in Hl; congruence.
      * intros Hl. left. exists job'. apply Hkeep.
        destruct (negb _); simpl in Hl; by rewrite lookup_insert_ne in Hl.
    + rewrite (proj1 (post_api_analyze_rejected cfg parsed file uuid t1 t2 s Hrej)).
      intros Hl. left. exists job'. by apply Hkeep.
  - rewrite post_api_callback_cases. destruct parsed as [|p]; simpl.
    { intros Hl. left. exists job'. by apply Hkeep. }
    destruct (negb _); simpl.
    { intros Hl. left. exists job'. by apply Hkeep. }
    destruct (Routes.jobs s !! request_id p) as [target|] eqn:Ht; simpl.
    2:{ intros Hl. left. exists job'. by apply Hkeep. }
    intros Hl. left. eapply Hupd; [|exact Hl].
    repeat case_match; eauto.
  - destruct (Routes.running s !! i) as [task|]; simpl.
    2:{ intros Hl. left. exists job'. by apply Hkeep. }
    unfold Routes.settle. destruct (Routes.run_analysis env task); intros Hl;
      left; (eapply Hupd; [|exact Hl]); auto.
Qed.

(** A property of the server that every step keeps holds after every run. *)
Lemma run_invariant cfg (P : Routes.Server -> Prop) :
  (forall s ev, P s -> P (Routes.step cfg s ev)) ->
  forall evs s, P s -> P (Routes.run cfg s evs).
Proof.
  intros Hstep. induction evs as [|ev evs IH]; intros s Hs; [exact Hs|].
  simpl. apply IH, Hstep, Hs.
Qed.

(** X4: in every state the server reaches, each job is filed under its own
    identifier, and that identifier is ["req-"] followed by the first eight
    characters of a UUID. *)
Theorem job_is_filed_under_its_id cfg evs k job :
  (Routes.run cfg Routes.init evs).(Routes.jobs) !! k = Some job ->
  job.(id) = k /\ exists uuid, k = "req-" ++ substring 0 8 uuid.
Proof.
  revert k job.
  apply (run_invariant cfg (fun s => forall k job,
    s.(Routes.jobs) !! k = Some job ->
    job.(id) = k /\ exists uuid, k = "req-" ++ substring 0 8 uuid)).
  - intros s ev IH k job' Hl.
    apply step_lookup in Hl
      as [(job & Hk & Hid & _)|(data & file & uuid & t1 & t2 & _ & -> & ->)].
    + rewrite Hid. by apply IH.
    + split; [reflexivity|eauto].
  - intros k job Hl. simpl in Hl. unfold MemStorage.empty in Hl.
    by rewrite lookup_empty in Hl.
Qed.

Lemma job_is_filed_under_its_id_witness :
  exists job,
    (Routes.run Example.cfg Routes.init
       [Example.submit; Routes.Settled 0 Example.env (Example.t0 + 4000)]).(Routes.jobs)
      !! Example.job_id = Some job
    /\ job.(id) = Example.job_id.
Proof.
  eexists. split; [reflexivity|].
  refine (proj1 (job_is_filed_under_its_id Example.cfg
            [Example.submit; Routes.Settled 0 Example.env (Example.t0 + 4000)]
            Example.job_id _ _)).
  reflexivity.
Defined.

(** X5: no handler leaves a job [pending]: in every state the server
    reaches, each job is [processing], [completed] or [failed]. *)
Theorem no_job_is_left_pending cfg evs k job :
  (Routes.run cfg Routes.init evs).(Routes.jobs) !! k = Some job ->
  job.(status) <> pending.
Proof.
  revert k job.
  apply (run_invariant cfg (fun s => forall k job,
    s.(Routes.jobs) !! k = Some job -> job.(status) <> pending)).
  - intros s ev IH k job' Hl.
    apply step_lookup in Hl
      as [(job & Hk & _ & _ & _ & _ & Hst)|(data & file & uuid & t1 & t2 & _ & _ & ->)].
    + destruct Hst as [->|[->| ->]]; [by eapply IH|done|done].
    + done.
  - intros k job Hl. simpl in Hl. unfold MemStorage.empty in Hl.
    by rewrite lookup_empty in Hl.
Qed.

Lemma no_job_is_left_pending_witness :
  exists job,
    (Routes.run Example.cfg Routes.init [Example.submit]).(Routes.jobs)
      !! Example.job_id = Some job
    /\ job.(status) = processing /\ job.(status) <> pending.
Proof.
  eexists. split; [reflexivity|]. split; [reflexivity|].
  refine (no_job_is_left_pending Example.cfg [Example.submit] Example.job_id _ _).
  reflexivity.
Defined.

(** X6: as long as every new job gets an identifier not in use, a job keeps
    its identifier, its time of creation, its repository URL and its
    analysis mode through everything the server does. *)
Theorem job_identity_is_kept cfg evs s k job :
  Routes.all_fresh cfg s evs ->
  s.(Routes.jobs) !! k = Some job ->
  exists job',
    (Routes.run cfg s evs).(Routes.jobs) !! k = Some job'
    /\ job'.(id) = job.(id) /\ job'.(createdAt) = job.(createdAt)
    /\ job'.(repoUrl) = job.(repoUrl)
    /\ job'.(analysisMode) = job.(analysisMode).
Proof.
  revert s job. induction evs as [|ev evs IH]; intros s job Hfresh Hk.
  - exists job. auto.
  - destruct Hfresh as [Hf Hrest]. simpl.
    destruct (step_stage cfg s ev k job Hf Hk) as (job1 & Hk1 & _).
    destruct (IH _ job1 Hrest Hk1) as (job' & Hk' & Hid & Hc & Hr & Hm).
    exists job'. split; [exact Hk'|].
    apply step_lookup in Hk1
      as [(job0 & Hk0 & Hid0 & Hc0 & Hr0 & Hm0 & _)
         |(data & file & uuid & t1 & t2 & -> & -> & _)].
    + assert (job0 = job) by congruence. subst job0.
      repeat split; congruence.
    + simpl in Hf. congruence.
Qed.

Lemma job_identity_is_kept_witness :
  Routes.all_fresh Example.cfg Example.submitted
    [Routes.Settled 0 Example.env (Example.t0 + 4000);
     Routes.Callback (Routes.ParseSuccess (Example.callback "failed" None))
       (Example.t0 + 5000)]
  /\ exists job',
       (Routes.run Example.cfg Example.submitted
          [Routes.Settled 0 Example.env (Example.t0 + 4000);
           Routes.Callback (Routes.ParseSuccess (Example.callback "failed" None))
             (Example.t0 + 5000)]).(Routes.jobs) !! Example.job_id = Some job'
       /\ job'.(createdAt) = Example.t0 /\ job'.(analysisMode) = standard.
Proof.
  split; [simpl; done|].
  destruct (job_identity_is_kept Example.cfg
              [Routes.Settled 0 Example.env (Example.t0 + 4000);
               Routes.Callback (Routes.ParseSuccess (Example.callback "failed" None))
                 (Example.t0 + 5000)]
              Example.submitted Example.job_id
              {| id := Example.job_id; status := processing;
                 createdAt := Example.t0; updatedAt := Example.t0;
                 repoUrl := None; analysisMode := standard; results := None |})
    as (job' & Hk & _ & Hc & _ & Hm).
  - simpl; done.
  - reflexivity.
  - exists job'. auto.
Defined.

Lemma updateJobStatus_is_Some job_id st res now (jobs : gmap string AnalysisJob) k :
  is_Some (jobs !! k) ->
  is_Some ((MemStorage.updateJobStatus job_id st res now jobs).2 !! k).
Proof.
  intros Hk. unfold MemStorage.updateJobStatus.
  destruct (jobs !! job_id) as [job|] eqn:Hjob; simpl; [|done].
  destruct (decide (k = job_id)) as [->|Hne].
  - rewrite lookup_insert_eq. eauto.
  - by rewrite lookup_insert_ne.
Qed.

(** A step keeps every job in the store. *)
Lemma step_is_Some cfg s ev k :
  is_Some (s.(Routes.jobs) !! k) ->
  is_Some ((Routes.step cfg s ev).(Routes.jobs) !! k).
Proof.
  intros Hk. destruct ev as [parsed file uuid t1 t2|parsed now|i env now]; simpl.
  - destruct (post_api_analyze_cases parsed file) as [(data & -> & Hacc)|Hrej].
    + rewrite post_api_analyze_accepted by done. simpl.
      destruct (negb _); simpl;
        (destruct (decide (k = "req-" ++ substring 0 8 uuid)) as [->|Hne];
         [rewrite lookup_insert_eq; eauto|by rewrite lookup_insert_ne]).
    + by rewrite (proj1 (post_api_analyze_rejected cfg parsed file uuid t1 t2 s Hrej)).
  - rewrite post_api_callback_cases. destruct parsed as [|p]; simpl; [done|].
    destruct (negb _); simpl; [done|].
    destruct (Routes.jobs s !! request_id p); simpl; [|done].
    by apply updateJobStatus_is_Some.
  - destruct (Routes.running s !! i) as [task|]; simpl; [|done].
    unfold Routes.settle. destruct (Routes.run_analysis env task);
      by apply updateJobStatus_is_Some.
Qed.

Lemma elem_of_take_drop {A} (l : list A) i x :
  x ∈ (take i l ++ drop (S i) l)%list -> x ∈ l.
Proof.
  rewrite elem_of_app. intros [H|H].
  - rewrite <- (take_drop i l). apply elem_of_app. by left.
  - rewrite <- (take_drop (S i) l). apply elem_of_app. by right.
Qed.

(** X7: every analysis the server has in flight belongs to a job of the
    store, so the update that ends it finds its job. *)
Theorem running_analysis_has_its_job cfg evs task :
  task ∈ (Routes.run cfg Routes.init evs).(Routes.running) ->
  is_Some ((Routes.run cfg Routes.init evs).(Routes.jobs) !! task.(Routes.task_id)).
Proof.
  revert task.
  apply (run_invariant cfg (fun s => forall task,
    task ∈ s.(Routes.running) ->
    is_Some (s.(Routes.jobs) !! task.(Routes.task_id)))).
  - intros s ev IH task Hin.
    destruct ev as [parsed file uuid t1 t2|parsed now|i env now].
    + simpl in *.
      destruct (post_api_analyze_cases parsed file) as [(data & -> & Hacc)|Hrej].
      * rewrite post_api_analyze_accepted in * by done. simpl in *.
        destruct (negb _); simpl in *.
        -- destruct (decide (task.(Routes.task_id) = "req-" ++ substring 0 8 uuid))
             as [->|Hne]; [rewrite lookup_insert_eq; eauto|].
           rewrite lookup_insert_ne by done. by apply IH.
        -- apply elem_of_app in Hin as [Hin|Hin].
           ++ destruct (decide (task.(Routes.task_id) = "req-" ++ substring 0 8 uuid))
                as [->|Hne]; [rewrite lookup_insert_eq; eauto|].
              rewrite lookup_insert_ne by done. by apply IH.
           ++ apply list_elem_of_singleton in Hin. subst task. simpl.
              rewrite lookup_insert_eq. eauto.
      * rewrite (proj1 (post_api_analyze_rejected cfg parsed file uuid t1 t2 s Hrej)) in *.
        by apply IH.
    + apply step_is_Some. apply IH.
      simpl in Hin. rewrite post_api_callback_cases in Hin.
      destruct parsed as [|p]; simpl in Hin; [done|].
      destruct (negb _); simpl in Hin; [done|].
      by destruct (Routes.jobs s !! request_id p).
    + apply step_is_Some. apply IH.
      simpl in Hin. destruct (Routes.running s !! i) as [t|]; simpl in Hin; [|done].
      by eapply elem_of_take_drop.
  - intros task Hin. simpl in Hin. by apply elem_of_nil in Hin.
Qed.

Lemma running_analysis_has_its_job_witness :
  {| Routes.task_id := Example.job_id; Routes.task_zip := Some "PK";
     Routes.task_repoUrl := None; Routes.task_mode := standard |}
    ∈ (Routes.run Example.cfg Routes.init [Example.submit]).(Routes.running)
  /\ is_Some ((Routes.run Example.cfg Routes.init [Example.submit]).(Routes.jobs)
                !! Example.job_id).
Proof.
  assert (H : {| Routes.task_id := Example.job_id; Routes.task_zip := Some "PK";
                 Routes.task_repoUrl := None; Routes.task_mode := standard |}
              ∈ (Routes.run Example.cfg Routes.init [Example.submit]).(Routes.running)).
  { apply list_elem_of_singleton. reflexivity. }
  split; [exact H|].
  exact (running_analysis_has_its_job Example.cfg [Example.submit] _ H).
Defined.

(** X8: the server analyses in process or posts to the webhook, never
    both: with [N8N_WEBHOOK] set it never has an analysis in flight, and
    without it it never posts to the webhook. *)
Theorem webhook_or_in_process cfg evs :
  let s := Routes.run cfg Routes.init evs in
  (if String.eqb cfg.(Routes.N8N_WEBHOOK) "" then s.(Routes.webhook_posts) = []
   else s.(Routes.running) = []).
Proof.
  cbv zeta.
  apply (run_invariant cfg (fun s =>
    if String.eqb cfg.(Routes.N8N_WEBHOOK) "" then s.(Routes.webhook_posts) = []
    else s.(Routes.running) = [])).
  - intros s ev IH.
    destruct ev as [parsed file uuid t1 t2|parsed now|i env now]; simpl.
    + destruct (post_api_analyze_cases parsed file) as [(data & -> & Hacc)|Hrej].
      * rewrite post_api_analyze_accepted by done. simpl.
        destruct (String.eqb _ _); simpl; exact IH.
      * by rewrite (proj1 (post_api_analyze_rejected cfg parsed file uuid t1 t2 s Hrej)).
    + rewrite post_api_callback_cases. destruct parsed as [|p]; simpl; [done|].
      destruct (negb _); simpl; [done|].
      by destruct (Routes.jobs s !! request_id p).
    + destruct (Routes.running s !! i) as [task|] eqn:Hi; simpl; [|done].
      destruct (String.eqb _ _); [done|].
      rewrite IH in Hi. by rewrite lookup_nil in Hi.
  - by destruct (String.eqb _ _).
Qed.

(** X9: a callback whose secret is not the configured one gets 401 and
    changes nothing, whether its job exists or not; a callback with an
    empty secret is such a callback whatever the environment holds, since
    an unset or empty [CALLBACK_SECRET] gives the default secret. *)
Theorem callback_needs_the_configured_secret n8n secret base p now s :
  let cfg := Routes.config_of_env n8n secret base in
  p.(callback_secret) <> cfg.(Routes.CALLBACK_SECRET)
  \/ p.(callback_secret) = "" ->
  Routes.post_api_callback cfg (Routes.ParseSuccess p) now s
  = ({| Routes.code := 401;
        Routes.body := Routes.BMessage "Invalid callback secret" |}, s).
Proof.
  intros cfg Hsecret.
  assert (Hne : p.(callback_secret) <> cfg.(Routes.CALLBACK_SECRET)).
  { destruct Hsecret as [H|H]; [exact H|]. rewrite H. subst cfg. simpl.
    unfold Routes.env_or. destruct secret as [x|]; [|done].
    destruct (String.eqb x "") eqn:E; [done|].
    apply String.eqb_neq in E. congruence. }
  rewrite post_api_callback_cases.
  apply String.eqb_neq in Hne. by rewrite Hne.
Qed.

Lemma callback_needs_the_configured_secret_witness :
  (Example.callback "completed" None).(callback_secret)
    <> (Routes.config_of_env None (Some "s3cret") None).(Routes.CALLBACK_SECRET)
  /\ Routes.post_api_callback (Routes.config_of_env None (Some "s3cret") None)
       (Routes.ParseSuccess (Example.callback "completed" None))
       (Example.t0 + 1) Example.submitted
     = ({| Routes.code := 401;
           Routes.body := Routes.BMessage "Invalid callback secret" |},
        Example.submitted).
Proof.
  assert (H : (Example.callback "completed" None).(callback_secret)
    <> (Routes.config_of_env None (Some "s3cret") None).(Routes.CALLBACK_SECRET))
    by discriminate.
  split; [exact H|].
  exact (callback_needs_the_configured_secret None (Some "s3cret") None
           (Example.callback "completed" None) (Example.t0 + 1)
           Example.submitted (or_introl H)).
Defined.

(** X10: a callback answers 200, 400, 401 or 404; it changes nothing unless
    it answers 200, and then it leaves the analyses in flight, the POSTs
    made to the webhook and every job but the one it names as they were. *)
Theorem callback_touches_one_job cfg parsed now s :
  let r := Routes.post_api_callback cfg parsed now s in
  (r.1.(Routes.code) = 200 \/ r.1.(Routes.code) = 400
   \/ r.1.(Routes.code) = 401 \/ r.1.(Routes.code) = 404)
  /\ (r.1.(Routes.code) <> 200 -> r.2 = s)
  /\ r.2.(Routes.running) = s.(Routes.running)
  /\ r.2.(Routes.webhook_posts) = s.(Routes.webhook_posts)
  /\ forall k,
       match parsed with
       | Routes.ParseSuccess p => k <> p.(request_id)
       | Routes.ParseFailure => True
       end ->
       r.2.(Routes.jobs) !! k = s.(Routes.jobs) !! k.
Proof.
  intros r. subst r. rewrite post_api_callback_cases.
  destruct parsed as [|p]; simpl; [auto 10|].
  destruct (negb _); simpl; [auto 10|].
  destruct (Routes.jobs s !! request_id p) as [job|]; simpl; [|auto 10].
  split; [auto|]. split; [done|]. split; [done|]. split; [done|].
  intros k Hk. by apply updateJobStatus_other.
Qed.

(** X11: what the request schema makes of the two text fields of a request
    to [/api/analyze].  An [analysis_mode] other than the three modes, or a
    [repo_url] that is neither empty nor a URL, gets 400 and creates no
    job.  An accepted request files its job with the mode it names,
    [standard] when it names none, and with its [repo_url], none when that
    is empty or absent. *)
Theorem analyze_request_fields is_url cfg raw_mode raw_url file uuid t1 t2 s :
  let parsed := Routes.analyzeRequestSchema_safeParse is_url raw_mode raw_url in
  let r := Routes.post_api_analyze cfg parsed file uuid t1 t2 s in
  let mode := match raw_mode with
              | Some m => mode_of_string m
              | None => Some standard
              end in
  let url_ok := match raw_url with
                | Some u => is_url u || String.eqb u ""
                | None => true
                end in
  let url := match raw_url with
             | Some u => if String.eqb u "" then None else Some u
             | None => None
             end in
  match mode with
  | Some m =>
      if url_ok then
        match file, url with
        | None, None =>
            r = ({| Routes.code := 400;
                    Routes.body :=
                      Routes.BMessage "Either code_zip file or repo_url is required" |},
                 s)
        | _, _ =>
            r.1.(Routes.code) = 200
            /\ r.2.(Routes.jobs) !! ("req-" ++ substring 0 8 uuid)
               = Some {| id := "req-" ++ substring 0 8 uuid; status := processing;
                         createdAt := t1; updatedAt := t2;
                         repoUrl := url; analysisMode := m; results := None |}
        end
      else r = ({| Routes.code := 400;
                   Routes.body := Routes.BInvalid "Invalid request" |}, s)
  | None => r = ({| Routes.code := 400;
                    Routes.body := Routes.BInvalid "Invalid request" |}, s)
  end.
Proof.
  intros parsed r mode url_ok url.
  assert (Hparsed : parsed =
    match mode with
    | Some m =>
        if url_ok then
          Routes.ParseSuccess {| Routes.analysis_mode := m; Routes.repo_url := raw_url |}
        else Routes.ParseFailure
    | None => Routes.ParseFailure
    end).
  { subst parsed mode url_ok. unfold Routes.analyzeRequestSchema_safeParse, mode_of_string.
    destruct raw_mode as [m|], raw_url as [u|]; simpl;
      repeat (destruct (String.eqb _ _)); simpl; try reflexivity;
      destruct (is_url u); reflexivity. }
  subst r. rewrite Hparsed. clear Hparsed parsed.
  destruct mode as [m|]; [|reflexivity].
  destruct url_ok eqn:Hok; [|reflexivity].
  assert (Hurl : Routes.supplied_url
                   {| Routes.analysis_mode := m; Routes.repo_url := raw_url |} = url).
  { subst url. unfold Routes.supplied_url. simpl.
    destruct raw_url as [u|]; [|reflexivity].
    destruct u; reflexivity. }
  destruct file as [f|].
  - rewrite post_api_analyze_accepted by (left; eauto). simpl.
    rewrite <- Hurl. split; [reflexivity|].
    destruct (negb _); simpl; by rewrite lookup_insert_eq.
  - destruct url as [u|] eqn:Eu.
    + rewrite post_api_analyze_accepted by (right; rewrite Hurl; eauto). simpl.
      split; [reflexivity|].
      destruct (negb _); simpl; rewrite lookup_insert_eq;
        unfold accepted_job; by rewrite Hurl.
    + unfold Routes.post_api_analyze.
      fold (Routes.supplied_url {| Routes.analysis_mode := m; Routes.repo_url := raw_url |}).
      by rewrite Hurl.
Qed.

(** ** The result of an analysis *)
Section analyzeCode_inversion.
Import Analyzer.
Variable env : Env.
Variables aP aJ aT : list string -> string -> M (list Issue.t).
Variable rF : list string -> string -> list Issue.t -> M (list RefactoredFile.t).

(** A run of [analyzeCode] that returns, step by step, with the result it
    builds and the world it leaves. *)
Lemma analyzeCode_inv requestId zip url mode w r w' :
  analyzeCode env aP aJ aT rF requestId zip url mode w = (Ok r, w') ->
  exists tempDir w0 w1 py w2 js w3 ts w4 rf w5,
    let pyF := walk [".py"] tempDir w1.(fs) in
    let jsF := walk [".js"; ".jsx"; ".mjs"] tempDir w1.(fs) in
    let tsF := walk [".ts"; ".tsx"] tempDir w1.(fs) in
    let allIssues :=
      if String.eqb mode "quick"
      then List.filter critical_or_major (py ++ js ++ ts) else (py ++ js ++ ts)%list in
    make_temp_dir env w = (Ok tempDir, w0)
    /\ prepare env zip url tempDir w0 = (Ok tt, w1)
    /\ when_nonempty pyF aP tempDir w1 = (Ok py, w2)
    /\ when_nonempty jsF aJ tempDir w2 = (Ok js, w3)
    /\ when_nonempty tsF aT tempDir w3 = (Ok ts, w4)
    /\ rF (pyF ++ jsF ++ tsF)%list tempDir allIssues w4 = (Ok rf, w5)
    /\ w' = cleanup env tempDir w5
    /\ r = {| AnalysisResult.request_id := requestId;
              AnalysisResult.status := "completed";
              AnalysisResult.summary :=
                {| Summary.languages :=
                     ((if bool_decide (pyF = []) then [] else ["python"])
                      ++ (if bool_decide (jsF = []) then [] else ["javascript"])
                      ++ (if bool_decide (tsF = []) then [] else ["typescript"]))%list;
                   Summary.total_files_analyzed :=
                     (length pyF + length jsF + length tsF)%nat;
                   Summary.issues_count :=
                     {| IssuesCount.critical :=
                          length (List.filter (has_severity critical) allIssues);
                        IssuesCount.major :=
                          length (List.filter (has_severity major) allIssues);
                        IssuesCount.minor :=
                          length (List.filter (has_severity minor) allIssues) |} |};
              AnalysisResult.issues := allIssues;
              AnalysisResult.patches := [];
              AnalysisResult.refactoredFiles := rf |}.
Proof.
  unfold analyzeCode. intros H.
  apply bind_Ok in H as (tempDir & w0 & Hmk & H).
  unfold finally in H.
  destruct (analyzeCode_body _ _ _ _ _ _ _ _ _ _ _) as [res wb] eqn:Hbody.
  injection H as Hres Hw. subst res w'.
  unfold analyzeCode_body in Hbody.
  apply bind_Ok in Hbody as ([] & w1 & Hprep & Hbody).
  apply bind_Ok in Hbody as (pyF & w1a & Hpy & Hbody).
  apply bind_Ok in Hbody as (jsF & w1b & Hjs & Hbody).
  apply bind_Ok in Hbody as (tsF & w1c & Hts & Hbody).
  unfold findFiles in Hpy, Hjs, Hts.
  injection Hpy as <- <-. injection Hjs as <- <-. injection Hts as <- <-.
  apply bind_Ok in Hbody as (py & w2 & Hpyi & Hbody).
  apply bind_Ok in Hbody as (js & w3 & Hjsi & Hbody).
  apply bind_Ok in Hbody as (ts & w4 & Htsi & Hbody).
  apply bind_Ok in Hbody as (rf & w5 & Hrf & Hbody).
  unfold ret in Hbody. injection Hbody as <- <-.
  exists tempDir, w0, w1, py, w2, js, w3, ts, w4, rf, w5. cbv zeta.
  repeat (split; [eassumption|]).
  split; reflexivity.
Qed.
End analyzeCode_inversion.

Lemma analyzeCode_fixed_fields v env requestId zip url mode w r w' :
  analyzeCode_of v env requestId zip url mode w = (Ok r, w') ->
  r.(Analyzer.AnalysisResult.request_id) = requestId
  /\ r.(Analyzer.AnalysisResult.status) = "completed"
  /\ r.(Analyzer.AnalysisResult.patches) = [].
Proof.
  intros H. destruct v; apply analyzeCode_inv in H
    as (tempDir & w0 & w1 & py & w2 & js & w3 & ts & w4 & rf & w5 & H);
    cbv zeta in H; destruct H as (_ & _ & _ & _ & _ & _ & _ & ->); done.
Qed.

Lemma run_analysis_Ok env task v :
  Routes.run_analysis env task = Ok v ->
  exists r w',
    ServerAnalyzer.analyzeCode env task.(Routes.task_id) task.(Routes.task_zip)
      task.(Routes.task_repoUrl) (AnalysisMode_to_string task.(Routes.task_mode))
      Analyzer.World0 = (Ok r, w')
    /\ v = Analyzer.AnalysisResult.to_js r.
Proof.
  unfold Routes.run_analysis.
  destruct (ServerAnalyzer.analyzeCode _ _ _ _ _ _) as [[r|e] w'] eqn:H; simpl;
    [|discriminate].
  intros [= <-]. eauto.
Qed.

(** X13: when an analysis in flight ends, it leaves the list of analyses in
    flight, the others staying in their order, and the update finds its
    job.  The job is [completed] with the result the [analyzeCode] call of
    its task returned, or [failed] with the empty result when the call
    threw; the time of update is the time of the settling, the rest of the
    job is as it was, and no other job is touched.  A result stored this
    way names the job, has the status ["completed"] and has no patches. *)
Theorem settled_analysis_ends_its_job cfg s i env now task job :
  s.(Routes.running) !! i = Some task ->
  s.(Routes.jobs) !! task.(Routes.task_id) = Some job ->
  let s' := Routes.step cfg s (Routes.Settled i env now) in
  let outcome :=
    (ServerAnalyzer.analyzeCode env task.(Routes.task_id) task.(Routes.task_zip)
       task.(Routes.task_repoUrl) (AnalysisMode_to_string task.(Routes.task_mode))
       Analyzer.World0).1 in
  (forall j, s'.(Routes.running) !! j
             = s.(Routes.running) !! (if (j <? i)%nat then j else S j))
  /\ s'.(Routes.webhook_posts) = s.(Routes.webhook_posts)
  /\ (forall k, k <> task.(Routes.task_id) ->
        s'.(Routes.jobs) !! k = s.(Routes.jobs) !! k)
  /\ s'.(Routes.jobs) !! task.(Routes.task_id)
     = Some {| id := job.(id);
               status := match outcome with
                         | Ok _ => completed
                         | Throw _ => failed
                         end;
               createdAt := job.(createdAt);
               updatedAt := now;
               repoUrl := job.(repoUrl);
               analysisMode := job.(analysisMode);
               results :=
                 Some match outcome with
                      | Ok r => Analyzer.AnalysisResult.to_js r
                      | Throw _ => Routes.failed_results task.(Routes.task_id)
                      end |}
  /\ forall r, outcome = Ok r ->
       r.(Analyzer.AnalysisResult.request_id) = task.(Routes.task_id)
       /\ r.(Analyzer.AnalysisResult.status) = "completed"
       /\ r.(Analyzer.AnalysisResult.patches) = [].
Proof.
  intros Htask Hjob s' outcome. subst s'. cbn [Routes.step]. rewrite Htask.
  cbn [Routes.running Routes.webhook_posts Routes.jobs].
  split.
  { intros j. pose proof (lookup_lt_Some _ _ _ Htask) as Hi.
    destruct (j <? i)%nat eqn:Hj.
    - apply Nat.ltb_lt in Hj.
      rewrite lookup_app_l by (rewrite length_take; lia).
      apply lookup_take_lt. exact Hj.
    - apply Nat.ltb_ge in Hj.
      rewrite lookup_app_r by (rewrite length_take; lia).
      rewrite length_take, lookup_drop.
      f_equal. lia. }
  split; [reflexivity|]. split.
  { intros k Hk. unfold Routes.settle.
    destruct (Routes.run_analysis env task); by apply updateJobStatus_other. }
  split.
  { unfold Routes.settle, Routes.run_analysis. fold outcome.
    destruct outcome as [r|e];
      rewrite (updateJobStatus_found _ _ _ _ _ _ Hjob); cbn [snd];
      by rewrite lookup_insert_eq. }
  intros r Hr. subst outcome.
  destruct (ServerAnalyzer.analyzeCode env _ _ _ _ _) as [res w'] eqn:Hrun.
  cbn [fst] in Hr. subst res.
  exact (analyzeCode_fixed_fields server_version _ _ _ _ _ _ _ _ Hrun).
Qed.

Lemma settled_analysis_ends_its_job_witness :
  Example.submitted.(Routes.running) !! 0%nat =
    Some {| Routes.task_id := Example.job_id; Routes.task_zip := Some "PK";
            Routes.task_repoUrl := None; Routes.task_mode := standard |}
  /\ is_Some (Example.submitted.(Routes.jobs) !! Example.job_id)
  /\ Example.analysed.(Routes.running) = []
  /\ exists r,
       (ServerAnalyzer.analyzeCode Example.env Example.job_id (Some "PK") None
          "standard" Analyzer.World0).1 = Ok r
       /\ Example.analysed.(Routes.jobs) !! Example.job_id
          = Some {| id := Example.job_id; status := completed;
                    createdAt := Example.t0; updatedAt := Example.t0 + 4000;
                    repoUrl := None; analysisMode := standard;
                    results := Some (Analyzer.AnalysisResult.to_js r) |}.
Proof.
  split; [reflexivity|]. split; [eexists; reflexivity|].
  split; [reflexivity|].
  pose proof (settled_analysis_ends_its_job Example.cfg Example.submitted 0
                Example.env (Example.t0 + 4000)
                {| Routes.task_id := Example.job_id; Routes.task_zip := Some "PK";
                   Routes.task_repoUrl := None; Routes.task_mode := standard |}
                {| id := Example.job_id; status := processing;
                   createdAt := Example.t0; updatedAt := Example.t0;
                   repoUrl := None; analysisMode := standard; results := None |}
                eq_refl eq_refl) as H.
  cbv zeta in H. destruct H as (_ & _ & _ & Hjob & _).
  cbn [Routes.task_id Routes.task_zip Routes.task_repoUrl Routes.task_mode
       id createdAt repoUrl analysisMode AnalysisMode_to_string] in Hjob.
  change (Routes.step Example.cfg Example.submitted
            (Routes.Settled 0 Example.env (Example.t0 + 4000)))
    with Example.analysed in Hjob.
  destruct (ServerAnalyzer.analyzeCode Example.env Example.job_id (Some "PK") None
              "standard" Analyzer.World0).1 as [r|e] eqn:Hrun;
    [|vm_compute in Hrun; discriminate].
  exists r. split; [reflexivity|exact Hjob].
Defined.

(** ** The downloads *)

Lemma completed_results_found requestId s job v :
  s.(Routes.jobs) !! requestId = Some job ->
  job.(status) = completed ->
  job.(results) = Some v ->
  Js.truthy (Some v) = true ->
  Downloads.completed_results requestId s = inr v.
Proof.
  intros Hjob Hst Hres Htruthy. unfold Downloads.completed_results, MemStorage.getJob.
  rewrite Hjob, Hres, Hst, Htruthy. reflexivity.
Qed.

(** X14: the JSON download.  For an identifier the store does not know it
    answers 404, and for a job that is not [completed] (a failed one with
    its results included) or whose results are missing or falsy it answers
    400.  Otherwise it sends the document [generateJSON] writes for the
    results; when the numbers of the results are all safe integers,
    parsing that document gives the results back as the runtime holds
    them, which is the results themselves when they came from [JSON.parse]
    or from an analysis. *)
Theorem download_json_parses_back requestId s :
  let reply := Downloads.get_api_download_json requestId s in
  match MemStorage.getJob requestId s.(Routes.jobs) with
  | None => reply = Downloads.Refused 404 "Job not found"
  | Some job =>
      if bool_decide (job.(status) = completed) && Js.truthy job.(results) then
        exists v,
          job.(results) = Some v
          /\ reply = Downloads.Document "application/json"
                       ("analysis-" ++ requestId ++ ".json")
                       (Analyzer.generateJSON v)
          /\ (safe_numbers v = true ->
              Js.parse (Analyzer.generateJSON v) = Some (Js.norm v)
              /\ (Js.wf v -> Js.parse (Analyzer.generateJSON v) = Some v))
      else reply = Downloads.Refused 400 "Analysis not completed yet"
  end.
Proof.
  intros reply. subst reply.
  unfold Downloads.get_api_download_json, Downloads.completed_results.
  destruct (MemStorage.getJob requestId (Routes.jobs s)) as [job|]; [|done].
  destruct (results job) as [v|].
  2:{ cbn [Js.truthy]. by rewrite andb_false_r. }
  destruct (bool_decide (status job = completed)); cbn [negb orb andb]; [|done].
  destruct (Js.truthy (Some v)) eqn:Ht; cbn [negb]; [|done].
  exists v. split; [reflexivity|]. split; [reflexivity|]. intros _.
  unfold Analyzer.generateJSON. rewrite parse_stringify.
  split; [reflexivity|]. intros Hwf. by rewrite Hwf.
Qed.

Lemma download_json_parses_back_witness :
  exists v,
    safe_numbers v = true
    /\ Downloads.get_api_download_json Example.job_id Example.analysed
       = Downloads.Document "application/json" "analysis-req-123e4567.json"
           (Analyzer.generateJSON v)
    /\ Js.parse (Analyzer.generateJSON v) = Some (Js.norm v).
Proof.
  pose proof (download_json_parses_back Example.job_id Example.analysed) as H.
  cbv zeta in H.
  destruct (MemStorage.getJob Example.job_id (Routes.jobs Example.analysed))
    as [job|] eqn:Hjob; [|vm_compute in Hjob; discriminate].
  vm_compute in Hjob. injection Hjob as <-.
  match type of H with
  | (if ?b then _ else _) => replace b with true in H by (vm_compute; reflexivity)
  end.
  destruct H as (v & Hv & Hdoc & Hparse).
  assert (Hsafe : safe_numbers v = true).
  { cbn [results] in Hv. injection Hv as <-. vm_compute. reflexivity. }
  exists v. split; [exact Hsafe|]. split; [exact Hdoc|].
  exact (proj1 (Hparse Hsafe)).
Defined.

Lemma or_else_truthy v d :
  Js.truthy (Some v) = true -> Analyzer.or_else (Some v) d = v.
Proof. intros H. unfold Analyzer.or_else. by rewrite H. Qed.

(** X15: the download of the refactored code, up to the point where it
    starts the archive.  It answers 404 and 400 as the JSON download does.
    For a job completed with the result of an analysis it answers 400 when
    the analysis refactored no file, and otherwise it starts an archive
    named after the job over the refactored files of the result. *)
Theorem download_refactored_of_analysis requestId s :
  let reply := Downloads.get_api_download_refactored requestId s in
  match MemStorage.getJob requestId s.(Routes.jobs) with
  | None => reply = Downloads.Refused 404 "Job not found"
  | Some job =>
      if bool_decide (job.(status) = completed) && Js.truthy job.(results) then
        forall r,
          job.(results) = Some (Analyzer.AnalysisResult.to_js r) ->
          reply
          = match r.(Analyzer.AnalysisResult.refactoredFiles) with
            | [] => Downloads.Refused 400 "No refactored files available"
            | _ :: _ =>
                Downloads.Archiving ("refactored-code-" ++ requestId ++ ".zip")
                  (Js.Arr (map Analyzer.RefactoredFile.to_js
                             r.(Analyzer.AnalysisResult.refactoredFiles)))
            end
      else reply = Downloads.Refused 400 "Analysis not completed yet"
  end.
Proof.
  intros reply. subst reply. unfold Downloads.get_api_download_refactored.
  destruct (MemStorage.getJob requestId (Routes.jobs s)) as [job|] eqn:Hjob.
  2:{ unfold Downloads.completed_results. by rewrite Hjob. }
  destruct (bool_decide (status job = completed) && Js.truthy (results job)) eqn:Hok.
  - apply andb_true_iff in Hok as [Hst Ht]. apply bool_decide_eq_true in Hst.
    intros r Hres.
    rewrite (completed_results_found _ _ _ _ Hjob Hst Hres eq_refl).
    change (Js.get "refactoredFiles" (Analyzer.AnalysisResult.to_js r))
      with (Some (Js.Arr (map Analyzer.RefactoredFile.to_js
                            r.(Analyzer.AnalysisResult.refactoredFiles)))).
    rewrite or_else_truthy by reflexivity.
    destruct (Analyzer.AnalysisResult.refactoredFiles r) as [|f rfs] eqn:Hrfs;
      [reflexivity|].
    cbn [Downloads.is_empty_list].
    by rewrite bool_decide_eq_false_2 by discriminate.
  - unfold Downloads.completed_results. rewrite Hjob.
    destruct (results job) as [v|]; [|reflexivity].
    apply andb_false_iff in Hok as [Hst|Ht].
    + by rewrite Hst.
    + rewrite Ht. by rewrite orb_true_r.
Qed.

Lemma download_refactored_of_analysis_witness :
  let s := Routes.with_jobs Routes.init
             {[ Example.job_id :=
                  {| id := Example.job_id; status := completed;
                     createdAt := Example.t0; updatedAt := Example.t0 + 4000;
                     repoUrl := None; analysisMode := standard;
                     results := Some (Analyzer.AnalysisResult.to_js Example.result) |} ]} in
  Downloads.get_api_download_refactored Example.job_id s
  = Downloads.Archiving "refactored-code-req-123e4567.zip"
      (Js.Arr (map Analyzer.RefactoredFile.to_js
                 Example.result.(Analyzer.AnalysisResult.refactoredFiles))).
Proof.
  intros s.
  pose proof (download_refactored_of_analysis Example.job_id s) as H.
  cbv zeta in H.
  destruct (MemStorage.getJob Example.job_id (Routes.jobs s))
    as [job|] eqn:Hjob; [|vm_compute in Hjob; discriminate].
  assert (Hj : job = {| id := Example.job_id; status := completed;
                        createdAt := Example.t0; updatedAt := Example.t0 + 4000;
                        repoUrl := None; analysisMode := standard;
                        results := Some (Analyzer.AnalysisResult.to_js Example.result) |}).
  { unfold MemStorage.getJob, s in Hjob. cbn [Routes.jobs Routes.with_jobs] in Hjob.
    rewrite lookup_singleton_eq in Hjob. by injection Hjob as <-. }
  subst job.
  match type of H with
  | (if ?b then _ else _) => replace b with true in H by (vm_compute; reflexivity)
  end.
  exact (H Example.result eq_refl).
Defined.

(** ** From a request to its download *)

(** X16: a request accepted without a webhook, whose analysis returns, ends
    as a completed job: once the analysis has settled, the status endpoint
    returns the job with the result, and the JSON download sends the
    document written for that result, which parses back to the result when
    the numbers of the result are all safe integers. *)
Theorem analysis_from_request_to_download cfg data file uuid t1 t2 env now s r :
  cfg.(Routes.N8N_WEBHOOK) = "" ->
  is_Some file \/ is_Some (Routes.supplied_url data) ->
  let new_id := "req-" ++ substring 0 8 uuid in
  (ServerAnalyzer.analyzeCode env new_id (Routes.buffer <$> file)
     (Routes.supplied_url data) (AnalysisMode_to_string data.(Routes.analysis_mode))
     Analyzer.World0).1 = Ok r ->
  let s1 := Routes.step cfg s (Routes.Analyze (Routes.ParseSuccess data) file uuid t1 t2) in
  let s2 := Routes.step cfg s1 (Routes.Settled (length s.(Routes.running)) env now) in
  Routes.get_api_status new_id s2
  = {| Routes.code := 200;
       Routes.body :=
         Routes.BJob {| id := new_id; status := completed;
                        createdAt := t1; updatedAt := now;
                        repoUrl := Routes.supplied_url data;
                        analysisMode := data.(Routes.analysis_mode);
                        results := Some (Analyzer.AnalysisResult.to_js r) |} |}
  /\ s2.(Routes.running) = s.(Routes.running)
  /\ Downloads.get_api_download_json new_id s2
     = Downloads.Document "application/json" ("analysis-" ++ new_id ++ ".json")
         (Analyzer.generateJSON (Analyzer.AnalysisResult.to_js r))
  /\ (safe_numbers (Analyzer.AnalysisResult.to_js r) = true ->
      Js.parse (Analyzer.generateJSON (Analyzer.AnalysisResult.to_js r))
      = Some (Analyzer.AnalysisResult.to_js r)).
Proof.
  intros Hweb Hacc new_id Hr s1 s2.
  assert (Hs1 : s1 =
    {| Routes.jobs := <[new_id := accepted_job data uuid t1 t2]> s.(Routes.jobs);
       Routes.running :=
         (s.(Routes.running) ++
          [{| Routes.task_id := new_id;
              Routes.task_zip := Routes.buffer <$> file;
              Routes.task_repoUrl := Routes.supplied_url data;
              Routes.task_mode := data.(Routes.analysis_mode) |}])%list;
       Routes.webhook_posts := s.(Routes.webhook_posts) |}).
  { subst s1. cbn [Routes.step]. rewrite post_api_analyze_accepted by done.
    cbn [snd]. by rewrite Hweb. }
  assert (Hs2 : s2.(Routes.jobs) !! new_id =
    Some {| id := new_id; status := completed; createdAt := t1; updatedAt := now;
            repoUrl := Routes.supplied_url data;
            analysisMode := data.(Routes.analysis_mode);
            results := Some (Analyzer.AnalysisResult.to_js r) |}
    /\ s2.(Routes.running) = s.(Routes.running)).
  { subst s2. rewrite Hs1. simpl.
    rewrite lookup_app_r by lia. rewrite Nat.sub_diag. simpl.
    unfold Routes.run_analysis. simpl.
    destruct (ServerAnalyzer.analyzeCode _ _ _ _ _ _) as [res w'].
    simpl in Hr. subst res. unfold Routes.settle. cbn [fst].
    erewrite updateJobStatus_found by apply lookup_insert_eq. simpl.
    rewrite lookup_insert_eq. split; [reflexivity|].
    rewrite take_app_length.
    rewrite drop_ge by (rewrite length_app; simpl; lia).
    by rewrite app_nil_r. }
  destruct Hs2 as [Hjob Hrun].
  split.
  { unfold Routes.get_api_status, MemStorage.getJob. by rewrite Hjob. }
  split; [exact Hrun|].
  unfold Downloads.get_api_download_json.
  rewrite (completed_results_found _ _ _ _ Hjob eq_refl eq_refl eq_refl).
  split; [reflexivity|]. intros _.
  destruct (ServerAnalyzer.analyzeCode env new_id (Routes.buffer <$> file)
              (Routes.supplied_url data)
              (AnalysisMode_to_string data.(Routes.analysis_mode))
              Analyzer.World0) as [res w'] eqn:Hrun'.
  simpl in Hr. subst res.
  exact (generateJSON_of_analysis server_version _ _ _ _ _ _ _ _ Hrun').
Qed.

Lemma analysis_from_request_to_download_witness :
  exists r,
    (ServerAnalyzer.analyzeCode Example.env Example.job_id (Some "PK") None
       "standard" Analyzer.World0).1 = Ok r
    /\ safe_numbers (Analyzer.AnalysisResult.to_js r) = true
    /\ Downloads.get_api_download_json Example.job_id Example.analysed
       = Downloads.Document "application/json" "analysis-req-123e4567.json"
           (Analyzer.generateJSON (Analyzer.AnalysisResult.to_js r))
    /\ Js.parse (Analyzer.generateJSON (Analyzer.AnalysisResult.to_js r))
       = Some (Analyzer.AnalysisResult.to_js r).
Proof.
  destruct (ServerAnalyzer.analyzeCode Example.env Example.job_id (Some "PK") None
              "standard" Analyzer.World0) as [[r|e] w'] eqn:Hrun;
    [|vm_compute in Hrun; discriminate].
  assert (Hsafe : safe_numbers (Analyzer.AnalysisResult.to_js r) = true).
  { vm_compute in Hrun. injection Hrun as <- _. vm_compute. reflexivity. }
  destruct (analysis_from_request_to_download Example.cfg
              {| Routes.analysis_mode := standard; Routes.repo_url := None |}
              (Some Example.upload) Example.uuid Example.t0 Example.t0
              Example.env (Example.t0 + 4000) Routes.init r eq_refl
              (or_introl (ex_intro _ Example.upload eq_refl)))
    as (_ & _ & Hdoc & Hparse).
  - change ((ServerAnalyzer.analyzeCode Example.env Example.job_id (Some "PK") None
               "standard" Analyzer.World0).1 = Ok r).
    by rewrite Hrun.
  - exists r. split; [reflexivity|]. split; [exact Hsafe|].
    split; [exact Hdoc|exact (Hparse Hsafe)].
Defined.

(** ** The retry helper beyond its two call sites *)
Section retry_more.
Import Analyzer FallbackAnalyzer.

(** X17: [retryWithBackoff] on any function.  With no attempt allowed
    ([maxRetries] below 1) the function is not called and [undefined] is
    thrown.  Otherwise a first attempt that returns is the outcome, with no
    wait; a first attempt that throws an error whose status is not 429, or
    any error when one attempt is all there is, throws that error again
    with no wait and no second attempt. *)
Theorem retryWithBackoff_first_attempt {A} (fn : M A) maxRetries baseDelay w :
  if maxRetries <? 1 then
    retryWithBackoff fn maxRetries baseDelay w = (Throw Undefined, w)
  else
    match fn w with
    | (Ok a, w') => retryWithBackoff fn maxRetries baseDelay w = (Ok a, w')
    | (Throw (ErrorObj st msg), w') =>
        st <> Some 429 \/ maxRetries = 1 ->
        retryWithBackoff fn maxRetries baseDelay w = (Throw (ErrorObj st msg), w')
    | (Throw Undefined, w') =>
        exists msg,
          retryWithBackoff fn maxRetries baseDelay w = (Throw (ErrorObj None msg), w')
    end.
Proof.
  unfold retryWithBackoff.
  destruct (maxRetries <? 1) eqn:Hm.
  - apply Z.ltb_lt in Hm. replace (Z.to_nat maxRetries) with 0%nat by lia.
    reflexivity.
  - apply Z.ltb_ge in Hm.
    destruct (Z.to_nat maxRetries) as [|n] eqn:Hn; [lia|].
    rewrite retry_loop_S. unfold try_catch.
    destruct (fn w) as [[a|[st msg|]] w']; [reflexivity| |eauto].
    intros Hstop. destruct Hstop as [Hst| ->].
    + rewrite bool_decide_eq_false_2 by done. reflexivity.
    + rewrite andb_false_r. reflexivity.
Qed.

(** The sum of the waits of a backoff. *)
Lemma backoff_total baseDelay j :
  fold_right Z.add 0 (backoff baseDelay 0 j) = baseDelay * (2 ^ Z.of_nat j - 1).
Proof.
  assert (H : forall from,
    fold_right Z.add 0 (backoff baseDelay from j)
    = baseDelay * 2 ^ Z.of_nat from * (2 ^ Z.of_nat j - 1)).
  { induction j as [|j IH]; intros from.
    - simpl. lia.
    - unfold backoff in *. cbn [seq map fold_right]. rewrite IH.
      rewrite !Nat2Z.inj_succ, !Z.pow_succ_r by lia. lia. }
  rewrite H. simpl. lia.
Qed.

(** X18: [retryWithBackoff] around the provider call, for any number of
    attempts and any base delay.  The provider is called once more after
    each rate-limit failure, [maxRetries] times at most; before the attempt
    that follows the [i]-th failure the wait is [baseDelay * 2^i]; the
    outcome is that of the last attempt made, and the waits add up to
    [baseDelay * (2^j - 1)] for [j] failures gone through. *)
Theorem retryWithBackoff_schedule env maxRetries baseDelay w :
  1 <= maxRetries ->
  let c := w.(calls) in
  let j := rate_limited_run env.(generateContent) c (Z.to_nat maxRetries - 1) in
  let w' := (retryWithBackoff (call_generateContent env) maxRetries baseDelay w).2 in
  (retryWithBackoff (call_generateContent env) maxRetries baseDelay w).1
    = provider_result (env.(generateContent) (c + j)%nat)
  /\ w'.(calls) = S (c + j)
  /\ (Z.of_nat (S j) <= maxRetries)
  /\ w'.(sleeps) = (w.(sleeps) ++ backoff baseDelay 0 j)%list
  /\ fold_right Z.add 0 (backoff baseDelay 0 j) = baseDelay * (2 ^ Z.of_nat j - 1)
  /\ w'.(fs) = w.(fs).
Proof.
  intros Hm c j w'. subst w'. unfold retryWithBackoff.
  destruct (Z.to_nat maxRetries) as [|n] eqn:Hn; [lia|].
  assert (Hj : j = rate_limited_run env.(generateContent) c n).
  { subst j. f_equal. lia. }
  rewrite retry_loop_provider by lia. fold c. rewrite <- Hj. cbn [fst snd calls sleeps fs].
  split; [reflexivity|]. split; [reflexivity|]. split.
  { pose proof (rate_limited_run_le env.(generateContent) c n). lia. }
  split; [reflexivity|]. split; [apply backoff_total|reflexivity].
Qed.

Lemma retryWithBackoff_schedule_witness :
  1 <= default_maxRetries
  /\ (retryWithBackoff (call_generateContent Example.env)
        default_maxRetries default_baseDelay World0).2.(sleeps) = [1000]
  /\ (retryWithBackoff (call_generateContent Example.env)
        default_maxRetries default_baseDelay World0).2.(calls) = 2%nat.
Proof.
  assert (H : 1 <= default_maxRetries) by (unfold default_maxRetries; lia).
  split; [exact H|].
  destruct (retryWithBackoff_schedule Example.env default_maxRetries
              default_baseDelay World0 H) as (_ & Hc & _ & Hs & _).
  split; [exact Hs|exact Hc].
Defined.
End retry_more.

(** ** What the analysis leaves of the world *)
Section keeps_facts.
Import Analyzer.
Context {X : Type} (obs : World -> X).

Lemma keeps_ret {A} (a : A) : keeps obs (ret a).
Proof. intros w. reflexivity. Qed.

Lemma keeps_throw {A} e : keeps obs (@throw A e).
Proof. intros w. reflexivity. Qed.

Lemma keeps_lift {A} (r : Result A) : keeps obs (lift r).
Proof. intros w. reflexivity. Qed.

Lemma keeps_bind {A B} (c : M A) (k : A -> M B) :
  keeps obs c -> (forall a, keeps obs (k a)) -> keeps obs (bind c k).
Proof.
  intros Hc Hk w. unfold bind. specialize (Hc w).
  destruct (c w) as [[a|e] w1]; simpl in *; [|exact Hc].
  by rewrite Hk.
Qed.

Lemma keeps_try_catch {A} (c : M A) (h : Exn -> M A) :
  keeps obs c -> (forall e, keeps obs (h e)) -> keeps obs (try_catch c h).
Proof.
  intros Hc Hh w. unfold try_catch. specialize (Hc w).
  destruct (c w) as [[a|e] w1]; simpl in *; [exact Hc|].
  by rewrite Hh.
Qed.

Lemma keeps_findFiles dir extensions : keeps obs (findFiles dir extensions).
Proof. intros w. reflexivity. Qed.

Lemma keeps_when_nonempty files analyze tempDir :
  (forall fs dir, keeps obs (analyze fs dir)) ->
  keeps obs (when_nonempty files analyze tempDir).
Proof. intros H. destruct files; [apply keeps_ret|apply H]. Qed.

Lemma keeps_analyzeFilesWithGemini env per_file files baseDir language :
  (forall content path lang, keeps obs (per_file content path lang)) ->
  keeps obs (analyzeFilesWithGemini env per_file files baseDir language).
Proof.
  intros Hfile. induction files as [|file rest IH]; [apply keeps_ret|].
  cbn [analyzeFilesWithGemini]. apply keeps_bind.
  - apply keeps_try_catch; [|intros; apply keeps_ret].
    apply keeps_bind; [apply keeps_lift|]. intros. apply Hfile.
  - intros. apply keeps_bind; [exact IH|]. intros. apply keeps_ret.
Qed.

Lemma keeps_refactorFiles env rfw files baseDir issues :
  (forall path content l rel, keeps obs (rfw path content l rel)) ->
  keeps obs (refactorFiles env rfw files baseDir issues).
Proof.
  intros Hfile. induction files as [|file rest IH]; [apply keeps_ret|].
  cbn [refactorFiles]. apply keeps_bind.
  - apply keeps_try_catch; [|intros; apply keeps_ret].
    apply keeps_bind; [apply keeps_lift|]. intros.
    apply keeps_bind; [apply Hfile|]. intros. apply keeps_ret.
  - intros. apply keeps_bind; [exact IH|]. intros. apply keeps_ret.
Qed.

Lemma keeps_dedup seen candidates : keeps obs (FallbackAnalyzer.dedup seen candidates).
Proof.
  revert seen. induction candidates as [|i rest IH]; intros seen; simpl.
  - apply keeps_ret.
  - destruct (FallbackAnalyzer.issue_key i); [|apply keeps_throw].
    destruct (bool_decide _); [apply IH|].
    apply keeps_bind; [apply IH|]. intros. apply keeps_ret.
Qed.

Lemma keeps_retry_loop {A} (fn : M A) maxRetries baseDelay n i lastError :
  keeps obs fn -> (forall d, keeps obs (sleep d)) ->
  keeps obs (FallbackAnalyzer.retry_loop fn maxRetries baseDelay n i lastError).
Proof.
  intros Hfn Hsleep. revert i lastError.
  induction n as [|n IH]; intros i lastError; [apply keeps_throw|].
  rewrite retry_loop_S. apply keeps_try_catch; [exact Hfn|].
  intros [st msg|]; [|apply keeps_throw].
  destruct (_ && _); [|apply keeps_throw].
  apply keeps_bind; [apply Hsleep|]. intros. apply IH.
Qed.

(** The two versions, given that the provider call and a wait keep the
    observation. *)
Section versions.
Variable env : Env.
Hypothesis Hcall : keeps obs (call_generateContent env).
Hypothesis Hsleep : forall d, keeps obs (sleep d).

Lemma keeps_server_analyzeFile content path lang :
  keeps obs (ServerAnalyzer.analyzeFileWithGemini env content path lang).
Proof.
  apply keeps_try_catch; [|intros; apply keeps_ret].
  apply keeps_bind; [exact Hcall|]. intros. apply keeps_ret.
Qed.

Lemma keeps_server_refactorFile path content l rel :
  keeps obs (ServerAnalyzer.refactorFileWithGemini env path content l rel).
Proof.
  unfold ServerAnalyzer.refactorFileWithGemini.
  destruct (issuesSummary l rel); [|apply keeps_throw].
  apply keeps_try_catch; [|intros; apply keeps_ret].
  apply keeps_bind; [exact Hcall|]. intros. apply keeps_ret.
Qed.

Lemma keeps_fallback_analyzeFile content path lang :
  keeps obs (FallbackAnalyzer.analyzeFileWithGemini env content path lang).
Proof.
  unfold FallbackAnalyzer.analyzeFileWithGemini.
  destruct (negb _); [apply keeps_ret|].
  apply keeps_try_catch; [|intros; apply keeps_ret].
  apply keeps_bind; [|intros; apply keeps_ret].
  by apply keeps_retry_loop.
Qed.

Lemma keeps_fallback_refactorFile path content l rel :
  keeps obs (FallbackAnalyzer.refactorFileWithGemini env path content l rel).
Proof.
  unfold FallbackAnalyzer.refactorFileWithGemini.
  destruct (negb _); [apply keeps_ret|].
  destruct (issuesSummary l rel); [|apply keeps_throw].
  apply keeps_try_catch; [|intros; apply keeps_ret].
  apply keeps_bind; [|intros; apply keeps_ret].
  by apply keeps_retry_loop.
Qed.

Lemma keeps_fallback_analyzePythonFiles files baseDir :
  keeps obs (FallbackAnalyzer.analyzePythonFiles env files baseDir).
Proof.
  unfold FallbackAnalyzer.analyzePythonFiles. apply keeps_bind.
  - destruct (FallbackAnalyzer.has_ai env); [|apply keeps_ret].
    apply keeps_try_catch; [|intros; apply keeps_ret].
    apply keeps_analyzeFilesWithGemini. apply keeps_fallback_analyzeFile.
  - intros [|i issues]; [apply keeps_dedup|apply keeps_ret].
Qed.
End versions.

(** The body of [analyzeCode], given that its steps keep the observation. *)
Lemma keeps_analyzeCode_body env aP aJ aT rF requestId zip url mode tempDir :
  keeps obs (prepare env zip url tempDir) ->
  (forall fs dir, keeps obs (aP fs dir)) ->
  (forall fs dir, keeps obs (aJ fs dir)) ->
  (forall fs dir, keeps obs (aT fs dir)) ->
  (forall fs dir l, keeps obs (rF fs dir l)) ->
  keeps obs (analyzeCode_body env aP aJ aT rF requestId zip url mode tempDir).
Proof.
  intros Hprep HP HJ HT HR. unfold analyzeCode_body.
  apply keeps_bind; [exact Hprep|]. intros _.
  apply keeps_bind; [apply keeps_findFiles|]. intros pyF.
  apply keeps_bind; [apply keeps_findFiles|]. intros jsF.
  apply keeps_bind; [apply keeps_findFiles|]. intros tsF.
  apply keeps_bind; [by apply keeps_when_nonempty|]. intros py.
  apply keeps_bind; [by apply keeps_when_nonempty|]. intros js.
  apply keeps_bind; [by apply keeps_when_nonempty|]. intros ts.
  apply keeps_bind; [apply HR|]. intros. apply keeps_ret.
Qed.
End keeps_facts.

(** X19: [analyzeCode] cleans up after itself, in either version and
    whether it returns or throws.  When the temporary directory cannot be
    made it throws what [mkdtemp] threw and does nothing else.  Otherwise
    the temporary directory is gone at the end, unless its removal
    fails. *)
Theorem analyzeCode_cleans_up v env requestId zip url mode w :
  match env.(Analyzer.mkdtemp) with
  | Throw e => analyzeCode_of v env requestId zip url mode w = (Throw e, w)
  | Ok tempDir =>
      env.(Analyzer.rm_ok) tempDir = true ->
      (analyzeCode_of v env requestId zip url mode w).2.(Analyzer.fs) !! tempDir
      = None
  end.
Proof.
  destruct (Analyzer.mkdtemp env) as [tempDir|e] eqn:Hmk.
  - intros Hrm.
    assert (Hrun : exists r wb,
      analyzeCode_of v env requestId zip url mode w
        = (r, Analyzer.cleanup env tempDir wb)).
    { destruct v; simpl analyzeCode_of;
        [unfold ServerAnalyzer.analyzeCode|unfold FallbackAnalyzer.analyzeCode];
        unfold Analyzer.analyzeCode, Analyzer.make_temp_dir; rewrite Hmk;
        unfold Analyzer.bind at 1; unfold Analyzer.bind at 1;
        unfold Analyzer.write_dir at 1; unfold Analyzer.ret at 1;
        unfold Analyzer.finally;
        match goal with
        | |- context [Analyzer.analyzeCode_body ?e ?a ?b ?c ?d ?i ?z ?u ?m ?t ?w0] =>
            destruct (Analyzer.analyzeCode_body e a b c d i z u m t w0) as [r wb]
        end; eauto. }
    destruct Hrun as (r & wb & ->). cbn [snd].
    unfold Analyzer.cleanup. rewrite Hrm. cbn [Analyzer.fs].
    apply lookup_delete_eq.
  - destruct v; simpl analyzeCode_of;
      [unfold ServerAnalyzer.analyzeCode|unfold FallbackAnalyzer.analyzeCode];
      unfold Analyzer.analyzeCode, Analyzer.make_temp_dir; rewrite Hmk; reflexivity.
Qed.

Lemma analyzeCode_cleans_up_witness :
  (analyzeCode_of fallback_version Example.env_bad_zip Example.job_id
     (Some "PK") None "standard" Analyzer.World0).2.(Analyzer.fs)
  !! "/tmp/code-analysis-a1b2c3" = None.
Proof.
  exact (analyzeCode_cleans_up fallback_version Example.env_bad_zip Example.job_id
           (Some "PK") None "standard" Analyzer.World0 eq_refl).
Defined.

(** ** What makes an analysis throw *)
Section throw_facts.
Import Analyzer.

Lemma bind_Throw {A B} (c : M A) (k : A -> M B) w e w' :
  bind c k w = (Throw e, w') ->
  c w = (Throw e, w') \/ exists a w1, c w = (Ok a, w1) /\ k a w1 = (Throw e, w').
Proof.
  unfold bind. destruct (c w) as [[a|e0] w1]; [eauto|].
  intros [= -> ->]. by left.
Qed.

Lemma returns_throws_only {A} (P : Exn -> Prop) (c : M A) :
  returns c -> throws_only P c.
Proof.
  intros H w e w' Hc. destruct (H w) as (a & w1 & Ha). congruence.
Qed.

Lemma throws_only_bind {A B} (P : Exn -> Prop) (c : M A) (k : A -> M B) :
  throws_only P c -> (forall a, throws_only P (k a)) -> throws_only P (bind c k).
Proof.
  intros Hc Hk w e w' H. apply bind_Throw in H as [H|(a & w1 & _ & H)].
  - by eapply Hc.
  - by eapply Hk.
Qed.

Lemma returns_ret {A} (a : A) : returns (ret a).
Proof. intros w. unfold ret. eauto. Qed.

Lemma returns_bind {A B} (c : M A) (k : A -> M B) :
  returns c -> (forall a, returns (k a)) -> returns (bind c k).
Proof.
  intros Hc Hk w. destruct (Hc w) as (a & w1 & Ha).
  destruct (Hk a w1) as (b & w2 & Hb).
  exists b, w2. unfold bind. by rewrite Ha.
Qed.

Lemma returns_try_catch {A} (c : M A) (h : Exn -> M A) :
  (forall e, returns (h e)) -> returns (try_catch c h).
Proof.
  intros Hh w. unfold try_catch. destruct (c w) as [[a|e] w1]; [eauto|].
  apply Hh.
Qed.

Lemma returns_analyzeFilesWithGemini env per_file files baseDir language :
  returns (analyzeFilesWithGemini env per_file files baseDir language).
Proof.
  induction files as [|file rest IH]; [apply returns_ret|].
  cbn [analyzeFilesWithGemini]. apply returns_bind.
  - apply returns_try_catch. intros. apply returns_ret.
  - intros. apply returns_bind; [exact IH|]. intros. apply returns_ret.
Qed.

Lemma returns_refactorFiles env rfw files baseDir issues :
  returns (refactorFiles env rfw files baseDir issues).
Proof. intros w. apply refactorFiles_returns. Qed.

Lemma returns_when_nonempty files analyze tempDir :
  (forall fs dir, returns (analyze fs dir)) ->
  returns (when_nonempty files analyze tempDir).
Proof. intros H. destruct files; [apply returns_ret|apply H]. Qed.

Lemma throws_only_when_nonempty P files analyze tempDir :
  (forall fs dir, throws_only P (analyze fs dir)) ->
  throws_only P (when_nonempty files analyze tempDir).
Proof.
  intros H. destruct files; [apply returns_throws_only, returns_ret|apply H].
Qed.

Lemma throws_only_dedup seen candidates :
  throws_only (fun e => e = dedup_error) (FallbackAnalyzer.dedup seen candidates).
Proof.
  revert seen. induction candidates as [|i rest IH]; intros seen; simpl.
  - apply returns_throws_only, returns_ret.
  - destruct (FallbackAnalyzer.issue_key i).
    + destruct (bool_decide _); [apply IH|].
      apply throws_only_bind; [apply IH|].
      intros. apply returns_throws_only, returns_ret.
    + intros w e w' [= <- _]. reflexivity.
Qed.

Lemma throws_only_fallback_analyzePythonFiles env files baseDir :
  throws_only (fun e => e = dedup_error)
    (FallbackAnalyzer.analyzePythonFiles env files baseDir).
Proof.
  unfold FallbackAnalyzer.analyzePythonFiles. apply throws_only_bind.
  - apply returns_throws_only.
    destruct (FallbackAnalyzer.has_ai env); [|apply returns_ret].
    apply returns_try_catch. intros. apply returns_ret.
  - intros [|i issues]; [apply throws_only_dedup|].
    apply returns_throws_only, returns_ret.
Qed.

(** What [prepare] throws, and when. *)
Lemma prepare_Throw env zip url tempDir w e w' :
  prepare env zip url tempDir w = (Throw e, w') ->
  (exists z e0, zip = Some z /\ env.(extractAllTo) z = Throw e0
                /\ e = ErrorObj None "Failed to extract ZIP file")
  \/ (exists u e0, zip = None /\ url = Some u /\ u <> ""
                   /\ env.(git_clone) u = Throw e0
                   /\ e = ErrorObj None "Failed to clone repository")
  \/ (zip = None /\ (url = None \/ url = Some "")
      /\ e = ErrorObj None "No code provided for analysis").
Proof.
  unfold prepare, extractZip, cloneRepo.
  destruct zip as [z|].
  - destruct (extractAllTo env z) as [entries|e0] eqn:Hz; [discriminate|].
    intros [= <- _]. left. eauto.
  - destruct url as [u|].
    + destruct (String.eqb u "") eqn:Hu.
      * apply String.eqb_eq in Hu. subst u. intros [= <- _]. right. right. auto.
      * apply String.eqb_neq in Hu.
        destruct (git_clone env u) as [entries|e0] eqn:Hg; [discriminate|].
        intros [= <- _]. right. left. exists u, e0. auto.
    + intros [= <- _]. right. right. auto.
Qed.

Lemma analyzeCode_body_Throw env aP aJ aT rF requestId zip url mode tempDir
    (P : Exn -> Prop) w e w' :
  (forall fs dir, throws_only P (aP fs dir)) ->
  (forall fs dir, returns (aJ fs dir)) ->
  (forall fs dir, returns (aT fs dir)) ->
  (forall fs dir l, returns (rF fs dir l)) ->
  analyzeCode_body env aP aJ aT rF requestId zip url mode tempDir w = (Throw e, w') ->
  (exists w1, prepare env zip url tempDir w = (Throw e, w1)) \/ P e.
Proof.
  intros HP HJ HT HR H. unfold analyzeCode_body in H.
  apply bind_Throw in H as [H|(? & w1 & _ & H)]; [eauto|]. right.
  apply bind_Throw in H as [H|(pyF & w2 & _ & H)]; [discriminate H|].
  apply bind_Throw in H as [H|(jsF & w3 & _ & H)]; [discriminate H|].
  apply bind_Throw in H as [H|(tsF & w4 & _ & H)]; [discriminate H|].
  apply bind_Throw in H as [H|(py & w5 & _ & H)].
  { eapply throws_only_when_nonempty; [exact HP|exact H]. }
  apply bind_Throw in H as [H|(js & w6 & _ & H)].
  { destruct (returns_when_nonempty jsF aJ tempDir HJ w5) as (? & ? & Hr). congruence. }
  apply bind_Throw in H as [H|(ts & w7 & _ & H)].
  { destruct (returns_when_nonempty tsF aT tempDir HT w6) as (? & ? & Hr). congruence. }
  apply bind_Throw in H as [H|(rf & w8 & _ & H)]; [|discriminate H].
  match type of H with
  | rF ?a ?b ?c ?w = _ => destruct (HR a b c w) as (? & ? & Hr)
  end. congruence.
Qed.
End throw_facts.

(** X20: what makes [analyzeCode] throw.  It throws what [mkdtemp] threw;
    or the one error of a failed extraction, of a failed clone, or of a
    call with neither an archive nor a URL that is not empty; or, in the
    version with the linters, the TypeError of the loop that merges their
    issues.  A failure of the provider, of a file read or of a linter never
    makes it throw. *)
Theorem analyzeCode_throws_for_setup_only v env requestId zip url mode w e w' :
  analyzeCode_of v env requestId zip url mode w = (Throw e, w') ->
  env.(Analyzer.mkdtemp) = Throw e
  \/ (exists z e0, zip = Some z /\ env.(Analyzer.extractAllTo) z = Throw e0
                   /\ e = ErrorObj None "Failed to extract ZIP file")
  \/ (exists u e0, zip = None /\ url = Some u /\ u <> ""
                   /\ env.(Analyzer.git_clone) u = Throw e0
                   /\ e = ErrorObj None "Failed to clone repository")
  \/ (zip = None /\ (url = None \/ url = Some "")
      /\ e = ErrorObj None "No code provided for analysis")
  \/ (v = fallback_version /\ e = dedup_error).
Proof.
  intros H.
  assert (Hbody : env.(Analyzer.mkdtemp) = Throw e
    \/ exists tempDir w0 wb,
         match v with
         | server_version =>
             Analyzer.analyzeCode_body env (ServerAnalyzer.analyzePythonFiles env)
               (ServerAnalyzer.analyzeJavaScriptFiles env)
               (ServerAnalyzer.analyzeTypeScriptFiles env)
               (ServerAnalyzer.refactorFiles env)
         | fallback_version =>
             Analyzer.analyzeCode_body env (FallbackAnalyzer.analyzePythonFiles env)
               (FallbackAnalyzer.analyzeJavaScriptFiles env)
               (FallbackAnalyzer.analyzeTypeScriptFiles env)
               (FallbackAnalyzer.refactorFiles env)
         end requestId zip url mode tempDir w0 = (Throw e, wb)).
  { destruct v; simpl analyzeCode_of in H;
      [unfold ServerAnalyzer.analyzeCode in H|unfold FallbackAnalyzer.analyzeCode in H];
      unfold Analyzer.analyzeCode, Analyzer.make_temp_dir in H;
      (destruct (Analyzer.mkdtemp env) as [tempDir|e0];
       [|injection H as <- _; by left]);
      apply bind_Throw in H as [H|(t & w0 & Hmk & H)];
      try (apply bind_Throw in H as [H|(? & ? & _ & H)]; discriminate);
      unfold Analyzer.finally in H;
      match type of H with
      | context [Analyzer.analyzeCode_body ?e ?a ?b ?c ?d ?i ?z ?u ?m ?t ?w0] =>
          destruct (Analyzer.analyzeCode_body e a b c d i z u m t w0)
            as [r wb] eqn:Hb
      end; injection H as -> _; right; eauto. }
  destruct Hbody as [Hmk|(tempDir & w0 & wb & Hbody)]; [by left|]. right.
  destruct v.
  - apply (analyzeCode_body_Throw _ _ _ _ _ _ _ _ _ _ (fun _ => False)) in Hbody
      as [(w1 & Hprep)|[]].
    + apply prepare_Throw in Hprep as [H1|[H2|H3]]; auto.
    + intros. apply returns_throws_only, returns_analyzeFilesWithGemini.
    + intros. apply returns_analyzeFilesWithGemini.
    + intros. apply returns_analyzeFilesWithGemini.
    + intros. apply returns_refactorFiles.
  - apply (analyzeCode_body_Throw _ _ _ _ _ _ _ _ _ _ (fun e => e = dedup_error)) in Hbody
      as [(w1 & Hprep)|Hd].
    + apply prepare_Throw in Hprep as [H1|[H2|H3]]; auto.
    + auto 10.
    + intros. apply throws_only_fallback_analyzePythonFiles.
    + intros. apply returns_analyzeFilesWithGemini.
    + intros. apply returns_analyzeFilesWithGemini.
    + intros. apply returns_refactorFiles.
Qed.

Lemma analyzeCode_throws_for_setup_only_witness :
  analyzeCode_of server_version Example.env_bad_zip Example.job_id (Some "PK")
    None "standard" Analyzer.World0
  = (Throw (ErrorObj None "Failed to extract ZIP file"),
     {| Analyzer.calls := 0; Analyzer.sleeps := []; Analyzer.fs := ∅ |})
  /\ exists e0, Example.env_bad_zip.(Analyzer.extractAllTo) "PK" = Throw e0.
Proof.
  assert (H : analyzeCode_of server_version Example.env_bad_zip Example.job_id
                (Some "PK") None "standard" Analyzer.World0
              = (Throw (ErrorObj None "Failed to extract ZIP file"),
                 {| Analyzer.calls := 0; Analyzer.sleeps := []; Analyzer.fs := ∅ |})).
  { vm_compute. reflexivity. }
  split; [exact H|].
  destruct (analyzeCode_throws_for_setup_only server_version Example.env_bad_zip
              Example.job_id (Some "PK") None "standard" Analyzer.World0 _ _ H)
    as [Hmk|[(z & e0 & Hz & He & _)|[(u & e0 & Hz & _)|[(Hz & _)|(Hv & _)]]]];
    try discriminate.
  injection Hz as <-. eauto.
Defined.

(** ** The files an analysis refactors *)
Section refactor_facts.
Import Analyzer.

(** [refactorFiles] pushes one entry for each file it can read and whose
    refactoring returns, in order, and passes over a file whose refactoring
    throws. *)
Lemma refactorFiles_read env rfw (passes : string -> bool)
    files baseDir issues w rfs w' :
  (forall path content rel w0,
     if passes rel
     then exists code w1, rfw path content issues rel w0 = (Ok code, w1)
     else exists e w1, rfw path content issues rel w0 = (Throw e, w1)) ->
  refactorFiles env rfw files baseDir issues w = (Ok rfs, w') ->
  map (fun f => (f.(RefactoredFile.file), f.(RefactoredFile.original))) rfs
  = omap (fun file =>
            match read_for_refactoring env baseDir file with
            | Some (rel, content) =>
                if passes rel then Some (rel, content) else None
            | None => None
            end) files.
Proof.
  intros Hret.
  set (entry := fun file =>
         match read_for_refactoring env baseDir file with
         | Some (rel, content) =>
             if passes rel then Some (rel, content) else None
         | None => None
         end).
  revert w rfs w'.
  induction files as [|file rest IH]; intros w rfs w' H.
  - injection H as <- <-. reflexivity.
  - cbn [refactorFiles] in H.
    apply bind_Ok in H as (here & w1 & Hhere & H).
    apply bind_Ok in H as (more & w2 & Hmore & H).
    injection H as <- <-. rewrite map_app. cbn [omap list_omap].
    fold (omap entry rest).
    rewrite (IH _ _ _ Hmore). unfold entry.
    unfold try_catch, bind, lift in Hhere.
    destruct (readFile env file) as [content|e] eqn:Hread.
    + assert (Hr : read_for_refactoring env baseDir file
                   = Some (Text.relative baseDir file, content))
        by (unfold read_for_refactoring; by rewrite Hread).
      rewrite Hr.
      specialize (Hret file content (Text.relative baseDir file) w).
      destruct (passes (Text.relative baseDir file)).
      * destruct Hret as (code & w3 & Hcode).
        rewrite Hcode in Hhere. injection Hhere as <- <-. reflexivity.
      * destruct Hret as (e & w3 & Hcode).
        rewrite Hcode in Hhere. injection Hhere as <- <-. reflexivity.
    + assert (Hr : read_for_refactoring env baseDir file = None)
        by (unfold read_for_refactoring; by rewrite Hread).
      rewrite Hr. injection Hhere as <- <-. reflexivity.
Qed.

(** The entries [refactorFiles] pushes are those its refactorer shapes. *)
Lemma refactorFiles_Forall env rfw (P : RefactoredFile.t -> Prop)
    files baseDir issues w rfs w' :
  (forall path content l rel w0 code w1,
     rfw path content l rel w0 = (Ok code, w1) ->
     P {| RefactoredFile.file := rel; RefactoredFile.original := content;
          RefactoredFile.refactored := code |}) ->
  refactorFiles env rfw files baseDir issues w = (Ok rfs, w') ->
  Forall P rfs.
Proof.
  intros HP. revert w rfs w'.
  induction files as [|file rest IH]; intros w rfs w' H.
  - injection H as <- <-. constructor.
  - cbn [refactorFiles] in H.
    apply bind_Ok in H as (here & w1 & Hhere & H).
    apply bind_Ok in H as (more & w2 & Hmore & H).
    injection H as <- <-. apply Forall_app. split; [|by eapply IH].
    unfold try_catch in Hhere.
    destruct (bind (lift (readFile env file)) _ w) as [[l0|e] w0] eqn:Hb.
    + injection Hhere as <- <-.
      apply bind_Ok in Hb as (content & w3 & _ & Hb).
      apply bind_Ok in Hb as (code & w4 & Hcode & Hb).
      injection Hb as <- <-. constructor; [|constructor]. by eapply HP.
    + injection Hhere as <- <-. constructor.
Qed.

(** [retryWithBackoff] around the provider call, caught: the outcome of
    the [try] of [refactorFileWithGemini]. *)
Lemma returns_caught {A} (c : M A) (d : A) :
  returns (try_catch c (fun _ => ret d)).
Proof. apply returns_try_catch. intros. apply returns_ret. Qed.

(** [refactorFileWithGemini] of a version returns when it gets past the
    summary of the file's issues, and throws when it does not. *)
Lemma refactorFile_passes v env path content issues rel w :
  if summary_passed v env issues rel
  then exists code w1,
         match v with
         | server_version => ServerAnalyzer.refactorFileWithGemini env
         | fallback_version => FallbackAnalyzer.refactorFileWithGemini env
         end path content issues rel w = (Ok code, w1)
  else exists e w1,
         match v with
         | server_version => ServerAnalyzer.refactorFileWithGemini env
         | fallback_version => FallbackAnalyzer.refactorFileWithGemini env
         end path content issues rel w = (Throw e, w1).
Proof.
  unfold summary_passed.
  destruct v.
  - unfold ServerAnalyzer.refactorFileWithGemini.
    destruct (issuesSummary issues rel) as [summary|].
    + apply returns_caught.
    + unfold throw. eauto.
  - unfold FallbackAnalyzer.refactorFileWithGemini.
    destruct (issuesSummary issues rel) as [summary|].
    + destruct (negb _); [apply returns_ret|apply returns_caught].
    + destruct (negb (FallbackAnalyzer.has_ai env)).
      * apply (returns_ret content w).
      * unfold throw. eauto.
Qed.
End refactor_facts.

Lemma omap_length_le {A B} (f : A -> option B) (l : list A) :
  (length (omap f l) <= length l)%nat.
Proof.
  induction l as [|x l IH]; [done|]. cbn [omap list_omap].
  fold (omap f l). destruct (f x); simpl; lia.
Qed.

(** X21: [refactorFiles], in either version, returns one entry for each
    file it can read and whose refactoring does not throw, in the order of
    the files, with the file's path relative to the base directory and the
    content read.  It passes over a file it cannot read, and over a file
    one of whose issues has a line or a message that cannot be written in
    the summary of the issues, unless the version finds no client and
    returns before the summary.  So it returns as many entries as there
    are files at most. *)
Theorem refactorFiles_entries v env files baseDir issues w rfs w' :
  refactorFiles_of v env files baseDir issues w = (Ok rfs, w') ->
  map (fun f => (f.(Analyzer.RefactoredFile.file),
                 f.(Analyzer.RefactoredFile.original))) rfs
  = omap (entry_for_refactoring v env baseDir issues) files
  /\ (length rfs <= length files)%nat.
Proof.
  intros H.
  assert (Hmap : map (fun f => (f.(Analyzer.RefactoredFile.file),
                                f.(Analyzer.RefactoredFile.original))) rfs
                 = omap (entry_for_refactoring v env baseDir issues) files).
  { destruct v.
    - exact (refactorFiles_read env _ (summary_passed server_version env issues)
               files baseDir issues w rfs w'
               (fun path content rel w0 =>
                  refactorFile_passes server_version env path content issues rel w0)
               H).
    - exact (refactorFiles_read env _ (summary_passed fallback_version env issues)
               files baseDir issues w rfs w'
               (fun path content rel w0 =>
                  refactorFile_passes fallback_version env path content issues rel w0)
               H). }
  split; [exact Hmap|].
  rewrite <- (length_map (fun f => (f.(Analyzer.RefactoredFile.file),
                                    f.(Analyzer.RefactoredFile.original))) rfs).
  rewrite Hmap. apply omap_length_le.
Qed.

Lemma refactorFiles_entries_witness :
  let issues :=
    [{| Analyzer.Issue.severity := Analyzer.major;
        Analyzer.Issue.file := "app.py";
        Analyzer.Issue.line := Js.Num 3;
        Analyzer.Issue.message := Js.Obj [("toString", Js.Num 1)];
        Analyzer.Issue.rule := Js.Str "python/gemini-detected";
        Analyzer.Issue.suggestion := Some (Js.Str "") |}] in
  exists rfs w',
    refactorFiles_of server_version Example.env
      ["/tmp/code-analysis-a1b2c3/app.py"; "/tmp/code-analysis-a1b2c3/src/index.ts"]
      "/tmp/code-analysis-a1b2c3" issues Analyzer.World0 = (Ok rfs, w')
    /\ map (fun f => (f.(Analyzer.RefactoredFile.file),
                      f.(Analyzer.RefactoredFile.original))) rfs
       = [("src/index.ts", "content of /tmp/code-analysis-a1b2c3/src/index.ts")].
Proof.
  intros issues. eexists. eexists. split; [vm_compute; reflexivity|].
  refine (proj1 (refactorFiles_entries server_version Example.env
                   ["/tmp/code-analysis-a1b2c3/app.py";
                    "/tmp/code-analysis-a1b2c3/src/index.ts"]
                   "/tmp/code-analysis-a1b2c3" issues Analyzer.World0 _ _ _)).
  vm_compute. reflexivity.
Defined.

(** ** The files the issues are about *)
Section issue_files.
Import Analyzer.

Lemma Forall_list_filter {A} (P : A -> Prop) (p : A -> bool) l :
  Forall P l -> Forall P (List.filter p l).
Proof.
  induction 1 as [|x l Hx _ IH]; simpl; [constructor|].
  destruct (p x); [by constructor|done].
Qed.

Lemma parse_issues_file cleaned relativePath language :
  Forall (fun i => i.(Issue.file) = relativePath)
    (parse_issues cleaned relativePath language).
Proof.
  unfold parse_issues. destruct (Js.parse cleaned) as [[]|]; try constructor.
  destruct (existsb is_null elems); [constructor|].
  apply Forall_map. apply Forall_forall. reflexivity.
Qed.

Lemma server_analyzeFile_file env content path lang w l w' :
  ServerAnalyzer.analyzeFileWithGemini env content path lang w = (Ok l, w') ->
  Forall (fun i => i.(Issue.file) = path) l.
Proof.
  unfold ServerAnalyzer.analyzeFileWithGemini, try_catch, bind.
  destruct (call_generateContent env w) as [[response|e] w1].
  - intros [= <- <-]. unfold issues_of_response.
    destruct (response_text response); [apply parse_issues_file|constructor].
  - intros [= <- <-]. constructor.
Qed.

(** The issues [analyzeFilesWithGemini] returns are about files it could
    read. *)
Lemma analyzeFilesWithGemini_files env per_file files baseDir language w l w' :
  (forall content path lang w0 l0 w1,
     per_file content path lang w0 = (Ok l0, w1) ->
     Forall (fun i => i.(Issue.file) = path) l0) ->
  analyzeFilesWithGemini env per_file files baseDir language w = (Ok l, w') ->
  Forall (fun i => exists file content,
            file ∈ files
            /\ read_for_refactoring env baseDir file = Some (i.(Issue.file), content)) l.
Proof.
  intros Hfile. revert w l w'.
  induction files as [|file rest IH]; intros w l w' H.
  - injection H as <- <-. constructor.
  - cbn [analyzeFilesWithGemini] in H.
    apply bind_Ok in H as (issues & w1 & Hhere & H).
    apply bind_Ok in H as (more & w2 & Hmore & H).
    injection H as <- <-. apply Forall_app. split.
    + unfold try_catch in Hhere.
      destruct (bind (lift (readFile env file)) _ w) as [[l0|e] w0] eqn:Hb.
      * injection Hhere as <- <-.
        apply bind_Ok in Hb as (content & w3 & Hread & Hb).
        apply Hfile in Hb.
        eapply Forall_impl; [exact Hb|]. intros i Hi. simpl in Hi.
        exists file, content. split; [left|].
        unfold read_for_refactoring. unfold lift in Hread.
        injection Hread as Hread _. by rewrite Hread, Hi.
      * injection Hhere as <- <-. constructor.
    + eapply Forall_impl; [by eapply IH|].
      intros i (f & c & Hin & Hr). exists f, c. split; [by right|done].
Qed.

Lemma when_nonempty_files env per_file files tempDir language w l w' :
  (forall content path lang w0 l0 w1,
     per_file content path lang w0 = (Ok l0, w1) ->
     Forall (fun i => i.(Issue.file) = path) l0) ->
  when_nonempty files
    (fun fs dir => analyzeFilesWithGemini env per_file fs dir language) tempDir w
    = (Ok l, w') ->
  Forall (fun i => exists file content,
            file ∈ files
            /\ read_for_refactoring env tempDir file = Some (i.(Issue.file), content)) l.
Proof.
  intros Hfile. destruct files as [|f files].
  - intros [= <- <-]. constructor.
  - by apply analyzeFilesWithGemini_files.
Qed.
(** The summary of a file's issues is written when each of them has its
    line. *)
Lemma summary_lines_Some l :
  Forall (fun i => is_Some (summary_line i)) l -> is_Some (summary_lines l).
Proof.
  induction 1 as [|i l [line Hi] _ [lines IH]]; cbn [summary_lines]; [eauto|].
  rewrite Hi, IH. eauto.
Qed.

Lemma issuesSummary_Some issues rel :
  Forall (fun j => j.(Issue.file) = rel -> is_Some (summary_line j)) issues ->
  is_Some (issuesSummary issues rel).
Proof.
  intros H. unfold issuesSummary.
  assert (Hf : Forall (fun j => is_Some (summary_line j))
                 (List.filter (fun i => String.eqb i.(Issue.file) rel) issues)).
  { induction H as [|j l Hj _ IH]; cbn [List.filter]; [constructor|].
    destruct (String.eqb (Issue.file j) rel) eqn:E; [|exact IH].
    constructor; [|exact IH]. apply Hj. by apply String.eqb_eq. }
  destruct (List.filter _ issues) as [|i l]; [eauto|].
  destruct (summary_lines_Some _ Hf) as [lines ->]. eauto.
Qed.
End issue_files.

(** X22: in a result of [analyzeCode] of src/server, an issue is about a
    file whose refactored version the result carries, the issue's [file]
    being the [file] of one of the [refactoredFiles], as long as every
    issue of the result about that file has a line and a message that can
    be written in the summary of the file's issues.  (A file with an issue
    that cannot be written there is passed over by the refactorer, and its
    issues stay in the result.) *)
Theorem issues_are_about_refactored_files env requestId zip url mode w r w' :
  ServerAnalyzer.analyzeCode env requestId zip url mode w = (Ok r, w') ->
  Forall (fun i =>
            Forall (fun j => j.(Analyzer.Issue.file) = i.(Analyzer.Issue.file) ->
                             is_Some (Analyzer.summary_line j))
              r.(Analyzer.AnalysisResult.issues) ->
            exists f,
              f ∈ r.(Analyzer.AnalysisResult.refactoredFiles)
              /\ f.(Analyzer.RefactoredFile.file) = i.(Analyzer.Issue.file))
    r.(Analyzer.AnalysisResult.issues).
Proof.
  intros H. apply analyzeCode_inv in H
    as (tempDir & w0 & w1 & py & w2 & js & w3 & ts & w4 & rf & w5 & H).
  cbv zeta in H. destruct H as (_ & _ & Hpy & Hjs & Hts & Hrf & _ & ->).
  cbn [Analyzer.AnalysisResult.issues Analyzer.AnalysisResult.refactoredFiles].
  set (allIssues := if String.eqb mode "quick"
                    then List.filter Analyzer.critical_or_major (py ++ js ++ ts)
                    else (py ++ js ++ ts)%list) in *.
  unfold ServerAnalyzer.refactorFiles in Hrf.
  apply (refactorFiles_read env _ (summary_passed server_version env allIssues))
    in Hrf;
    [|intros path content rel w6;
      exact (refactorFile_passes server_version env path content allIssues rel w6)].
  set (pyF := Analyzer.walk [".py"] tempDir (Analyzer.fs w1)) in *.
  set (jsF := Analyzer.walk [".js"; ".jsx"; ".mjs"] tempDir (Analyzer.fs w1)) in *.
  set (tsF := Analyzer.walk [".ts"; ".tsx"] tempDir (Analyzer.fs w1)) in *.
  assert (Hall : Forall (fun i => exists file content,
            file ∈ (pyF ++ jsF ++ tsF)%list
            /\ read_for_refactoring env tempDir file
               = Some (i.(Analyzer.Issue.file), content)) (py ++ js ++ ts)).
  { rewrite !Forall_app. split; [|split].
    - apply when_nonempty_files in Hpy; [|apply server_analyzeFile_file].
      eapply Forall_impl; [exact Hpy|]. intros i (f & c & Hin & Hr).
      exists f, c. rewrite !elem_of_app. auto.
    - apply when_nonempty_files in Hjs; [|apply server_analyzeFile_file].
      eapply Forall_impl; [exact Hjs|]. intros i (f & c & Hin & Hr).
      exists f, c. rewrite !elem_of_app. auto.
    - apply when_nonempty_files in Hts; [|apply server_analyzeFile_file].
      eapply Forall_impl; [exact Hts|]. intros i (f & c & Hin & Hr).
      exists f, c. rewrite !elem_of_app. auto. }
  assert (Hgoal : Forall (fun i =>
            Forall (fun j => j.(Analyzer.Issue.file) = i.(Analyzer.Issue.file) ->
                             is_Some (Analyzer.summary_line j)) allIssues ->
            exists f,
              f ∈ rf /\ f.(Analyzer.RefactoredFile.file) = i.(Analyzer.Issue.file))
            (py ++ js ++ ts)).
  { eapply Forall_impl; [exact Hall|].
    intros i (file & content & Hin & Hr) Hsum.
    assert (Hmem : (i.(Analyzer.Issue.file), content)
                   ∈ omap (fun file =>
                             match read_for_refactoring env tempDir file with
                             | Some (rel, content) =>
                                 if summary_passed server_version env allIssues rel
                                 then Some (rel, content) else None
                             | None => None
                             end) (pyF ++ jsF ++ tsF)%list).
    { apply list_elem_of_omap. exists file. split; [exact Hin|].
      rewrite Hr. unfold summary_passed.
      destruct (issuesSummary_Some _ _ Hsum) as [summary ->]. reflexivity. }
    rewrite <- Hrf in Hmem. apply list_elem_of_fmap in Hmem as (f & Hf & Hfin).
    exists f. split; [exact Hfin|]. by injection Hf as <- _. }
  subst allIssues.
  destruct (String.eqb mode "quick"); [by apply Forall_list_filter|exact Hgoal].
Qed.

Lemma issues_are_about_refactored_files_witness :
  exists r w',
    ServerAnalyzer.analyzeCode Example.env Example.job_id (Some "PK") None
      "standard" Analyzer.World0 = (Ok r, w')
    /\ r.(Analyzer.AnalysisResult.issues) <> []
    /\ Forall (fun i => is_Some (Analyzer.summary_line i))
         r.(Analyzer.AnalysisResult.issues)
    /\ Forall (fun i => exists f,
                 f ∈ r.(Analyzer.AnalysisResult.refactoredFiles)
                 /\ f.(Analyzer.RefactoredFile.file) = i.(Analyzer.Issue.file))
         r.(Analyzer.AnalysisResult.issues).
Proof.
  destruct (ServerAnalyzer.analyzeCode Example.env Example.job_id (Some "PK") None
              "standard" Analyzer.World0) as [[r|e] w'] eqn:Hrun;
    [|vm_compute in Hrun; discriminate].
  exists r, w'. split; [reflexivity|].
  assert (Hsum : Forall (fun i => is_Some (Analyzer.summary_line i))
                   r.(Analyzer.AnalysisResult.issues)).
  { vm_compute in Hrun. injection Hrun as <- _.
    cbn [Analyzer.AnalysisResult.issues].
    repeat (constructor; [eexists; reflexivity|]). constructor. }
  split; [|split; [exact Hsum|]].
  - vm_compute in Hrun. injection Hrun as <- _. discriminate.
  - pose proof (issues_are_about_refactored_files Example.env Example.job_id
                  (Some "PK") None "standard" Analyzer.World0 r w' Hrun) as H.
    eapply Forall_impl; [exact H|]. intros i Hi. apply Hi.
    eapply Forall_impl; [exact Hsum|]. auto.
Defined.

(** ** The provider calls of an analysis *)
Section calls_facts.
Import Analyzer.

Lemma keeps_finally {X A} (obs : World -> X) (c : M A) (f : World -> World) :
  keeps obs c -> (forall w, obs (f w) = obs w) -> keeps obs (finally c f).
Proof.
  intros Hc Hf w. unfold finally. specialize (Hc w).
  destruct (c w) as [r w1]. simpl in *. by rewrite Hf.
Qed.

(** [analyzeCode], given that its steps keep the observation. *)
Lemma keeps_analyzeCode {X} (obs : World -> X) env aP aJ aT rF
    requestId zip url mode :
  (forall dir entries, keeps obs (write_dir dir entries)) ->
  (forall dir w, obs (cleanup env dir w) = obs w) ->
  (forall fs dir, keeps obs (aP fs dir)) ->
  (forall fs dir, keeps obs (aJ fs dir)) ->
  (forall fs dir, keeps obs (aT fs dir)) ->
  (forall fs dir l, keeps obs (rF fs dir l)) ->
  keeps obs (analyzeCode env aP aJ aT rF requestId zip url mode).
Proof.
  intros Hw Hc HP HJ HT HR. unfold analyzeCode. apply keeps_bind.
  - unfold make_temp_dir. destruct (mkdtemp env); [|apply keeps_throw].
    apply keeps_bind; [apply Hw|]. intros. apply keeps_ret.
  - intros tempDir. apply keeps_finally; [|apply Hc].
    apply keeps_analyzeCode_body; try assumption.
    unfold prepare, extractZip, cloneRepo.
    destruct zip as [z|].
    + destruct (extractAllTo env z); [apply Hw|apply keeps_throw].
    + destruct url as [u|]; [|apply keeps_throw].
      destruct (String.eqb u ""); [apply keeps_throw|].
      destruct (git_clone env u); [apply Hw|apply keeps_throw].
Qed.

Lemma cleanup_calls env dir w :
  (calls (cleanup env dir w), sleeps (cleanup env dir w)) = (calls w, sleeps w).
Proof. unfold cleanup. by destruct (rm_ok env dir). Qed.

Lemma calls_within_weaken {A} n m (c : M A) :
  (n <= m)%nat -> calls_within n c -> calls_within m c.
Proof. intros Hle H w. specialize (H w). lia. Qed.

Lemma calls_within_keeps {A} (c : M A) :
  keeps calls c -> calls_within 0 c.
Proof. intros H w. rewrite H. lia. Qed.

Lemma calls_within_ret {A} (a : A) : calls_within 0 (ret a).
Proof. intros w. simpl. lia. Qed.

Lemma calls_within_bind {A B} n m (c : M A) (k : A -> M B) :
  calls_within n c -> (forall a, calls_within m (k a)) ->
  calls_within (n + m) (bind c k).
Proof.
  intros Hc Hk w. unfold bind. specialize (Hc w).
  destruct (c w) as [[a|e] w1]; simpl in *; [|lia].
  specialize (Hk a w1). lia.
Qed.

Lemma calls_within_try_catch {A} n m (c : M A) (h : Exn -> M A) :
  calls_within n c -> (forall e, calls_within m (h e)) ->
  calls_within (n + m) (try_catch c h).
Proof.
  intros Hc Hh w. unfold try_catch. specialize (Hc w).
  destruct (c w) as [[a|e] w1]; simpl in *; [lia|].
  specialize (Hh e w1). lia.
Qed.

Lemma calls_within_call env : calls_within 1 (call_generateContent env).
Proof. intros w. simpl. lia. Qed.

Lemma calls_within_retry env :
  calls_within 3 (FallbackAnalyzer.retryWithBackoff (call_generateContent env) 3 2000).
Proof.
  intros w. rewrite retryWithBackoff_provider. cbn [snd calls].
  pose proof (rate_limited_run_le env.(generateContent) w.(calls) 2). lia.
Qed.

Lemma calls_within_analyzeFile v env content path lang :
  calls_within (attempts v)
    (match v with
     | server_version => ServerAnalyzer.analyzeFileWithGemini env
     | fallback_version => FallbackAnalyzer.analyzeFileWithGemini env
     end content path lang).
Proof.
  destruct v; simpl.
  - apply (calls_within_try_catch 1 0); [|intros; apply calls_within_ret].
    apply (calls_within_bind 1 0); [apply calls_within_call|].
    intros. apply calls_within_ret.
  - unfold FallbackAnalyzer.analyzeFileWithGemini.
    destruct (negb _).
    + eapply calls_within_weaken; [|apply calls_within_ret]. lia.
    + apply (calls_within_try_catch 3 0); [|intros; apply calls_within_ret].
      apply (calls_within_bind 3 0); [apply calls_within_retry|].
      intros. apply calls_within_ret.
Qed.

Lemma calls_within_throw {A} n e : calls_within n (@throw A e).
Proof. intros w. simpl. lia. Qed.

Lemma calls_within_refactorFile v env path content l rel :
  calls_within (attempts v)
    (match v with
     | server_version => ServerAnalyzer.refactorFileWithGemini env
     | fallback_version => FallbackAnalyzer.refactorFileWithGemini env
     end path content l rel).
Proof.
  destruct v; simpl.
  - unfold ServerAnalyzer.refactorFileWithGemini.
    destruct (issuesSummary l rel); [|apply calls_within_throw].
    apply (calls_within_try_catch 1 0); [|intros; apply calls_within_ret].
    apply (calls_within_bind 1 0); [apply calls_within_call|].
    intros. apply calls_within_ret.
  - unfold FallbackAnalyzer.refactorFileWithGemini.
    destruct (negb _).
    + eapply calls_within_weaken; [|apply calls_within_ret]. lia.
    + destruct (issuesSummary l rel); [|apply calls_within_throw].
      apply (calls_within_try_catch 3 0); [|intros; apply calls_within_ret].
      apply (calls_within_bind 3 0); [apply calls_within_retry|].
      intros. apply calls_within_ret.
Qed.

Lemma calls_within_analyzeFilesWithGemini b env per_file files baseDir language :
  (forall content path lang, calls_within b (per_file content path lang)) ->
  calls_within (b * length files)
    (analyzeFilesWithGemini env per_file files baseDir language).
Proof.
  intros Hfile. induction files as [|file rest IH].
  - eapply calls_within_weaken; [|apply calls_within_ret]. lia.
  - cbn [analyzeFilesWithGemini length].
    eapply calls_within_weaken;
      [|apply (calls_within_bind (b + 0) (b * length rest + 0))].
    + lia.
    + apply calls_within_try_catch; [|intros; apply calls_within_ret].
      intros w. unfold bind, lift.
      destruct (readFile env file); [apply Hfile|simpl; lia].
    + intros. apply calls_within_bind; [exact IH|].
      intros. apply calls_within_ret.
Qed.

Lemma calls_within_refactorFiles b env rfw files baseDir issues :
  (forall path content l rel, calls_within b (rfw path content l rel)) ->
  calls_within (b * length files) (refactorFiles env rfw files baseDir issues).
Proof.
  intros Hfile. induction files as [|file rest IH].
  - eapply calls_within_weaken; [|apply calls_within_ret]. lia.
  - cbn [refactorFiles length].
    eapply calls_within_weaken;
      [|apply (calls_within_bind (b + 0) (b * length rest + 0))].
    + lia.
    + apply calls_within_try_catch; [|intros; apply calls_within_ret].
      intros w. unfold bind at 1. unfold lift.
      destruct (readFile env file) as [content|e]; [|simpl; lia].
      pose proof (calls_within_bind b 0
                    (rfw file content issues (Text.relative baseDir file))
                    (fun code => ret [{| RefactoredFile.file := Text.relative baseDir file;
                                         RefactoredFile.original := content;
                                         RefactoredFile.refactored := code |}])
                    (Hfile _ _ _ _) (fun _ => calls_within_ret _) w) as H.
      rewrite Nat.add_0_r in H. exact H.
    + intros. apply calls_within_bind; [exact IH|].
      intros. apply calls_within_ret.
Qed.

Lemma calls_within_when_nonempty n files analyze tempDir :
  calls_within n (analyze files tempDir) ->
  calls_within n (when_nonempty files analyze tempDir).
Proof.
  intros H. destruct files; [|exact H].
  eapply calls_within_weaken; [|apply calls_within_ret]. lia.
Qed.

Lemma calls_within_fallback_analyzePythonFiles env files baseDir :
  calls_within (3 * length files)
    (FallbackAnalyzer.analyzePythonFiles env files baseDir).
Proof.
  unfold FallbackAnalyzer.analyzePythonFiles.
  eapply calls_within_weaken;
    [|apply (calls_within_bind (3 * length files + 0) 0)].
  - lia.
  - destruct (FallbackAnalyzer.has_ai env).
    + apply calls_within_try_catch; [|intros; apply calls_within_ret].
      apply calls_within_analyzeFilesWithGemini.
      apply (calls_within_analyzeFile fallback_version).
    + eapply calls_within_weaken; [|apply calls_within_ret]. lia.
  - intros [|i issues]; [|apply calls_within_ret].
    apply calls_within_keeps, keeps_dedup.
Qed.

(** The languages of each version, each within its share of calls. *)
Lemma calls_within_language v env files tempDir w l w'
    (analyze : list string -> string -> M (list Issue.t)) :
  (analyze = ServerAnalyzer.analyzePythonFiles env /\ v = server_version)
  \/ (analyze = ServerAnalyzer.analyzeJavaScriptFiles env /\ v = server_version)
  \/ (analyze = ServerAnalyzer.analyzeTypeScriptFiles env /\ v = server_version)
  \/ (analyze = FallbackAnalyzer.analyzePythonFiles env /\ v = fallback_version)
  \/ (analyze = FallbackAnalyzer.analyzeJavaScriptFiles env /\ v = fallback_version)
  \/ (analyze = FallbackAnalyzer.analyzeTypeScriptFiles env /\ v = fallback_version) ->
  when_nonempty files analyze tempDir w = (Ok l, w') ->
  (w.(calls) <= w'.(calls) <= w.(calls) + attempts v * length files)%nat.
Proof.
  intros Hcase Hrun.
  assert (H : calls_within (attempts v * length files)
                (when_nonempty files analyze tempDir)).
  { apply calls_within_when_nonempty.
    destruct Hcase as [[-> ->]|[[-> ->]|[[-> ->]|[[-> ->]|[[-> ->]|[-> ->]]]]]].
    - apply calls_within_analyzeFilesWithGemini.
      apply (calls_within_analyzeFile server_version).
    - apply calls_within_analyzeFilesWithGemini.
      apply (calls_within_analyzeFile server_version).
    - apply calls_within_analyzeFilesWithGemini.
      apply (calls_within_analyzeFile server_version).
    - apply calls_within_fallback_analyzePythonFiles.
    - apply calls_within_analyzeFilesWithGemini.
      apply (calls_within_analyzeFile fallback_version).
    - apply calls_within_analyzeFilesWithGemini.
      apply (calls_within_analyzeFile fallback_version). }
  specialize (H w). by rewrite Hrun in H.
Qed.
End calls_facts.

(** X23: the provider calls of an analysis are bounded by the files it
    found.  A run of [analyzeCode] that returns has called the provider at
    most twice per file analysed in src/server (once to analyse it, once to
    refactor it), and at most six times per file in the version that
    retries. *)
Theorem provider_calls_are_bounded v env requestId zip url mode w r w' :
  analyzeCode_of v env requestId zip url mode w = (Ok r, w') ->
  (w.(Analyzer.calls) <= w'.(Analyzer.calls)
   <= w.(Analyzer.calls)
      + 2 * attempts v
        * r.(Analyzer.AnalysisResult.summary).(Analyzer.Summary.total_files_analyzed))%nat.
Proof.
  intros H.
  assert (Hinv : exists tempDir w0 w1 w2 w3 w4 w5 (pyF jsF tsF : list string),
    Analyzer.make_temp_dir env w = (Ok tempDir, w0)
    /\ Analyzer.prepare env zip url tempDir w0 = (Ok tt, w1)
    /\ (w1.(Analyzer.calls) <= w2.(Analyzer.calls)
        <= w1.(Analyzer.calls) + attempts v * length pyF)%nat
    /\ (w2.(Analyzer.calls) <= w3.(Analyzer.calls)
        <= w2.(Analyzer.calls) + attempts v * length jsF)%nat
    /\ (w3.(Analyzer.calls) <= w4.(Analyzer.calls)
        <= w3.(Analyzer.calls) + attempts v * length tsF)%nat
    /\ (w4.(Analyzer.calls) <= w5.(Analyzer.calls)
        <= w4.(Analyzer.calls) + attempts v * length (pyF ++ jsF ++ tsF))%nat
    /\ w' = Analyzer.cleanup env tempDir w5
    /\ r.(Analyzer.AnalysisResult.summary).(Analyzer.Summary.total_files_analyzed)
       = (length pyF + length jsF + length tsF)%nat).
  { destruct v; apply analyzeCode_inv in H
      as (tempDir & w0 & w1 & py & w2 & js & w3 & ts & w4 & rf & w5 & H);
      cbv zeta in H;
      destruct H as (Hmk & Hprep & Hpy & Hjs & Hts & Hrf & Hw' & Hr);
      exists tempDir, w0, w1, w2, w3, w4, w5;
      eexists; eexists; eexists;
      (split; [exact Hmk|]); (split; [exact Hprep|]).
    - split; [eapply calls_within_language; [|exact Hpy]; auto|].
      split; [eapply calls_within_language; [|exact Hjs]; auto|].
      split; [eapply calls_within_language; [|exact Hts]; auto 10|].
      split; [|split; [exact Hw'|by rewrite Hr]].
      unfold ServerAnalyzer.refactorFiles in Hrf.
      match type of Hrf with
      | Analyzer.refactorFiles env ?f ?files ?dir ?issues w4 = _ =>
          pose proof (calls_within_refactorFiles 1 env f files dir issues
                        (calls_within_refactorFile server_version env) w4) as Hb
      end.
      rewrite Hrf in Hb. exact Hb.
    - split; [eapply calls_within_language; [|exact Hpy]; auto 10|].
      split; [eapply calls_within_language; [|exact Hjs]; auto 10|].
      split; [eapply calls_within_language; [|exact Hts]; auto 10|].
      split; [|split; [exact Hw'|by rewrite Hr]].
      unfold FallbackAnalyzer.refactorFiles in Hrf.
      match type of Hrf with
      | Analyzer.refactorFiles env ?f ?files ?dir ?issues w4 = _ =>
          pose proof (calls_within_refactorFiles 3 env f files dir issues
                        (calls_within_refactorFile fallback_version env) w4) as Hb
      end.
      rewrite Hrf in Hb. exact Hb. }
  destruct Hinv as (tempDir & w0 & w1 & w2 & w3 & w4 & w5
                    & pyF & jsF & tsF & Hmk & Hprep & H2 & H3 & H4 & H5 & -> & ->).
  assert (H0 : w0.(Analyzer.calls) = w.(Analyzer.calls)).
  { unfold Analyzer.make_temp_dir in Hmk. destruct (Analyzer.mkdtemp env); [|discriminate].
    injection Hmk as _ <-. reflexivity. }
  assert (H1 : w1.(Analyzer.calls) = w0.(Analyzer.calls)).
  { unfold Analyzer.prepare, Analyzer.extractZip, Analyzer.cloneRepo in Hprep.
    destruct zip as [z|].
    - destruct (Analyzer.extractAllTo env z); [|discriminate].
      injection Hprep as <-. reflexivity.
    - destruct url as [u|]; [|discriminate].
      destruct (String.eqb u ""); [discriminate|].
      destruct (Analyzer.git_clone env u); [|discriminate].
      injection Hprep as <-. reflexivity. }
  assert (Hc : (Analyzer.cleanup env tempDir w5).(Analyzer.calls) = w5.(Analyzer.calls)).
  { unfold Analyzer.cleanup. by destruct (Analyzer.rm_ok env tempDir). }
  rewrite Hc. rewrite !length_app in H5.
  destruct v; simpl attempts in *; lia.
Qed.

Lemma provider_calls_are_bounded_witness :
  exists r w',
    analyzeCode_of fallback_version Example.env Example.job_id (Some "PK") None
      "standard" Analyzer.World0 = (Ok r, w')
    /\ r.(Analyzer.AnalysisResult.summary).(Analyzer.Summary.total_files_analyzed) = 2%nat
    /\ (w'.(Analyzer.calls) <= 12)%nat.
Proof.
  destruct (analyzeCode_of fallback_version Example.env Example.job_id (Some "PK") None
              "standard" Analyzer.World0) as [[r|e] w'] eqn:Hrun;
    [|vm_compute in Hrun; discriminate].
  exists r, w'. split; [reflexivity|].
  assert (Ht : r.(Analyzer.AnalysisResult.summary).(Analyzer.Summary.total_files_analyzed)
               = 2%nat)
    by (vm_compute in Hrun; injection Hrun as <- _; reflexivity).
  split; [exact Ht|].
  pose proof (provider_calls_are_bounded fallback_version Example.env Example.job_id
                (Some "PK") None "standard" Analyzer.World0 r w' Hrun) as H.
  rewrite Ht in H. simpl in H. lia.
Defined.

(** ** Without a key *)
Section no_key.
Import Analyzer.
Variable env : Env.
Hypothesis Hno : FallbackAnalyzer.has_ai env = false.
Context {X : Type} (obs : World -> X).

Lemma keeps_analyzeFile_no_ai content path lang :
  keeps obs (FallbackAnalyzer.analyzeFileWithGemini env content path lang).
Proof.
  unfold FallbackAnalyzer.analyzeFileWithGemini. rewrite Hno. apply keeps_ret.
Qed.

Lemma keeps_refactorFile_no_ai path content l rel :
  keeps obs (FallbackAnalyzer.refactorFileWithGemini env path content l rel).
Proof.
  unfold FallbackAnalyzer.refactorFileWithGemini. rewrite Hno. apply keeps_ret.
Qed.

Lemma keeps_analyzePythonFiles_no_ai files baseDir :
  keeps obs (FallbackAnalyzer.analyzePythonFiles env files baseDir).
Proof.
  unfold FallbackAnalyzer.analyzePythonFiles. rewrite Hno.
  apply keeps_bind; [apply keeps_ret|].
  intros [|i issues]; [apply keeps_dedup|apply keeps_ret].
Qed.
End no_key.

(** Without a client the refactorer returns the content it is given. *)
Lemma refactorFiles_without_client env files baseDir issues w rfs w' :
  FallbackAnalyzer.has_ai env = false ->
  FallbackAnalyzer.refactorFiles env files baseDir issues w = (Ok rfs, w') ->
  Forall (fun f => f.(Analyzer.RefactoredFile.refactored)
                   = f.(Analyzer.RefactoredFile.original)) rfs.
Proof.
  intros Hno. unfold FallbackAnalyzer.refactorFiles.
  apply refactorFiles_Forall.
  intros path content l rel w0 code w1.
  unfold FallbackAnalyzer.refactorFileWithGemini. rewrite Hno.
  intros [= <- _]. reflexivity.
Qed.

(** X24: without [GEMINI_API_KEY] (unset or empty) the version with the
    linters never calls the provider and never waits, whether the analysis
    returns or throws; and in the result it returns every refactored file
    holds the original content. *)
Theorem no_key_means_no_provider_call env requestId zip url mode w :
  FallbackAnalyzer.has_ai env = false ->
  let run := FallbackAnalyzer.analyzeCode env requestId zip url mode w in
  run.2.(Analyzer.calls) = w.(Analyzer.calls)
  /\ run.2.(Analyzer.sleeps) = w.(Analyzer.sleeps)
  /\ forall r, run.1 = Ok r ->
       Forall (fun f => f.(Analyzer.RefactoredFile.refactored)
                        = f.(Analyzer.RefactoredFile.original))
         r.(Analyzer.AnalysisResult.refactoredFiles).
Proof.
  intros Hno run. subst run.
  assert (Hkeep : keeps (fun w => (w.(Analyzer.calls), w.(Analyzer.sleeps)))
                    (FallbackAnalyzer.analyzeCode env requestId zip url mode)).
  { apply keeps_analyzeCode.
    - intros dir entries w0. reflexivity.
    - intros. apply cleanup_calls.
    - intros. by apply keeps_analyzePythonFiles_no_ai.
    - intros. apply keeps_analyzeFilesWithGemini. intros.
      by apply keeps_analyzeFile_no_ai.
    - intros. apply keeps_analyzeFilesWithGemini. intros.
      by apply keeps_analyzeFile_no_ai.
    - intros. apply keeps_refactorFiles. intros.
      by apply keeps_refactorFile_no_ai. }
  specialize (Hkeep w). cbv beta in Hkeep. injection Hkeep as Hc Hs.
  split; [exact Hc|]. split; [exact Hs|].
  intros r Hr.
  destruct (FallbackAnalyzer.analyzeCode env requestId zip url mode w)
    as [res w'] eqn:Hrun. simpl in Hr. subst res.
  apply analyzeCode_inv in Hrun
    as (tempDir & w0 & w1 & py & w2 & js & w3 & ts & w4 & rf & w5 & H).
  cbv zeta in H. destruct H as (_ & _ & _ & _ & _ & Hrf & _ & ->).
  cbn [Analyzer.AnalysisResult.refactoredFiles].
  eapply refactorFiles_without_client; [|exact Hrf].
  exact Hno.
Qed.

Lemma no_key_means_no_provider_call_witness :
  FallbackAnalyzer.has_ai Example.env_no_key = false
  /\ (FallbackAnalyzer.analyzeCode Example.env_no_key Example.job_id (Some "PK")
        None "standard" Analyzer.World0).2.(Analyzer.calls) = 0%nat
  /\ exists r,
       (FallbackAnalyzer.analyzeCode Example.env_no_key Example.job_id (Some "PK")
          None "standard" Analyzer.World0).1 = Ok r
       /\ length r.(Analyzer.AnalysisResult.refactoredFiles) = 2%nat
       /\ Forall (fun f => f.(Analyzer.RefactoredFile.refactored)
                           = f.(Analyzer.RefactoredFile.original))
            r.(Analyzer.AnalysisResult.refactoredFiles).
Proof.
  split; [reflexivity|].
  destruct (no_key_means_no_provider_call Example.env_no_key Example.job_id
              (Some "PK") None "standard" Analyzer.World0 eq_refl)
    as (Hc & _ & Hr).
  split; [exact Hc|].
  destruct (FallbackAnalyzer.analyzeCode Example.env_no_key Example.job_id (Some "PK")
              None "standard" Analyzer.World0) as [[r|e] w'] eqn:Hrun;
    [|vm_compute in Hrun; discriminate].
  exists r. split; [reflexivity|]. split.
  - vm_compute in Hrun. injection Hrun as <- _. reflexivity.
  - by apply Hr.
Defined.

(** ** An archive without source files *)

(** X25: when the archive holds no file with one of the extensions the
    analysis looks for outside the directories it passes over, [analyzeCode]
    returns, in either version and any mode, the completed result with no
    language, no file, no issue and no refactored file, and the provider is
    neither called nor waited for. *)
Theorem analysis_without_source_files v env requestId z url mode w tempDir entries :
  env.(Analyzer.mkdtemp) = Ok tempDir ->
  env.(Analyzer.extractAllTo) z = Ok entries ->
  (forall exts, exts ∈ source_extensions ->
     flat_map (Analyzer.walk_entry exts tempDir) entries = []) ->
  let run := analyzeCode_of v env requestId (Some z) url mode w in
  run.1 = Ok {| Analyzer.AnalysisResult.request_id := requestId;
                Analyzer.AnalysisResult.status := "completed";
                Analyzer.AnalysisResult.summary :=
                  {| Analyzer.Summary.languages := [];
                     Analyzer.Summary.total_files_analyzed := 0;
                     Analyzer.Summary.issues_count :=
                       {| Analyzer.IssuesCount.critical := 0;
                          Analyzer.IssuesCount.major := 0;
                          Analyzer.IssuesCount.minor := 0 |} |};
                Analyzer.AnalysisResult.issues := [];
                Analyzer.AnalysisResult.patches := [];
                Analyzer.AnalysisResult.refactoredFiles := [] |}
  /\ run.2.(Analyzer.calls) = w.(Analyzer.calls)
  /\ run.2.(Analyzer.sleeps) = w.(Analyzer.sleeps).
Proof.
  intros Hmk Hz Hnone run. subst run.
  assert (Hwalk : forall exts (m : gmap string (list Analyzer.Dirent)),
    exts ∈ source_extensions ->
    Analyzer.walk exts tempDir (<[tempDir := entries]> m) = []).
  { intros exts m Hin. unfold Analyzer.walk. rewrite lookup_insert_eq.
    by apply Hnone. }
  assert (Hpy : [".py"] ∈ source_extensions) by (repeat constructor).
  assert (Hjs : [".js"; ".jsx"; ".mjs"] ∈ source_extensions) by (repeat constructor).
  assert (Hts : [".ts"; ".tsx"] ∈ source_extensions) by (repeat constructor).
  destruct v; simpl analyzeCode_of;
    [unfold ServerAnalyzer.analyzeCode|unfold FallbackAnalyzer.analyzeCode];
    unfold Analyzer.analyzeCode, Analyzer.make_temp_dir; rewrite Hmk;
    unfold Analyzer.finally, Analyzer.analyzeCode_body, Analyzer.prepare,
      Analyzer.extractZip; rewrite Hz;
    unfold Analyzer.bind, Analyzer.write_dir, Analyzer.ret, Analyzer.findFiles;
    cbn [Analyzer.fs Analyzer.calls Analyzer.sleeps];
    rewrite !Hwalk by assumption;
    cbn [Analyzer.when_nonempty app length];
    unfold Analyzer.ret; cbn [app];
    [unfold ServerAnalyzer.refactorFiles|unfold FallbackAnalyzer.refactorFiles];
    cbn [Analyzer.refactorFiles]; unfold Analyzer.ret;
    destruct (String.eqb mode "quick"); cbn [List.filter length fst snd];
    unfold Analyzer.cleanup; destruct (Analyzer.rm_ok env tempDir);
    cbn [Analyzer.calls Analyzer.sleeps];
    repeat split; reflexivity.
Qed.

Lemma analysis_without_source_files_witness :
  let env :=
    {| Analyzer.GEMINI_API_KEY := Some "key";
       Analyzer.generateContent := Example.env.(Analyzer.generateContent);
       Analyzer.mkdtemp := Ok "/tmp/code-analysis-a1b2c3";
       Analyzer.extractAllTo := fun _ =>
         Ok [Analyzer.File "README.md"; Analyzer.File ".eslintrc.js";
             Analyzer.Directory "node_modules" (Some [Analyzer.File "x.js"])];
       Analyzer.git_clone := Example.env.(Analyzer.git_clone);
       Analyzer.readFile := Example.env.(Analyzer.readFile);
       Analyzer.exec_pylint := Example.env.(Analyzer.exec_pylint);
       Analyzer.exec_pyflakes := Example.env.(Analyzer.exec_pyflakes);
       Analyzer.rm_ok := fun _ => true |} in
  (forall exts, exts ∈ source_extensions ->
     flat_map (Analyzer.walk_entry exts "/tmp/code-analysis-a1b2c3")
       [Analyzer.File "README.md"; Analyzer.File ".eslintrc.js";
        Analyzer.Directory "node_modules" (Some [Analyzer.File "x.js"])] = [])
  /\ (analyzeCode_of server_version env Example.job_id (Some "PK") None "deep"
        Analyzer.World0).2.(Analyzer.calls) = 0%nat.
Proof.
  intros env.
  assert (H : forall exts, exts ∈ source_extensions ->
     flat_map (Analyzer.walk_entry exts "/tmp/code-analysis-a1b2c3")
       [Analyzer.File "README.md"; Analyzer.File ".eslintrc.js";
        Analyzer.Directory "node_modules" (Some [Analyzer.File "x.js"])] = []).
  { intros exts Hin. unfold source_extensions in Hin.
    repeat (apply elem_of_cons in Hin as [->|Hin]; [vm_compute; reflexivity|]).
    by apply elem_of_nil in Hin. }
  split; [exact H|].
  exact (proj1 (proj2 (analysis_without_source_files server_version env
                         Example.job_id "PK" None "deep" Analyzer.World0
                         "/tmp/code-analysis-a1b2c3" _ eq_refl eq_refl H))).
Defined.

(** ** The merge of the linters' issues *)
Section dedup_facts.
Import Analyzer FallbackAnalyzer.

Lemma dedup_spec seen candidates w l w' :
  dedup seen candidates w = (Ok l, w') ->
  w' = w
  /\ sublist l candidates
  /\ NoDup (map issue_key l)
  /\ (forall i, i ∈ l -> exists k, issue_key i = Some k /\ k ∉ seen)
  /\ (forall i, i ∈ candidates ->
        exists k, issue_key i = Some k
                  /\ (k ∈ seen \/ exists i', i' ∈ l /\ issue_key i' = Some k)).
Proof.
  revert seen l. induction candidates as [|i rest IH]; intros seen l H.
  - injection H as <- <-. split; [done|]. split; [done|]. split; [constructor|].
    split; intros i Hi; by apply elem_of_nil in Hi.
  - cbn [dedup] in H. destruct (issue_key i) as [key|] eqn:Hkey; [|discriminate].
    case_bool_decide as Hseen.
    + apply IH in H as (-> & Hsub & Hnd & Hl & Hc).
      split; [done|]. split; [by apply sublist_cons|]. split; [done|].
      split; [done|].
      intros i0 Hi0. apply elem_of_cons in Hi0 as [->|Hi0]; [eauto|by apply Hc].
    + apply bind_Ok in H as (more & w1 & Hmore & H). injection H as <- <-.
      apply IH in Hmore as (-> & Hsub & Hnd & Hl & Hc).
      split; [done|]. split; [by apply sublist_skip|]. split.
      { cbn [map]. rewrite Hkey. constructor; [|done].
        intros Hin. apply list_elem_of_fmap in Hin as (i' & Hk' & Hi').
        destruct (Hl i' Hi') as (k & Hk & Hnot). apply Hnot.
        assert (k = key) by congruence. subst k.
        apply elem_of_union. left. by apply elem_of_singleton. }
      split.
      { intros i0 Hi0. apply elem_of_cons in Hi0 as [->|Hi0].
        - eauto.
        - destruct (Hl i0 Hi0) as (k & Hk & Hnot). exists k. split; [done|].
          intros Hin. apply Hnot, elem_of_union. by right. }
      intros i0 Hi0. apply elem_of_cons in Hi0 as [->|Hi0].
      * exists key. split; [done|]. right. exists i. split; [left|done].
      * destruct (Hc i0 Hi0) as (k & Hk & [Hin|(i' & Hi' & Hk')]).
        -- exists k. split; [done|].
           apply elem_of_union in Hin as [Hin|Hin]; [|by left].
           apply elem_of_singleton in Hin. subst k.
           right. exists i. split; [left|done].
        -- exists k. split; [done|]. right. exists i'. split; [by right|done].
Qed.
End dedup_facts.

(** X26: the loop of [analyzePythonFiles] that merges the issues of the two
    linters keeps, in their order, issues of the list it is given, no two
    with the same key [file:line:message], and some issue for the key of
    every issue of the list. *)
Theorem dedup_keeps_one_issue_per_key candidates w l w' :
  FallbackAnalyzer.dedup ∅ candidates w = (Ok l, w') ->
  w' = w
  /\ sublist l candidates
  /\ NoDup (map FallbackAnalyzer.issue_key l)
  /\ forall i, i ∈ candidates ->
       exists i', i' ∈ l
                  /\ FallbackAnalyzer.issue_key i' = FallbackAnalyzer.issue_key i.
Proof.
  intros H. apply dedup_spec in H as (Hw & Hsub & Hnd & _ & Hc).
  split; [exact Hw|]. split; [exact Hsub|]. split; [exact Hnd|].
  intros i Hi. destruct (Hc i Hi) as (k & Hk & [Hin|(i' & Hi' & Hk')]).
  - by apply not_elem_of_empty in Hin.
  - exists i'. split; [exact Hi'|congruence].
Qed.

Lemma dedup_keeps_one_issue_per_key_witness :
  let pyflakes :=
    {| Analyzer.Issue.severity := Analyzer.critical; Analyzer.Issue.file := "app.py";
       Analyzer.Issue.line := Js.Num 3;
       Analyzer.Issue.message := Js.Str "undefined name 'x'";
       Analyzer.Issue.rule := Js.Str "python/pyflakes";
       Analyzer.Issue.suggestion := Some (Js.Str "Review and fix the issue") |} in
  let pylint :=
    {| Analyzer.Issue.severity := Analyzer.critical; Analyzer.Issue.file := "app.py";
       Analyzer.Issue.line := Js.Num 3;
       Analyzer.Issue.message := Js.Str "undefined name 'x'";
       Analyzer.Issue.rule := Js.Str "python/pylint-undefined-variable";
       Analyzer.Issue.suggestion := Some (Js.Str "Fix the error issue") |} in
  FallbackAnalyzer.dedup ∅ [pylint; pyflakes] Analyzer.World0
    = (Ok [pylint], Analyzer.World0)
  /\ NoDup (map FallbackAnalyzer.issue_key [pylint]).
Proof.
  intros pyflakes pylint.
  assert (H : FallbackAnalyzer.dedup ∅ [pylint; pyflakes] Analyzer.World0
              = (Ok [pylint], Analyzer.World0)) by (vm_compute; reflexivity).
  split; [exact H|].
  exact (proj1 (proj2 (proj2 (dedup_keeps_one_issue_per_key _ _ _ _ H)))).
Defined.

(** ** The files the walk finds *)
Section walk_facts.
Import Analyzer.

Lemma Dirent_ind' (P : Dirent -> Prop) :
  (forall name, P (File name)) ->
  (forall name, P (Directory name None)) ->
  (forall name entries, Forall P entries -> P (Directory name (Some entries))) ->
  (forall name, P (Other name)) ->
  forall e, P e.
Proof.
  intros HF HN HD HO.
  fix IH 1. intros [name|name [entries|]|name]; [apply HF| |apply HN|apply HO].
  apply HD. induction entries as [|e es IHes]; constructor; [apply IH|exact IHes].
Qed.

Lemma chars_app (a b : string) :
  Js.chars (a ++ b) = (Js.chars a ++ Js.chars b)%list.
Proof. induction a as [|c a IH]; simpl; [reflexivity|]. by rewrite IH. Qed.

Lemma text_chars (str : string) : Js.text (Js.chars str) = str.
Proof. apply string_of_list_ascii_of_string. Qed.

Lemma strip_prefix_app p l : Js.strip_prefix p (p ++ l)%list = Some l.
Proof.
  induction p as [|c p IH]; simpl; [reflexivity|].
  by rewrite Ascii.eqb_refl.
Qed.

Lemma append_assoc (a b c : string) : (a ++ b) ++ c = a ++ (b ++ c).
Proof.
  induction a as [|x a IH]; [reflexivity|].
  change (String x ((a ++ b) ++ c) = String x (a ++ (b ++ c))). by rewrite IH.
Qed.

Lemma join_path_assoc dir name rest :
  Text.join_path (Text.join_path dir name) rest
  = Text.join_path dir (Text.join_path name rest).
Proof.
  unfold Text.join_path.
  rewrite (append_assoc dir ("/" ++ name) ("/" ++ rest)). reflexivity.
Qed.

Lemma relative_join dir rest :
  Text.relative dir (Text.join_path dir rest) = rest.
Proof.
  unfold Text.relative, Text.join_path.
  replace (dir ++ "/" ++ rest) with ((dir ++ "/") ++ rest) by apply append_assoc.
  rewrite (chars_app (dir ++ "/") rest), strip_prefix_app. apply text_chars.
Qed.

(** A file the walk finds below [dir] is [dir], a separator and a path, and
    that path ends in an entry name that is not passed over and has one of
    the extensions. *)
Lemma walk_entry_found extensions e :
  forall dir p,
    p ∈ walk_entry extensions dir e ->
    exists rest name,
      p = Text.join_path dir rest
      /\ (rest = name \/ exists above, rest = Text.join_path above name)
      /\ skipped name = false
      /\ has_extension extensions name = true.
Proof.
  induction e as [name|name|name entries IH|name] using Dirent_ind';
    intros dir p; cbn [walk_entry entry_name];
    destruct (skipped name) eqn:Hskip;
    try (intros Hin; by apply elem_of_nil in Hin).
  - destruct (has_extension extensions name) eqn:Hext;
      [|intros Hin; by apply elem_of_nil in Hin].
    intros Hin. apply list_elem_of_singleton in Hin. subst p.
    exists name, name. auto.
  - intros Hin. apply list_elem_of_In, in_flat_map in Hin as (e & He & Hin).
    rewrite Forall_forall in IH.
    apply list_elem_of_In in He, Hin.
    destruct (IH e He _ _ Hin) as (rest & leaf & -> & Hrest & Hs & Hx).
    exists (Text.join_path name rest), leaf.
    split; [apply join_path_assoc|].
    split; [|done]. right.
    destruct Hrest as [->|(above & ->)]; [by exists name|].
    exists (Text.join_path name above). symmetry. apply join_path_assoc.
Qed.
End walk_facts.

(** X27: every file [findFiles] returns lies below the directory it walks:
    taking its path relative to the directory and joining it to the
    directory again gives the path back.  The path ends in an entry name
    that [walk] does not pass over and whose extension, in lower case, is one
    of those asked for.  The world is left as it was. *)
Theorem findFiles_returns_files_below_dir dir extensions w :
  exists files,
    Analyzer.findFiles dir extensions w = (Ok files, w)
    /\ Forall (fun p =>
         Text.join_path dir (Text.relative dir p) = p
         /\ exists name,
              (Text.relative dir p = name
               \/ exists above, Text.relative dir p = Text.join_path above name)
              /\ Analyzer.skipped name = false
              /\ Analyzer.has_extension extensions name = true) files.
Proof.
  eexists. split; [reflexivity|]. unfold Analyzer.walk.
  destruct (Analyzer.fs w !! dir) as [entries|]; [|constructor].
  apply Forall_forall. intros p Hin.
  apply list_elem_of_In, in_flat_map in Hin as (e & He & Hin).
  apply list_elem_of_In in Hin.
  apply walk_entry_found in Hin as (rest & name & -> & Hrest & Hs & Hx).
  rewrite relative_join. split; [reflexivity|]. exists name. auto.
Qed.

(** ** The cleaning of the provider's replies *)
Section cleaning_facts.
Import Text.
Local Open Scope list_scope.

Lemma chars_text l : Js.chars (Js.text l) = l.
Proof. apply list_ascii_of_string_of_list_ascii. Qed.

Lemma includes_chars_cons needle c hay :
  includes_chars needle (c :: hay) = false ->
  Js.strip_prefix needle (c :: hay) = None /\ includes_chars needle hay = false.
Proof.
  cbn [includes_chars]. unfold starts_with_chars. intros H.
  apply orb_false_iff in H as [H1 H2].
  destruct (Js.strip_prefix needle (c :: hay)); [discriminate|done].
Qed.

(** Where the pattern does not occur, the replacement changes nothing. *)
Lemma remove_all_id tag fuel l :
  includes_chars tag l = false -> remove_all tag fuel l = l.
Proof.
  revert l. induction fuel as [|f IH]; intros l H; [reflexivity|].
  destruct l as [|c r].
  - cbn [remove_all]. destruct (Js.strip_prefix tag []) as [[|]|] eqn:E; try reflexivity.
    destruct tag; discriminate.
  - apply includes_chars_cons in H as [Hs Hr].
    cbn [remove_all]. rewrite Hs. by rewrite IH.
Qed.

(** A fence does not start in a text without one that a line break
    follows. *)
Lemma strip_fence_before_newline a r :
  Js.strip_prefix fence a = None ->
  Js.strip_prefix fence (a ++ Js.ch_newline :: r) = None.
Proof.
  unfold fence. intros H.
  destruct a as [|c1 a]; [reflexivity|].
  cbn [app Js.strip_prefix] in *. destruct (Ascii.eqb "`" c1); [|reflexivity].
  destruct a as [|c2 a]; [reflexivity|].
  cbn [app Js.strip_prefix] in *. destruct (Ascii.eqb "`" c2); [|reflexivity].
  destruct a as [|c3 a]; [reflexivity|].
  cbn [app Js.strip_prefix] in *. destruct (Ascii.eqb "`" c3); [discriminate|reflexivity].
Qed.

Lemma strip_tag_needs_fence tag l :
  Js.strip_prefix fence l = None -> Js.strip_prefix (fence ++ tag) l = None.
Proof.
  unfold fence. intros H.
  destruct l as [|c1 l]; [reflexivity|].
  cbn [app Js.strip_prefix] in *. destruct (Ascii.eqb "`" c1); [|reflexivity].
  destruct l as [|c2 l]; [reflexivity|].
  cbn [app Js.strip_prefix] in *. destruct (Ascii.eqb "`" c2); [|reflexivity].
  destruct l as [|c3 l]; [reflexivity|].
  cbn [app Js.strip_prefix] in *. destruct (Ascii.eqb "`" c3); [discriminate|reflexivity].
Qed.

Lemma includes_fence_tail tag body :
  tag <> [] ->
  includes_chars fence body = false ->
  includes_chars (fence ++ tag) (body ++ Js.ch_newline :: fence) = false.
Proof.
  intros Htag. induction body as [|c body IH]; intros H.
  - destruct tag as [|t tag]; [done|]. reflexivity.
  - apply includes_chars_cons in H as [Hs Hr].
    change ((c :: body) ++ Js.ch_newline :: fence)
      with (c :: (body ++ Js.ch_newline :: fence)).
    cbn [includes_chars]. rewrite (IH Hr), orb_false_r.
    unfold starts_with_chars.
    change (c :: (body ++ Js.ch_newline :: fence))
      with ((c :: body) ++ Js.ch_newline :: fence).
    by rewrite strip_tag_needs_fence by by apply strip_fence_before_newline.
Qed.

(** The second replacement takes the closing fence off a text without
    fences. *)
Lemma remove_closing_fence fuel body :
  (length body + 2 <= fuel)%nat ->
  includes_chars fence body = false ->
  remove_all fence fuel (body ++ Js.ch_newline :: fence) = body ++ [Js.ch_newline].
Proof.
  revert fuel. induction body as [|c body IH]; intros fuel Hfuel H.
  - destruct fuel as [|[|fuel]]; [simpl in Hfuel; lia..|]. reflexivity.
  - apply includes_chars_cons in H as [Hs Hr].
    destruct fuel as [|fuel]; [simpl in Hfuel; lia|].
    change ((c :: body) ++ Js.ch_newline :: fence)
      with (c :: (body ++ Js.ch_newline :: fence)).
    cbn [remove_all].
    change (c :: (body ++ Js.ch_newline :: fence))
      with ((c :: body) ++ Js.ch_newline :: fence).
    rewrite strip_fence_before_newline by done.
    cbn [app]. rewrite IH; [reflexivity|simpl in Hfuel; lia|done].
Qed.

Lemma drop_while_app p a b :
  drop_while p (a ++ b)
  = if forallb p a then drop_while p b else drop_while p a ++ b.
Proof.
  induction a as [|c a IH]; [reflexivity|].
  cbn [app drop_while forallb]. destruct (p c); [exact IH|reflexivity].
Qed.

Lemma drop_while_all p a : forallb p a = true -> drop_while p a = [].
Proof.
  induction a as [|c a IH]; [reflexivity|].
  cbn [forallb drop_while]. destruct (p c); [exact IH|discriminate].
Qed.

(** A line break at the end goes with the trimming. *)
Lemma trim_chars_newline l : trim_chars (l ++ [Js.ch_newline]) = trim_chars l.
Proof.
  unfold trim_chars. rewrite drop_while_app.
  destruct (forallb is_space l) eqn:Hall.
  - rewrite (drop_while_all _ _ Hall). reflexivity.
  - rewrite rev_app_distr. reflexivity.
Qed.

Lemma forallb_Forall_word (l : list ascii) :
  Forall (fun c => is_word c = true) l -> forallb is_word l = true.
Proof. induction 1 as [|c l Hc _ IH]; [reflexivity|]. simpl. by rewrite Hc. Qed.

Lemma rev_fence_tail l :
  rev (l ++ Js.ch_newline :: fence) = fence ++ Js.ch_newline :: rev l.
Proof.
  unfold fence. rewrite rev_app_distr. reflexivity.
Qed.
End cleaning_facts.

(** X28: a reply to an analysis request that comes wrapped in a [json]
    fence is cleaned to the same text as the bare reply, the reply trimmed,
    as long as the reply itself holds no fence. *)
Theorem fenced_json_reply_is_unwrapped body :
  Text.includes_chars Text.fence (Js.chars body) = false ->
  Text.clean_json_response (fenced "json" body) = Text.trim body
  /\ Text.clean_json_response body = Text.trim body.
Proof.
  intros H. split.
  - unfold Text.clean_json_response, fenced. rewrite chars_text.
    set (B := Js.chars body) in *.
    assert (H1 : Text.remove_all (Text.fence ++ Js.chars "json")
                   (S (length (Text.fence ++ Js.chars "json" ++ Js.ch_newline :: B
                                 ++ Js.ch_newline :: Text.fence)%list))
                   (Text.fence ++ Js.chars "json" ++ Js.ch_newline :: B
                      ++ Js.ch_newline :: Text.fence)%list
                 = (B ++ Js.ch_newline :: Text.fence)%list).
    { rewrite (app_assoc Text.fence (Js.chars "json")).
      cbn [Text.remove_all]. rewrite strip_prefix_app.
      change (Js.code Js.ch_newline =? 10)%N with true. cbv iota.
      apply remove_all_id. by apply includes_fence_tail. }
    rewrite H1.
    rewrite remove_closing_fence; [|rewrite length_app; simpl; lia|exact H].
    rewrite trim_chars_newline. reflexivity.
  - unfold Text.clean_json_response.
    rewrite (remove_all_id (Text.fence ++ Js.chars "json")).
    + rewrite remove_all_id by exact H. reflexivity.
    + clear -H. induction (Js.chars body) as [|c l IH]; [reflexivity|].
      apply includes_chars_cons in H as [Hs Hr].
      cbn [Text.includes_chars]. rewrite (IH Hr), orb_false_r.
      unfold Text.starts_with_chars. by rewrite strip_tag_needs_fence.
Qed.

Lemma fenced_json_reply_is_unwrapped_witness :
  Text.includes_chars Text.fence (Js.chars Example.reply_issues) = false
  /\ Text.clean_json_response (fenced "json" Example.reply_issues)
     = Text.trim Example.reply_issues.
Proof.
  assert (H : Text.includes_chars Text.fence (Js.chars Example.reply_issues) = false)
    by (vm_compute; reflexivity).
  split; [exact H|].
  exact (proj1 (fenced_json_reply_is_unwrapped Example.reply_issues H)).
Defined.

(** X29: a reply to a refactoring request that comes wrapped in a fence,
    with or without a language tag after the opening fence, is cleaned to
    the code inside, trimmed, whatever the code holds. *)
Theorem fenced_code_reply_is_unwrapped lang code :
  Forall (fun c => Text.is_word c = true) (Js.chars lang) ->
  Text.clean_code_response (fenced lang code) = Text.trim code.
Proof.
  intros Hlang. unfold Text.clean_code_response, fenced. rewrite chars_text.
  set (L := Js.chars lang) in *. set (C := Js.chars code).
  assert (Hopen : Text.strip_opening_fence
                    (Text.fence ++ L ++ Js.ch_newline :: C ++ Js.ch_newline :: Text.fence)%list
                  = (C ++ Js.ch_newline :: Text.fence)%list).
  { unfold Text.strip_opening_fence. rewrite strip_prefix_app.
    rewrite drop_while_app, (forallb_Forall_word _ Hlang). reflexivity. }
  rewrite Hopen. unfold Text.strip_closing_fence.
  rewrite rev_fence_tail, strip_prefix_app.
  change (Js.code Js.ch_newline =? 10)%N with true. cbv iota.
  by rewrite rev_involutive.
Qed.

Lemma fenced_code_reply_is_unwrapped_witness :
  Forall (fun c => Text.is_word c = true) (Js.chars "python")
  /\ Text.clean_code_response (fenced "python" "import os
print(os.getcwd())
") = "import os
print(os.getcwd())".
Proof.
  assert (H : Forall (fun c => Text.is_word c = true) (Js.chars "python"))
    by (repeat constructor).
  split; [exact H|].
  exact (fenced_code_reply_is_unwrapped "python" "import os
print(os.getcwd())
" H).
Defined.

(** ** The lines of the pyflakes output *)
Section pyflakes_facts.
Import Text.
Local Open Scope list_scope.

Lemma code_colon c : (Js.code c =? 58)%N = true -> c = ":"%char.
Proof.
  intros H. apply N.eqb_eq in H. unfold Js.code in H.
  rewrite <- (ascii_N_embedding c), H. reflexivity.
Qed.

Lemma drop_while_idem p l : drop_while p (drop_while p l) = drop_while p l.
Proof.
  induction l as [|c l IH]; [reflexivity|].
  cbn [drop_while]. destruct (p c) eqn:E; [exact IH|].
  cbn [drop_while]. by rewrite E.
Qed.

Lemma trim_chars_drop_while l :
  trim_chars (drop_while is_space l) = trim_chars l.
Proof. unfold trim_chars. by rewrite drop_while_idem. Qed.

Lemma take_while_all p l :
  Forall (fun c => p c = true) l -> take_while p l = l.
Proof.
  induction 1 as [|c l Hc _ IH]; [reflexivity|].
  cbn [take_while]. by rewrite Hc, IH.
Qed.

(** [\s*(.+)] on a text without line terminators that is not all
    whitespace: the whitespace at its head is skipped and the group takes
    the rest. *)
Lemma ws_then_any_rest R :
  Forall (fun c => is_line_terminator c = false) R ->
  Exists (fun c => is_space c = false) R ->
  FallbackAnalyzer.ws_then_any R = Some (drop_while is_space R).
Proof.
  intros Hlt. induction Hlt as [|c r Hc Hr IH]; intros Hex.
  - by apply Exists_nil in Hex.
  - assert (Hall : take_while (fun x => negb (is_line_terminator x)) (c :: r)
                   = c :: r).
    { apply take_while_all. constructor; [by rewrite Hc|].
      eapply Forall_impl; [exact Hr|]. intros x Hx. by rewrite Hx. }
    cbn [FallbackAnalyzer.ws_then_any drop_while]. rewrite Hc.
    destruct (is_space c) eqn:Hs.
    + apply Exists_cons in Hex as [Hex|Hex]; [congruence|].
      by rewrite (IH Hex).
    + by rewrite Hall.
Qed.

Lemma digits_are_digits d : Forall (fun c => Js.is_digit c = true) (Js.digits d).
Proof. induction d; cbn [Js.digits]; constructor; try reflexivity; assumption. Qed.

(** [\d*:?\s*(.+)] after the first digit, on the rest of a number that a
    colon follows. *)
Lemma after_digit_number ds R m :
  Forall (fun c => Js.is_digit c = true) ds ->
  FallbackAnalyzer.ws_then_any R = Some m ->
  FallbackAnalyzer.after_digit (ds ++ ":"%char :: R) = Some (ds, m).
Proof.
  intros Hds Hm. induction Hds as [|d ds Hd _ IH].
  - cbn [app FallbackAnalyzer.after_digit].
    change (Js.is_digit ":") with false. cbv iota.
    unfold FallbackAnalyzer.colon_then.
    change (Js.code ":" =? 58)%N with true. cbv iota. by rewrite Hm.
  - cbn [app FallbackAnalyzer.after_digit]. by rewrite Hd, IH.
Qed.

(** The leftmost match starts at the first colon that a digit follows. *)
Lemma match_line_number P d ds R m :
  Forall (fun c => c <> ":"%char) P ->
  Forall (fun c => Js.is_digit c = true) (d :: ds) ->
  FallbackAnalyzer.ws_then_any R = Some m ->
  FallbackAnalyzer.match_line (P ++ ":"%char :: (d :: ds) ++ ":"%char :: R)
  = Some (d :: ds, m).
Proof.
  intros HP Hds Hm. induction HP as [|c P Hc _ IH].
  - apply Forall_cons in Hds as [Hd Hds].
    cbn [app FallbackAnalyzer.match_line].
    change (Js.code ":" =? 58)%N with true. cbv iota.
    by rewrite Hd, (after_digit_number ds R m Hds Hm).
  - cbn [app FallbackAnalyzer.match_line].
    destruct (Js.code c =? 58)%N eqn:E; [by apply code_colon in E|].
    exact IH.
Qed.

Lemma of_uint_to_uint n : N.of_uint (N.to_uint n) = n.
Proof.
  destruct n as [|p]; [reflexivity|]. apply DecimalPos.Unsigned.of_to.
Qed.

Lemma to_uint_head n :
  exists d ds, Js.digits (N.to_uint n) = d :: ds.
Proof.
  assert (H : N.to_uint n <> Nil).
  { destruct n as [|p]; [discriminate|]. apply Unsigned.to_uint_nonnil. }
  destruct (N.to_uint n); try congruence; cbn [Js.digits]; eauto.
Qed.

End pyflakes_facts.

(** X30: how a line of the pyflakes output becomes an issue.  On a line
    made of a text without a colon, a colon, the decimal of a number [n]
    that is a safe integer (2^53 at most, so that [parseInt] gives it
    exactly), a colon and a rest that has no line terminator and is not
    all whitespace, the loop pushes one issue.  Its line is [n], or 1 when
    [n] is 0, and its message is the whole rest, trimmed: where pyflakes
    prints [file:line:column: message], the column and its colon open the
    message.  The severity is read off that message. *)
Theorem pyflakes_issue_of_report_line relativePath (P R : list ascii) (n : N) :
  (n <= 2 ^ 53)%N ->
  Forall (fun c => c <> ":"%char) P ->
  Forall (fun c => Text.is_line_terminator c = false) R ->
  Exists (fun c => Text.is_space c = false) R ->
  let message := Js.text (Text.trim_chars R) in
  FallbackAnalyzer.pyflakes_issue relativePath
    (P ++ ":"%char :: Js.digits (N.to_uint n) ++ ":"%char :: R)%list
  = [{| Analyzer.Issue.severity :=
          if Text.includes "undefined" message || Text.includes "syntax" message
          then Analyzer.critical
          else if Text.includes "imported but unused" message
                  || Text.includes "redefinition" message
               then Analyzer.major
               else Analyzer.minor;
        Analyzer.Issue.file := relativePath;
        Analyzer.Issue.line := Js.Num (if (n =? 0)%N then 1 else Z.of_N n);
        Analyzer.Issue.message := Js.Str message;
        Analyzer.Issue.rule := Js.Str "python/pyflakes";
        Analyzer.Issue.suggestion := Some (Js.Str "Review and fix the issue") |}].
Proof.
  intros _ HP HR Hex message. subst message.
  pose proof (digits_are_digits (N.to_uint n)) as Hds.
  pose proof (take_digits_digits (N.to_uint n) [] I) as Htd.
  rewrite app_nil_r in Htd.
  destruct (to_uint_head n) as (d & ds & Hn). rewrite Hn in *.
  unfold FallbackAnalyzer.pyflakes_issue.
  rewrite (match_line_number P d ds R _ HP Hds (ws_then_any_rest R HR Hex)).
  rewrite Htd. cbn [fst]. rewrite of_uint_to_uint.
  unfold Text.trim. rewrite chars_text.
  rewrite trim_chars_drop_while.
  replace (Z.of_N n =? 0)%Z with (n =? 0)%N
    by (destruct n; reflexivity).
  reflexivity.
Qed.

Lemma pyflakes_issue_of_report_line_witness :
  FallbackAnalyzer.pyflakes_issue "app.py"
    (Js.chars "/tmp/code-analysis-1/app.py:3:1: undefined name 'os'")
  = [{| Analyzer.Issue.severity := Analyzer.critical;
        Analyzer.Issue.file := "app.py";
        Analyzer.Issue.line := Js.Num 3;
        Analyzer.Issue.message := Js.Str "1: undefined name 'os'";
        Analyzer.Issue.rule := Js.Str "python/pyflakes";
        Analyzer.Issue.suggestion := Some (Js.Str "Review and fix the issue") |}].
Proof.
  refine (pyflakes_issue_of_report_line "app.py"
            (Js.chars "/tmp/code-analysis-1/app.py")
            (Js.chars "1: undefined name 'os'") 3 _ _ _ _).
  - vm_compute. discriminate.
  - repeat (constructor; [discriminate|]). constructor.
  - repeat (constructor; [reflexivity|]). constructor.
  - apply Exists_cons_hd. reflexivity.
Defined.
